(** * runn: path resolution, the HTTP runner and the loop controller

    A shallow embedding of [path.go] (path-list resolution, cache reads) and
    of the HTTP runner ([httpRequest.validate], [setCookieHeader],
    [isLocalhost], [httpRunner.Run]), followed by the properties the
    specification states about them.

    Conventions.  Go strings and byte slices are [string]; a Go [error] is
    [goerror]; a Go function returning [(T, error)] returns [result T]; code
    that touches the file system, the network or the operator threads an
    explicit state.  Library calls whose code is not part of the repository
    (net/url, doublestar, ghfs, crypto/tls, ...) are fields of an environment
    record. *)

From stdpp Require Import base option list gmap sets strings.
From Stdlib Require Import ZArith Lia Strings.Ascii.

(** ** Go values shared by both files *)

(** A Go [error].  [errors.As(err, &target)] with [target *UnsupportedError]
    is the only inspection the code makes, so the tag is kept. *)
Inductive goerror : Type :=
  | GoError (msg : string)
  | UnsupportedError (msg : string).

Inductive result (A : Type) : Type :=
  | Ok (a : A)
  | Err (e : goerror).
Arguments Ok {A} a.
Arguments Err {A} e.

Definition is_Err {A} (r : result A) : bool :=
  match r with Ok _ => false | Err _ => true end.

(** ** package strings *)
Module GoStrings.

(** [strings.HasPrefix(s, prefix)] *)
Definition HasPrefix (s pre : string) : bool := String.prefix pre s.

(** [strings.HasSuffix(s, suffix)]:
    [len(s) >= len(suffix) && s[len(s)-len(suffix):] == suffix] *)
Definition HasSuffix (s suf : string) : bool :=
  (String.length suf <=? String.length s)%nat &&
  String.eqb
    (String.substring (String.length s - String.length suf) (String.length suf) s)
    suf.

(** [strings.Contains(s, substr)] *)
Fixpoint Contains (s sub : string) : bool :=
  HasPrefix s sub ||
  match s with
  | EmptyString => false
  | String _ s' => Contains s' sub
  end.

(** [strings.TrimPrefix(s, prefix)] *)
Definition TrimPrefix (s pre : string) : string :=
  if HasPrefix s pre
  then String.substring (String.length pre) (String.length s - String.length pre) s
  else s.

(** [strings.Split(s, sep)] for a one-byte separator: always at least one
    field. *)
Fixpoint Split (s : string) (sep : Ascii.ascii) : list string :=
  match s with
  | EmptyString => [EmptyString]
  | String c s' =>
      if Ascii.eqb c sep then EmptyString :: Split s' sep
      else match Split s' sep with
           | [] => [String c EmptyString]
           | f :: fs => String c f :: fs
           end
  end.

(** [strings.NewReplacer(old1, new1, old2, new2).Replace(s)] for non-empty
    [old1], [old2] neither of which is a prefix of the other: scan from the
    left, at each position replace the key that matches there and jump past
    it.  [skip] counts the bytes of a matched key still to be dropped. *)
Fixpoint Replace2_go (old1 new1 old2 new2 : string) (skip : nat) (s : string) : string :=
  match s with
  | EmptyString => EmptyString
  | String c s' =>
      match skip with
      | S k => Replace2_go old1 new1 old2 new2 k s'
      | O =>
          if HasPrefix s old1 then
            new1 +:+ Replace2_go old1 new1 old2 new2 (String.length old1 - 1) s'
          else if HasPrefix s old2 then
            new2 +:+ Replace2_go old1 new1 old2 new2 (String.length old2 - 1) s'
          else String c (Replace2_go old1 new1 old2 new2 O s')
      end
  end.

Definition Replace2 (old1 new1 old2 new2 s : string) : string :=
  Replace2_go old1 new1 old2 new2 O s.

End GoStrings.

(** ** path.go *)
Module Path.
Import GoStrings.

Definition schemeHttps : string := "https".
Definition schemeGitHub : string := "github".
Definition prefixHttps : string := schemeHttps +:+ "://".
Definition prefixGitHub : string := schemeGitHub +:+ "://".

(** [repKey]: ["RUNN_" + TrimSuffix(ToUpper(in), "://") + "_SCHEME"], at the
    two arguments the code calls it with. *)
Definition repKey_https : string := "RUNN_HTTPS_SCHEME".
Definition repKey_github : string := "RUNN_GITHUB_SCHEME".

(** [filepath.SplitList] on Unix ([os.PathListSeparator] is [':']): the
    empty string gives the empty list. *)
Definition filepath_SplitList (p : string) : list string :=
  if String.eqb p "" then [] else Split p ":"%char.

(** [splitList]: hide the schemes, split, restore the schemes. *)
Definition splitList (pathp : string) : list string :=
  let rep := Replace2 prefixHttps repKey_https prefixGitHub repKey_github in
  let per := Replace2 repKey_https prefixHttps repKey_github prefixGitHub in
  map per (filepath_SplitList (rep pathp)).

(** [unique]: the loop body, with [u] the slice built so far and [m] the
    set of strings already seen. *)
Fixpoint unique_loop (inp : list string) (u : list string) (m : gset string) : list string :=
  match inp with
  | [] => u
  | s :: rest =>
      if decide (s ∈ m) then unique_loop rest u m
      else unique_loop rest (u ++ [s]) ({[ s ]} ∪ m)
  end.

Definition unique (inp : list string) : list string := unique_loop inp [] ∅.

(** What [doublestar.GlobWalk] hands to its callback. *)
Record DirEntry : Type := mkDirEntry { de_path : string; de_IsDir : bool }.

(** The process state [path.go] reads and writes: the package-level
    [globalCacheDir] and the outside world (file system, network). *)
Record pstate (W : Type) : Type := mkPState {
  globalCacheDir : string;
  world : W;
}.
Arguments mkPState {W} _ _.
Arguments globalCacheDir {W} _.
Arguments world {W} _.

(** The library calls and I/O helpers of [path.go].  [FS] is [fs.FS],
    [URL] is [*url.URL]. *)
Class PathEnv (W FS URL : Type) : Type := {
  doublestar_SplitPattern : string -> string * string;
  filepath_Abs : string -> W -> result string;
  filepath_Join : string -> string -> string;
  filepath_Rel : string -> string -> result string;
  os_DirFS : string -> FS;
  (** entries passed to the callback, in order, and the walk's own error *)
  doublestar_GlobWalk : FS -> string -> W -> list DirEntry * option goerror;
  ghfs_New : string -> string -> W -> result FS;
  ghfs_Sub : FS -> string -> result FS;
  os_Stat : string -> W -> option goerror;
  os_ReadFile : string -> W -> result string;
  os_WriteFile : string -> string -> W -> option goerror * W;
  urlfilepath_Decode : string -> result URL;
  url_Scheme : URL -> string;
  url_String : URL -> string;
  (** the fetchers of [path.go]: one network round trip, and for the
      first two a cache file written under [cacheDir()] *)
  fetchPathViaHTTPS : string -> pstate W -> result string * pstate W;
  fetchPathsViaGitHub : FS -> string -> string -> pstate W -> result (list string) * pstate W;
  readFileViaHTTPS : string -> W -> result string * W;
  readFileViaGitHub : string -> W -> result string * W;
}.

Section WithEnv.
Context {W FS URL : Type} {E : PathEnv W FS URL}.

Definition set_world (st : pstate W) (w : W) : pstate W :=
  mkPState (globalCacheDir st) w.

(** [readFile]: read a local or cached file; a missing cache file is
    fetched again and written back. *)
Definition readFile (p : string) (st : pstate W) : result string * pstate W :=
  match os_Stat p (world st) with
  | None => (os_ReadFile p (world st), st)
  | Some err =>
      if String.eqb (globalCacheDir st) "" || negb (HasPrefix p (globalCacheDir st))
      then (Err err, st)
      else
        match filepath_Rel (globalCacheDir st) p with
        | Err e => (Err e, st)
        | Ok pathstr =>
            match urlfilepath_Decode pathstr with
            | Err e => (Err e, st)
            | Ok u =>
                if String.eqb (url_Scheme u) schemeHttps then
                  match readFileViaHTTPS (url_String u) (world st) with
                  | (Err e, w1) => (Err e, set_world st w1)
                  | (Ok b, w1) =>
                      match os_WriteFile p b w1 with
                      | (Some e, w2) => (Err e, set_world st w2)
                      | (None, w2) => (Ok b, set_world st w2)
                      end
                  end
                else if String.eqb (url_Scheme u) schemeGitHub then
                  match readFileViaGitHub (url_String u) (world st) with
                  | (Err e, w1) => (Err e, set_world st w1)
                  | (Ok b, w1) =>
                      match os_WriteFile p b w1 with
                      | (Some e, w2) => (Err e, set_world st w2)
                      | (None, w2) => (Ok b, set_world st w2)
                      end
                  end
                else (Err (GoError ("unsupported scheme: " +:+ url_String u)), st)
            end
        end
  end.

(** The callback of the local [GlobWalk]: directories are skipped, every
    other entry is appended as [filepath.Join(base, p)]. *)
Definition local_walk (base : string) (es : list DirEntry) : list string :=
  map (fun d => filepath_Join base (de_path d)) (filter (fun d => de_IsDir d = false) es).

(** One round of the loop of [fetchPaths] on the list entry [pp]: the
    paths to append, or the error [fetchPaths] returns.
    ([filepath.ToSlash] is the identity on Unix.) *)
Definition fetchPaths_step (pp : string) (st : pstate W)
  : result (list string) * pstate W :=
  let '(base, pattern) := doublestar_SplitPattern pp in
  if HasPrefix base prefixHttps then
    if Contains pattern "*" then
      (Err (GoError ("https scheme does not support wildcard: " +:+ pp)), st)
    else
      match fetchPathViaHTTPS pp st with
      | (Err e, st1) => (Err e, st1)
      | (Ok p, st1) => (Ok [p], st1)
      end
  else if HasPrefix base prefixGitHub then
    let splitted :=
      Split (TrimPrefix base prefixGitHub) "/"%char in
    match splitted with
    | owner :: repo :: sub =>
        match ghfs_New owner repo (world st) with
        | Err e => (Err e, st)
        | Ok gfs =>
            let fsys :=
              match sub with
              | [] => Ok gfs
              | _ :: _ => ghfs_Sub gfs (String.concat "/" sub)
              end in
            match fsys with
            | Err e => (Err e, st)
            | Ok fsys =>
                match fetchPathsViaGitHub fsys base pattern st with
                | (Err e, st1) => (Err e, st1)
                | (Ok ps, st1) => (Ok ps, st1)
                end
            end
        end
    | _ => (Err (GoError ("invalid path: " +:+ pp)), st)
    end
  else if negb (Contains pattern "*") then
    match readFile pp st with
    | (Ok _, st1) => (Ok [pp], st1)
    | (Err _, st1) => (Ok [], st1)
    end
  else
    match filepath_Abs base (world st) with
    | Err e => (Err e, st)
    | Ok abs =>
        match doublestar_GlobWalk (os_DirFS abs) pattern (world st) with
        | (_, Some e) => (Err e, st)
        | (es, None) => (Ok (local_walk base es), st)
        end
    end.

(** The loop of [fetchPaths] over [listp], [paths] being the slice
    collected so far. *)
Fixpoint fetchPaths_loop (listp : list string) (paths : list string) (st : pstate W)
  : result (list string) * pstate W :=
  match listp with
  | [] => (Ok paths, st)
  | pp :: rest =>
      match fetchPaths_step pp st with
      | (Err e, st1) => (Err e, st1)
      | (Ok ps, st1) => fetchPaths_loop rest (paths ++ ps) st1
      end
  end.

(** [fetchPaths] *)
Definition fetchPaths (pathp : string) (st : pstate W) : result (list string) * pstate W :=
  match fetchPaths_loop (splitList pathp) [] st with
  | (Err e, st1) => (Err e, st1)
  | (Ok paths, st1) => (Ok (unique paths), st1)
  end.

(** [fetchPath] *)
Definition fetchPath (path : string) (st : pstate W) : result string * pstate W :=
  match fetchPaths path st with
  | (Err e, st1) => (Err e, st1)
  | (Ok paths, st1) =>
      if (1 <? length paths)%nat then (Err (GoError "multiple paths found"), st1)
      else match paths with
           | [] => (Err (GoError "path not found"), st1)
           | p :: _ => (Ok p, st1)
           end
  end.

End WithEnv.
End Path.

(** ** http.go *)
Module Http.
Import GoStrings.

Definition MediaTypeApplicationJSON : string := "application/json".
Definition MediaTypeTextPlain : string := "text/plain".
Definition MediaTypeApplicationFormUrlencoded : string := "application/x-www-form-urlencoded".
Definition MediaTypeMultipartFormData : string := "multipart/form-data".

Definition httpStoreStatusKey : string := "status".
Definition httpStoreBodyKey : string := "body".
Definition httpStoreRawBodyKey : string := "rawBody".
Definition httpStoreHeaderKey : string := "headers".
Definition httpStoreCookieKey : string := "cookies".
Definition httpStoreResponseKey : string := "res".

Definition MethodPost : string := "POST".
Definition MethodPatch : string := "PATCH".

(** A non-nil value of type [any]: what a request body or a decoded JSON
    document can be.  A nil [any] is [None] at type [option goany]. *)
#[warnings="-register-all"] Inductive goany : Type :=
  | AString (s : string)
  | ABool (b : bool)
  | ANumber (text : string)
  | AMap (kvs : list (string * goany))
  | ASlice (vs : list goany).

(** [http.Header]: canonical key to values. *)
Abbreviation Header := (gmap string (list string)).

(** [url.URL], the fields the runner reads or writes. *)
Record URL : Type := mkURL {
  Scheme : string;
  Host : string;
  Path : string;
  RawQuery : string;
}.

(** [http.Cookie].  [Expires] is an instant counted from the zero
    [time.Time], so [Expires.IsZero()] is [Expires = 0]. *)
Record Cookie : Type := mkCookie {
  Name : string;
  Value : string;
  cookie_Path : string;
  Domain : string;
  Expires : Z;
}.

(** The cookie jar [store.cookies]: host, then cookie key. *)
Abbreviation Jar := (gmap string (gmap string Cookie)).

(** [http.Request] *)
Record Request : Type := mkRequest {
  req_Method : string;
  req_URL : URL;
  req_Header : Header;
  req_Host : string;
  req_Body : option string;
}.

(** [http.Response]; [res_Body] is what [io.ReadAll(res.Body)] gives. *)
Record Response : Type := mkResponse {
  StatusCode : Z;
  res_Header : Header;
  res_Body : result string;
}.

(** The values stored under the keys of the response map [d]. *)
Inductive storeval : Type :=
  | SVInt (n : Z)
  | SVAny (b : option goany)
  | SVString (s : string)
  | SVHeader (h : Header)
  | SVCookies (m : gmap string Cookie).

(** What [operator.record] receives: [map[string]any{"res": d}]. *)
Abbreviation Recorded := (gmap string (gmap string storeval)).

(** The types of the collaborators: the outside world (network, DNS, clock,
    file system), [*multipart.Writer], [*x509.CertPool],
    [tls.Certificate], [net.IP] and the [operator] that [rnr.operator]
    points to. *)
Class HttpTypes : Type := {
  W : Type;
  MW : Type;
  CertPool : Type;
  Cert : Type;
  IP : Type;
  Op : Type;
}.

(** The calls the runner makes on its collaborators, in the order it makes
    them; a call on the backend is logged with what it gave back. *)
Inductive event : Type :=
  | EvCaptureHTTPRequest (name : string) (req : Request)
  | EvClientDo (req : Request) (res : result Response)
  | EvServeHTTP (req : Request) (res : Response)
  | EvCaptureHTTPResponse (name : string) (res : Response)
  | EvDebugf (msg : string)
  | EvRecordToCookie (cookies : list Cookie)
  | EvRecord (v : Recorded).

(** How a Go function leaves: it returns (here, an [error] that may be
    nil) or it panics. *)
Inductive exit : Type :=
  | Return (err : option goerror)
  | Panic.

(** *** Control flow: a computation on a state [S] either goes on with a
    value or leaves the function. *)
Definition M (S A : Type) : Type := S -> (A + exit) * S.

Definition ret {S A} (a : A) : M S A := fun s => (inl a, s).

Definition bind {S A B} (m : M S A) (k : A -> M S B) : M S B :=
  fun s => match m s with
           | (inl a, s') => k a s'
           | (inr x, s') => (inr x, s')
           end.

(** [return err] *)
Definition return_ {S A} (err : option goerror) : M S A := fun s => (inr (Return err), s).

Definition panic {S A} : M S A := fun s => (inr Panic, s).

(** [if err != nil { return err }] after a call giving [(v, err)] *)
Definition check {S A} (r : result A) : M S A :=
  match r with Ok a => ret a | Err e => return_ (Some e) end.

(** [if err := f(); err != nil { return err }] *)
Definition check_err {S} (e : option goerror) : M S unit :=
  match e with None => ret tt | Some e => return_ (Some e) end.

Definition lift {S A} (x : A + exit) : M S A := fun s => (x, s).

(** a pointer dereference: nil panics *)
Definition deref {S A} (x : option A) : M S A :=
  match x with Some a => ret a | None => panic end.

Definition get {S} : M S S := fun s => (inl s, s).
Definition put {S} (s : S) : M S unit := fun _ => (inl tt, s).

Notation "x <- m ;; k" := (bind m (fun x => k))
  (at level 100, m at next level, right associativity, only parsing).
Notation "m ;;; k" := (bind m (fun _ => k))
  (at level 100, right associativity, only parsing).

Section Types.
Context {T : HttpTypes}.

(** [tls.Config], the fields [Run] sets. *)
Record tlsConfig : Type := mkTLS {
  InsecureSkipVerify : bool;
  RootCAs : option CertPool;
  Certificates : list Cert;
}.

(** [http.RoundTripper]: a [*http.Transport] with its [TLSClientConfig],
    or some other implementation. *)
Inductive RoundTripper : Type :=
  | HTTPTransport (TLSClientConfig : option tlsConfig)
  | OtherRoundTripper (repr : string).

(** [http.Client] *)
Record httpClient : Type := mkClient { Transport : option RoundTripper }.

(** [httpValidator]; both methods return a Go [error]. *)
Record httpValidator : Type := mkValidator {
  ValidateRequest : Request -> option goerror;
  ValidateResponse : Request -> Response -> option goerror;
}.

(** [httpRunner].  The field [operator] is a pointer to an object the
    runner shares with the rest of the run; that object is a component
    of the state ([s_operator] below), not of this record. *)
Record httpRunner : Type := mkRunner {
  rnr_name : string;
  rnr_endpoint : option URL;
  rnr_client : option httpClient;
  rnr_handler : option (Request -> W -> Response * W);
  rnr_validator : httpValidator;
  rnr_multipartBoundary : string;
  rnr_cacert : string;
  rnr_cert : string;
  rnr_key : string;
  rnr_skipVerify : bool;
  rnr_useCookie : option bool;
}.

Record httpRequest : Type := mkHTTPRequest {
  r_path : string;
  r_method : string;
  r_headers : gmap string string;
  r_mediaType : string;
  r_body : option goany;
  r_useCookie : option bool;
  r_multipartWriter : option MW;
  r_multipartBoundary : string;
  r_root : string;
}.

(** Library calls, and [encodeMultipart]. *)
Class HttpEnv : Type := {
  json_Marshal : goany -> result string;
  (** [json.Unmarshal(data, &b)] with [b any]; JSON [null] leaves [b] nil *)
  json_Unmarshal : string -> result (option goany);
  form_Encode : list (string * goany) -> result string;
  FormDataContentType : MW -> string;
  CanonicalMIMEHeaderKey : string -> string;
  (** the sanitized [name=value] that [AddCookie] writes *)
  cookie_pair : Cookie -> string;
  url_Parse : string -> result URL;
  url_String : URL -> string;
  url_Hostname : URL -> string;
  url_Query : URL -> gmap string (list string);
  values_Encode : gmap string (list string) -> string;
  path_Join : string -> string -> string;
  http_NewRequestWithContext : string -> string -> option string -> result Request;
  (** [httptest.NewRequest] panics on a malformed request: [None] *)
  httptest_NewRequest : string -> string -> option string -> option Request;
  (** the [TLSClientConfig] of a clone of [http.DefaultTransport], which
      is a [*http.Transport] *)
  DefaultTransport_Clone : option tlsConfig;
  x509_SystemCertPool : W -> result CertPool;
  x509_NewCertPool : CertPool;
  AppendCertsFromPEM : CertPool -> string -> CertPool * bool;
  tls_X509KeyPair : string -> string -> result Cert;
  client_Do : httpClient -> Request -> W -> result Response * W;
  net_LookupIP : string -> W -> result (list IP);
  IsLoopback : IP -> bool;
  time_Now : W -> Z;
  (** [res.Cookies()] *)
  res_Cookies : Response -> list Cookie;
  (** [encodeMultipart]: the encoded body and the writer it leaves in
      [r.multipartWriter]; it reads the files the body names *)
  encodeMultipart_parts : httpRequest -> W -> result (string * MW);
  (** [fmt.Sprintf("%v", v)] *)
  fmt_v : option goany -> string;
}.

(** What [Run] reads from and calls on [*operator], whose code is
    outside these files. *)
Class OperatorOps : Type := {
  op_root : Op -> string;
  op_store_cookies : Op -> Jar;
  captureHTTPRequest : string -> Request -> Op -> Op;
  captureHTTPResponse : string -> Response -> Op -> Op;
  Debugf : string -> Op -> Op;
  recordToCookie : list Cookie -> Op -> Op;
  record : Recorded -> Op -> Op;
}.
End Types.

Section WithEnv.
Context {T : HttpTypes} {E : HttpEnv}.

(** [Header.Get] and [Header.Set] *)
Definition Header_Get (h : Header) (key : string) : string :=
  match h !! CanonicalMIMEHeaderKey key with
  | Some (v :: _) => v
  | _ => ""
  end.

Definition Header_Set (h : Header) (key value : string) : Header :=
  <[CanonicalMIMEHeaderKey key := [value]]> h.

Definition set_req_Header (req : Request) (h : Header) : Request :=
  mkRequest (req_Method req) (req_URL req) h (req_Host req) (req_Body req).

Definition set_req_Host (req : Request) (host : string) : Request :=
  mkRequest (req_Method req) (req_URL req) (req_Header req) host (req_Body req).

(** [Request.AddCookie] *)
Definition AddCookie (req : Request) (c : Cookie) : Request :=
  let s := cookie_pair c in
  let old := Header_Get (req_Header req) "Cookie" in
  if negb (String.eqb old "")
  then set_req_Header req (Header_Set (req_Header req) "Cookie" (old +:+ "; " +:+ s))
  else set_req_Header req (Header_Set (req_Header req) "Cookie" s).

(** [httpRequest.isMultipartFormDataMediaType] *)
Definition isMultipartFormDataMediaType (r : httpRequest) : bool :=
  if String.eqb (r_mediaType r) MediaTypeMultipartFormData then true
  else HasPrefix (r_mediaType r) (MediaTypeMultipartFormData +:+ "; boundary=").

(** [httpRequest.validate] *)
Definition validate (r : httpRequest) : option goerror :=
  let first :=
    if String.eqb (r_method r) MethodPost || String.eqb (r_method r) MethodPatch then
      if String.eqb (r_mediaType r) "" then
        Some (GoError (r_method r +:+ " method requires mediaType"))
      else if bool_decide (r_body r = None) then
        Some (GoError (r_method r +:+ " method requires body"))
      else None
    else None in
  match first with
  | Some e => Some e
  | None =>
      if isMultipartFormDataMediaType r then None
      else if String.eqb (r_mediaType r) MediaTypeApplicationJSON
              || String.eqb (r_mediaType r) MediaTypeTextPlain
              || String.eqb (r_mediaType r) MediaTypeApplicationFormUrlencoded
              || String.eqb (r_mediaType r) ""
      then None
      else Some (GoError ("unsupported mediaType: " +:+ r_mediaType r))
  end.

(** [isLocalhost] *)
Definition isLocalhost (domain : string) (w : W) : bool * option goerror :=
  match net_LookupIP domain w with
  | Err err => (false, Some err)
  | Ok ips => if existsb IsLoopback ips then (true, None) else (false, None)
  end.

(** The host a jar key stands for: [strings.Split(host, ":")[0]]. *)
Definition strip_port (host : string) : string :=
  default "" (head (Split host ":"%char)).

(** The loops of [setCookieHeader], for any accumulator that [add]
    updates where the code calls [req.AddCookie(cookie)]; [add] is also
    told the jar key and the cookie key of the cookie. *)
Definition cookies_loop {A : Type} (add : A -> string -> string -> Cookie -> A)
    (domain path : string) (w : W) (cookies : Jar) (acc : A) : A :=
  foldl (fun acc (hc : string * gmap string Cookie) =>
           let host := strip_port hc.1 in
           let skip :=
             if String.eqb host "localhost" then
               match isLocalhost domain w with
               | (l, err) => negb l || bool_decide (err ≠ None)
               end
             else negb (HasSuffix domain host) in
           if skip then acc
           else
             foldl (fun acc (kc : string * Cookie) =>
                      let cookie := kc.2 in
                      if String.eqb (cookie_Path cookie) "" || HasPrefix path (cookie_Path cookie) then
                        if (Expires cookie =? 0)%Z || (time_Now w <? Expires cookie)%Z
                        then add acc hc.1 kc.1 cookie
                        else acc
                      else acc)
                   acc (map_to_list hc.2))
        acc (map_to_list cookies).

(** [httpRequest.setCookieHeader] *)
Definition setCookieHeader (r : httpRequest) (req : Request) (cookies : Jar) (w : W) : Request :=
  match r_useCookie r with
  | Some true =>
      cookies_loop (fun req _ _ c => AddCookie req c)
        (url_Hostname (req_URL req)) (Path (req_URL req)) w cookies req
  | _ => req
  end.

(** The cookies [setCookieHeader] passes to [req.AddCookie], in order,
    each with the jar key and the cookie key it is stored under. *)
Definition attached (r : httpRequest) (req : Request) (cookies : Jar) (w : W)
  : list (string * string * Cookie) :=
  match r_useCookie r with
  | Some true =>
      cookies_loop (fun l h k c => l ++ [(h, k, c)])
        (url_Hostname (req_URL req)) (Path (req_URL req)) w cookies []
  | _ => []
  end.

Definition set_r_multipartBoundary (r : httpRequest) (b : string) : httpRequest :=
  mkHTTPRequest (r_path r) (r_method r) (r_headers r) (r_mediaType r) (r_body r)
    (r_useCookie r) (r_multipartWriter r) b (r_root r).

Definition set_r_root (r : httpRequest) (root : string) : httpRequest :=
  mkHTTPRequest (r_path r) (r_method r) (r_headers r) (r_mediaType r) (r_body r)
    (r_useCookie r) (r_multipartWriter r) (r_multipartBoundary r) root.

Definition set_r_useCookie (r : httpRequest) (c : option bool) : httpRequest :=
  mkHTTPRequest (r_path r) (r_method r) (r_headers r) (r_mediaType r) (r_body r)
    c (r_multipartWriter r) (r_multipartBoundary r) (r_root r).

Definition set_r_multipartWriter (r : httpRequest) (mw : option MW) : httpRequest :=
  mkHTTPRequest (r_path r) (r_method r) (r_headers r) (r_mediaType r) (r_body r)
    (r_useCookie r) mw (r_multipartBoundary r) (r_root r).

(** [httpRequest.encodeBody]: the reader (nil for a nil body) or the
    error, and [r] with the multipart writer [encodeMultipart] stored. *)
Definition encodeBody (r : httpRequest) (w : W) : result (option string) * httpRequest :=
  match r_body r with
  | None => (Ok None, r)
  | Some b =>
      if isMultipartFormDataMediaType r then
        match encodeMultipart_parts r w with
        | Err e => (Err e, r)
        | Ok (buf, mw) => (Ok (Some buf), set_r_multipartWriter r (Some mw))
        end
      else if String.eqb (r_mediaType r) MediaTypeApplicationJSON then
        match json_Marshal b with
        | Err e => (Err e, r)
        | Ok s => (Ok (Some s), r)
        end
      else if String.eqb (r_mediaType r) MediaTypeApplicationFormUrlencoded then
        match b with
        | AMap values =>
            match form_Encode values with
            | Err e => (Err e, r)
            | Ok s => (Ok (Some s), r)
            end
        | _ => (Err (GoError ("invalid body: " +:+ fmt_v (r_body r))), r)
        end
      else if String.eqb (r_mediaType r) MediaTypeTextPlain then
        match b with
        | AString s => (Ok (Some s), r)
        | _ => (Err (GoError ("invalid body: " +:+ fmt_v (r_body r))), r)
        end
      else (Err (GoError ("unsupported mediaType: " +:+ r_mediaType r)), r)
  end.

(** [httpRequest.setContentTypeHeader]; [None] is the nil dereference of
    [r.multipartWriter] when no multipart body was encoded. *)
Definition setContentTypeHeader (r : httpRequest) (req : Request) : option Request :=
  if String.eqb (r_mediaType r) MediaTypeMultipartFormData then
    match r_multipartWriter r with
    | Some mw =>
        Some (set_req_Header req (Header_Set (req_Header req) "Content-Type" (FormDataContentType mw)))
    | None => None
    end
  else if negb (String.eqb (r_mediaType r) "") then
    Some (set_req_Header req (Header_Set (req_Header req) "Content-Type" (r_mediaType r)))
  else Some req.

(** [url.Values.Add] *)
Definition Values_Add (q : gmap string (list string)) (k v : string) : gmap string (list string) :=
  <[k := default [] (q !! k) ++ [v]]> q.

(** [mergeURL]; a nil [u] panics at [u.String()]. *)
Definition mergeURL (u : option URL) (p : string) : URL + exit :=
  if negb (HasPrefix p "/") then inr (Return (Some (GoError ("invalid path: " +:+ p))))
  else
    match u with
    | None => inr Panic
    | Some u =>
        match url_Parse (url_String u) with
        | Err e => inr (Return (Some e))
        | Ok m =>
            match url_Parse p with
            | Err e => inr (Return (Some e))
            | Ok a =>
                let q :=
                  foldl (fun q (kvs : string * list string) =>
                           foldl (fun q v => Values_Add q kvs.1 v) q kvs.2)
                        (url_Query u) (map_to_list (url_Query a)) in
                inl (mkURL (Scheme m) (Host m) (path_Join (Path m) (Path a)) (values_Encode q))
            end
        end
    end.

Definition set_InsecureSkipVerify (c : tlsConfig) (b : bool) : tlsConfig :=
  mkTLS b (RootCAs c) (Certificates c).
Definition set_RootCAs (c : tlsConfig) (p : option CertPool) : tlsConfig :=
  mkTLS (InsecureSkipVerify c) p (Certificates c).
Definition set_Certificates (c : tlsConfig) (cs : list Cert) : tlsConfig :=
  mkTLS (InsecureSkipVerify c) (RootCAs c) cs.

Definition set_Domain (c : Cookie) (d : string) : Cookie :=
  mkCookie (Name c) (Value c) (cookie_Path c) d (Expires c).

Definition set_rnr_client (rnr : httpRunner) (cl : option httpClient) : httpRunner :=
  mkRunner (rnr_name rnr) (rnr_endpoint rnr) cl (rnr_handler rnr)
    (rnr_validator rnr) (rnr_multipartBoundary rnr) (rnr_cacert rnr) (rnr_cert rnr)
    (rnr_key rnr) (rnr_skipVerify rnr) (rnr_useCookie rnr).

(** [rnr.client], a nil pointer being dereferenced if there is none *)
Definition get_client : M httpRunner httpClient :=
  rnr <- get ;; deref (rnr_client rnr).

Definition set_client (cl : httpClient) : M httpRunner unit :=
  rnr <- get ;; put (set_rnr_client rnr (Some cl)).

(** The TLS set-up at the head of the [rnr.client != nil] case, lines
    653-691; it works on the runner alone and reads the system
    certificates from the world [w]. *)
Definition Run_tls (w : W) : M httpRunner unit :=
  cl <- get_client ;;
  (match Transport cl with
   | None => set_client (mkClient (Some (HTTPTransport DefaultTransport_Clone)))
   | Some _ => ret tt
   end) ;;;
  rnr <- get ;;
  cl <- get_client ;;
  (match Transport cl with
   | Some (HTTPTransport existingConfig) =>
       let cfg := match existingConfig with
                  | Some c => c
                  | None => mkTLS false None []
                  end in
       set_client (mkClient (Some (HTTPTransport
                     (Some (set_InsecureSkipVerify cfg (rnr_skipVerify rnr))))))
   | _ => ret tt
   end) ;;;
  (if negb (String.eqb (rnr_cacert rnr) "") then
     let '(certpool, err) :=
       match x509_SystemCertPool w with
       | Ok p => (p, None)
       | Err e => (x509_NewCertPool, Some e)
       end in
     let '(certpool, ok) := AppendCertsFromPEM certpool (rnr_cacert rnr) in
     if negb ok then return_ err
     else
       cl <- get_client ;;
       match Transport cl with
       | Some (HTTPTransport (Some cfg)) =>
           set_client (mkClient (Some (HTTPTransport (Some (set_RootCAs cfg (Some certpool))))))
       | Some (HTTPTransport None) => panic
       | Some (OtherRoundTripper repr) =>
           return_ (Some (GoError ("could not set cacert: interface conversion error: http.RoundTripper is "
                                     +:+ repr +:+ ", not *http.Transport")))
       | None =>
           return_ (Some (GoError "could not set cacert: interface conversion error: http.RoundTripper is <nil>, not *http.Transport"))
       end
   else ret tt) ;;;
  (if negb (String.eqb (rnr_cert rnr) "") && negb (String.eqb (rnr_key rnr) "") then
     cert <- check (tls_X509KeyPair (rnr_cert rnr) (rnr_key rnr)) ;;
     cl <- get_client ;;
     match Transport cl with
     | Some (HTTPTransport (Some cfg)) =>
         set_client (mkClient (Some (HTTPTransport (Some (set_Certificates cfg [cert])))))
     | Some (HTTPTransport None) => panic
     | Some (OtherRoundTripper repr) =>
         return_ (Some (GoError ("could not set certificates: interface conversion error: http.RoundTripper is "
                                   +:+ repr +:+ ", not *http.Transport")))
     | None =>
         return_ (Some (GoError "could not set certificates: interface conversion error: http.RoundTripper is <nil>, not *http.Transport"))
     end
   else ret tt).

(** [for k, v := range r.headers] of the client case *)
Definition set_headers_client (r : httpRequest) (req : Request) : Request :=
  foldl (fun req (kv : string * string) =>
           let req := set_req_Header req (Header_Set (req_Header req) kv.1 kv.2) in
           if String.eqb kv.1 "Host" then set_req_Host req kv.2 else req)
        req (map_to_list (r_headers r)).

(** [for k, v := range r.headers] of the handler case *)
Definition set_headers_handler (r : httpRequest) (req : Request) : Request :=
  foldl (fun req (kv : string * string) =>
           set_req_Header req (Header_Set (req_Header req) kv.1 kv.2))
        req (map_to_list (r_headers r)).

(** The map [d] before the cookies are added, lines 764-776. *)
Definition response_map (res : Response) (resBody : string) (b : option goany)
  : gmap string storeval :=
  <[httpStoreHeaderKey := SVHeader (res_Header res)]>
    (<[httpStoreRawBodyKey := SVString resBody]>
       (<[httpStoreBodyKey := SVAny b]>
          (<[httpStoreStatusKey := SVInt (StatusCode res)]> ∅))).

(** Lines 783-789: a cookie without a Domain takes the endpoint's host. *)
Definition fill_domains (endpoint : option URL) (cookies : list Cookie) : list Cookie :=
  map (fun c =>
         match endpoint with
         | Some ep => if String.eqb (Domain c) "" then set_Domain c (Host ep) else c
         | None => c
         end) cookies.

Definition keyMap_of (cookies : list Cookie) : gmap string Cookie :=
  foldl (fun (m : gmap string Cookie) c => <[Name c := c]> m) ∅ cookies.

End WithEnv.

Section WithOperator.
Context {T : HttpTypes} {E : HttpEnv} {O : OperatorOps}.

(** The state [Run] works on: the runner, the operator it points to, the
    world, and the calls made so far. *)
Record rstate : Type := mkRState {
  s_rnr : httpRunner;
  s_operator : Op;
  s_world : W;
  s_trace : list event;
}.

Definition get_rnr : M rstate httpRunner := fun s => (inl (s_rnr s), s).
Definition get_operator : M rstate Op := fun s => (inl (s_operator s), s).
Definition get_world : M rstate W := fun s => (inl (s_world s), s).

(** a computation on the runner alone, run inside [Run] *)
Definition on_rnr {A} (m : M httpRunner A) : M rstate A :=
  fun s => match m (s_rnr s) with
           | (a, rnr') => (a, mkRState rnr' (s_operator s) (s_world s) (s_trace s))
           end.

(** a call on the backend: it changes the world and is logged with its
    result *)
Definition backend {A} (ev : A -> event) (f : W -> A * W) : M rstate A :=
  fun s => match f (s_world s) with
           | (a, w') => (inl a, mkRState (s_rnr s) (s_operator s) w' (s_trace s ++ [ev a]))
           end.

(** a method call on [rnr.operator], logged as [ev] *)
Definition on_operator (ev : event) (f : Op -> Op) : M rstate unit :=
  fun s => (inl tt, mkRState (s_rnr s) (f (s_operator s)) (s_world s) (s_trace s ++ [ev])).

(** [case rnr.client != nil], lines 652-725: the request sent and the
    response received. *)
Definition Run_client (r : httpRequest) (reqBody : option string) : M rstate (Request * Response) :=
  w <- get_world ;;
  on_rnr (Run_tls w) ;;;
  rnr <- get_rnr ;;
  u <- lift (mergeURL (rnr_endpoint rnr) (r_path r)) ;;
  req <- check (http_NewRequestWithContext (r_method r) (url_String u) reqBody) ;;
  req <- deref (setContentTypeHeader r req) ;;
  let r :=
    if bool_decide (r_useCookie r = None) && bool_decide (rnr_useCookie rnr = Some true)
    then set_r_useCookie r (rnr_useCookie rnr) else r in
  o <- get_operator ;;
  let req := setCookieHeader r req (op_store_cookies o) w in
  let req := set_headers_client r req in
  on_operator (EvCaptureHTTPRequest (rnr_name rnr) req) (captureHTTPRequest (rnr_name rnr) req) ;;;
  check_err (ValidateRequest (rnr_validator rnr) req) ;;;
  cl <- on_rnr get_client ;;
  res <- backend (EvClientDo req) (client_Do cl req) ;;
  res <- check res ;;
  ret (req, res).

(** [case rnr.handler != nil], lines 726-743 *)
Definition Run_handler (r : httpRequest) (reqBody : option string)
    (handler : Request -> W -> Response * W) : M rstate (Request * Response) :=
  rnr <- get_rnr ;;
  req <- deref (httptest_NewRequest (r_method r) (r_path r) reqBody) ;;
  let req :=
    if negb (String.eqb (r_mediaType r) "")
    then set_req_Header req (Header_Set (req_Header req) "Content-Type" (r_mediaType r))
    else req in
  let req := set_headers_handler r req in
  on_operator (EvCaptureHTTPRequest (rnr_name rnr) req) (captureHTTPRequest (rnr_name rnr) req) ;;;
  check_err (ValidateRequest (rnr_validator rnr) req) ;;;
  res <- backend (EvServeHTTP req) (handler req) ;;
  ret (req, res).

(** The decoded body stored under ["body"], lines 766-774. *)
Definition decode_body (res : Response) (resBody : string) : M rstate (option goany) :=
  if Contains (Header_Get (res_Header res) "Content-Type") "json"
     && (0 <? String.length resBody)%nat
  then check (json_Unmarshal resBody)
  else ret None.

(** Lines 748-801: from the response to the record in the store. *)
Definition Run_tail (req : Request) (res : Response) : M rstate unit :=
  rnr <- get_rnr ;;
  on_operator (EvCaptureHTTPResponse (rnr_name rnr) res) (captureHTTPResponse (rnr_name rnr) res) ;;;
  (match ValidateResponse (rnr_validator rnr) req res with
   | None => ret tt
   | Some (UnsupportedError msg) =>
       let m := "Skip validate response due to unsupported format: " +:+ msg in
       on_operator (EvDebugf m) (Debugf m)
   | Some err => return_ (Some err)
   end) ;;;
  resBody <- check (res_Body res) ;;
  b <- decode_body res resBody ;;
  let d := response_map res resBody b in
  let cookies := res_Cookies res in
  d <- (if (0 <? length cookies)%nat then
          let cookies := fill_domains (rnr_endpoint rnr) cookies in
          on_operator (EvRecordToCookie cookies) (recordToCookie cookies) ;;;
          ret (<[httpStoreCookieKey := SVCookies (keyMap_of cookies)]> d)
        else ret (<[httpStoreCookieKey := SVCookies ∅]> d)) ;;
  let v : Recorded := {[ httpStoreResponseKey := d ]} in
  on_operator (EvRecord v) (record v).

(** The body of [httpRunner.Run] *)
Definition Run_body (r : httpRequest) : M rstate unit :=
  rnr <- get_rnr ;;
  o <- get_operator ;;
  let r := set_r_multipartBoundary r (rnr_multipartBoundary rnr) in
  let r := set_r_root r (op_root o) in
  w <- get_world ;;
  let '(reqBody, r) := encodeBody r w in
  reqBody <- check reqBody ;;
  reqres <- (match rnr_client rnr, rnr_handler rnr with
             | Some _, _ => Run_client r reqBody
             | None, Some h => Run_handler r reqBody h
             | None, None => return_ (Some (GoError ("invalid http runner: " +:+ rnr_name rnr)))
             end) ;;
  Run_tail reqres.1 reqres.2.

(** [rnr.Run(ctx, r)] with [rnr.operator] pointing to [o], from the
    world [w]: how it leaves, and the state it leaves. *)
Definition Run (rnr : httpRunner) (o : Op) (r : httpRequest) (w : W) : exit * rstate :=
  match Run_body r (mkRState rnr o w []) with
  | (inl _, s) => (Return None, s)
  | (inr x, s) => (x, s)
  end.

End WithOperator.
End Http.

(** ** The loop controller *)
Module Loop.

(** Modelled from the spec: the Loop Controller (section 4.4), whose code
    (the operator's loop over a step) is not among the source files; only
    the book [testdata/book/loop.yml] that exercises it is.  The states are
    [Pending -> Iterating -> {Satisfied, Exhausted, Failed}]. *)
Inductive state : Type := Pending | Iterating | Satisfied | Exhausted | Failed.

Section Controller.
(** [Outcome] is what an invocation yields; [B] is everything an
    invocation can change (backend, store). *)
Context {Outcome B : Type}.

(** Modelled from the spec: LoopSpec (section 3) after resolution of
    [count]; [until], when present, is evaluated on the current outcome
    and the iteration index and may fail with an expression error. *)
Record LoopSpec : Type := mkLoopSpec {
  count : nat;
  interval : nat;
  until : option (Outcome -> nat -> result bool);
}.

(** Modelled from the spec: the wrapped invocation ([execute], which
    yields an Outcome or an error) and the blocking delay (which yields
    an error when the run is cancelled during it). *)
Record Wrapped : Type := mkWrapped {
  invoke : nat -> B -> result Outcome * B;
  delay : nat -> B -> option goerror * B;
}.

Record config : Type := mkConfig {
  st : state;
  invocations : nat;
  current : option Outcome;
  backend : B;
}.

Definition init (b : B) : config := mkConfig Pending 0 None b.

(** Modelled from the spec: one transition.  An iteration waits
    [interval] (from the second iteration on), runs the invocation,
    updates [current], evaluates [until] if there is one, and decides. *)
Definition step (spec : LoopSpec) (wr : Wrapped) (c : config) : config :=
  match st c with
  | Pending => mkConfig Iterating (invocations c) (current c) (backend c)
  | Iterating =>
      let '(cancelled, b1) :=
        if (invocations c =? 0)%nat then (None, backend c)
        else delay wr (interval spec) (backend c) in
      match cancelled with
      | Some _ => mkConfig Failed (invocations c) (current c) b1
      | None =>
          match invoke wr (invocations c) b1 with
          | (Err _, b2) => mkConfig Failed (S (invocations c)) (current c) b2
          | (Ok o, b2) =>
              let n := S (invocations c) in
              match until spec with
              | None =>
                  mkConfig (if (count spec <=? n)%nat then Satisfied else Iterating) n (Some o) b2
              | Some u =>
                  match u o (invocations c) with
                  | Err _ => mkConfig Failed n (Some o) b2
                  | Ok true => mkConfig Satisfied n (Some o) b2
                  | Ok false =>
                      mkConfig (if (count spec <=? n)%nat then Exhausted else Iterating) n (Some o) b2
                  end
              end
          end
      end
  | Satisfied | Exhausted | Failed => c
  end.

(** [fuel] transitions from [c]; the terminal states do not move. *)
Fixpoint run (spec : LoopSpec) (wr : Wrapped) (fuel : nat) (c : config) : config :=
  match fuel with
  | O => c
  | S fuel' => run spec wr fuel' (step spec wr c)
  end.

End Controller.
Arguments LoopSpec : clear implicits.
Arguments Wrapped : clear implicits.
Arguments config : clear implicits.
End Loop.

(** ** Reference definitions and sample environments *)

Module PathSpec.

(** Keeping the first occurrence of every string, by recursion on the
    list: what "no duplicates, first occurrences in order" asks for. *)
Fixpoint first_occurrences (l : list string) : list string :=
  match l with
  | [] => []
  | x :: l' => x :: filter (λ y, y ≠ x) (first_occurrences l')
  end.

(** The position of the first occurrence of [x] in [l]. *)
Fixpoint first_index (x : string) (l : list string) : option nat :=
  match l with
  | [] => None
  | y :: l' => if decide (y = x) then Some 0 else S <$> first_index x l'
  end.

End PathSpec.

Module PathFixture.
Import GoStrings Path.

(** A small world for [path.go]: the files on disk, by path.  A remote
    read answers with the URL asked for; the path fetchers are offline. *)
Definition env : PathEnv (gmap string string) unit (string * string) := {|
  doublestar_SplitPattern pp := (pp, "");
  filepath_Abs p _ := Ok p;
  filepath_Join a b := a +:+ "/" +:+ b;
  filepath_Rel base p := Ok (TrimPrefix p (base +:+ "/"));
  os_DirFS _ := tt;
  doublestar_GlobWalk _ _ _ := ([], None);
  ghfs_New _ _ _ := Err (GoError "offline");
  ghfs_Sub _ _ := Err (GoError "offline");
  os_Stat p w := match w !! p with Some _ => None | None => Some (GoError "no such file") end;
  os_ReadFile p w := match w !! p with Some b => Ok b | None => Err (GoError "no such file") end;
  os_WriteFile p b w := (None, <[p := b]> w);
  urlfilepath_Decode s := Ok ("https", "https://" +:+ s);
  url_Scheme u := u.1;
  url_String u := u.2;
  fetchPathViaHTTPS _ st := (Err (GoError "offline"), st);
  fetchPathsViaGitHub _ _ _ st := (Err (GoError "offline"), st);
  readFileViaHTTPS u w := (Ok ("body of " +:+ u), w);
  readFileViaGitHub u w := (Ok ("body of " +:+ u), w);
|}.

Definition disk : gmap string string :=
  <["a.yml" := "desc: a"]> (<["b.yml" := "desc: b"]> ∅).

(** a cache path whose file is not on disk *)
Definition cached : string := "/cache/example.com/a.yml".
End PathFixture.

Module HttpSpec.
Import GoStrings Http.

Section WithEnv.
Context {T : HttpTypes} {E : HttpEnv}.

(** whether the outer loop body of [setCookieHeader] lets a jar key
    through *)
Definition host_passes (domain : string) (w : W) (host : string) : bool :=
  if String.eqb (strip_port host) "localhost" then
    match isLocalhost domain w with
    | (l, err) => l && bool_decide (err = None)
    end
  else HasSuffix domain (strip_port host).

(** whether the inner loop body passes a cookie to [AddCookie] *)
Definition cookie_passes (path : string) (w : W) (c : Cookie) : bool :=
  (String.eqb (cookie_Path c) "" || HasPrefix path (cookie_Path c))
  && ((Expires c =? 0)%Z || (time_Now w <? Expires c)%Z).

(** the cookies one jar entry contributes *)
Definition entry_cookies (domain path : string) (w : W)
    (hc : string * gmap string Cookie) : list (string * string * Cookie) :=
  if host_passes domain w hc.1
  then map_to_list hc.2 ≫= (λ kc, if cookie_passes path w kc.2 then [(hc.1, kc.1, kc.2)] else [])
  else [].

(** *** The ways [Run] can go *)

(** lines 766: the body is decoded as JSON *)
Definition is_json (res : Response) (resBody : string) : bool :=
  Contains (Header_Get (res_Header res) "Content-Type") "json"
  && (0 <? String.length resBody)%nat.

(** [b] is the decoded body that goes with [resBody] *)
Definition decoded (res : Response) (resBody : string) (b : option goany) : Prop :=
  if is_json res resBody then json_Unmarshal resBody = Ok b else b = None.

(** the response passed validation, with [dbg] the debug message logged
    when the validator does not support the format *)
Definition validated (rnr : httpRunner) (req : Request) (res : Response)
    (dbg : list event) : Prop :=
  (ValidateResponse (rnr_validator rnr) req res = None ∧ dbg = [])
  ∨ ∃ msg, ValidateResponse (rnr_validator rnr) req res = Some (UnsupportedError msg)
           ∧ dbg = [EvDebugf ("Skip validate response due to unsupported format: " +:+ msg)].

(** the cookies of the response, as stored and as recorded in the jar *)
Definition stored_cookies (rnr : httpRunner) (res : Response) : list Cookie :=
  fill_domains (rnr_endpoint rnr) (res_Cookies res).

Definition cookie_events (rnr : httpRunner) (res : Response) : list event :=
  if (0 <? length (res_Cookies res))%nat
  then [EvRecordToCookie (stored_cookies rnr res)] else [].

(** the map [d] that is recorded under ["res"] *)
Definition outcome_map (rnr : httpRunner) (res : Response) (resBody : string)
    (b : option goany) : gmap string storeval :=
  <[httpStoreCookieKey :=
      SVCookies (if (0 <? length (res_Cookies res))%nat
                 then keyMap_of (stored_cookies rnr res) else ∅)]>
    (response_map res resBody b).

(** the calls on the store and the log: neither a notification of the
    capturers nor a call on the backend *)
Definition store_event (ev : event) : bool :=
  match ev with
  | EvDebugf _ | EvRecordToCookie _ | EvRecord _ => true
  | _ => false
  end.

(** How [Run] leaves once it holds the response [res] to [req], and the
    calls it makes after notifying the capturers of [res]. *)
Inductive after_response (rnr : httpRunner) (req : Request) (res : Response)
  : exit → list event → Prop :=
  | ar_rejected (e : goerror) :
      ValidateResponse (rnr_validator rnr) req res = Some e →
      (∀ msg, e ≠ UnsupportedError msg) →
      after_response rnr req res (Return (Some e)) []
  | ar_unreadable (dbg : list event) (e : goerror) :
      validated rnr req res dbg →
      res_Body res = Err e →
      after_response rnr req res (Return (Some e)) dbg
  | ar_malformed (dbg : list event) (resBody : string) (e : goerror) :
      validated rnr req res dbg →
      res_Body res = Ok resBody →
      is_json res resBody = true →
      json_Unmarshal resBody = Err e →
      after_response rnr req res (Return (Some e)) dbg
  | ar_recorded (dbg : list event) (resBody : string) (b : option goany) :
      validated rnr req res dbg →
      res_Body res = Ok resBody →
      decoded res resBody b →
      after_response rnr req res (Return None)
        (dbg ++ cookie_events rnr res
             ++ [EvRecord {[ httpStoreResponseKey := outcome_map rnr res resBody b ]}]).

(** How [Run] leaves, and the calls it has made by then. *)
Inductive run_case (rnr : httpRunner) : exit → list event → Prop :=
  | rc_unsent (x : exit) :
      x ≠ Return None ∨ (rnr_client rnr ≠ None ∧ rnr_cacert rnr ≠ "") →
      run_case rnr x []
  | rc_request_rejected (req : Request) (e : goerror) :
      ValidateRequest (rnr_validator rnr) req = Some e →
      run_case rnr (Return (Some e)) [EvCaptureHTTPRequest (rnr_name rnr) req]
  | rc_transport (req : Request) (e : goerror) :
      ValidateRequest (rnr_validator rnr) req = None →
      run_case rnr (Return (Some e))
        [EvCaptureHTTPRequest (rnr_name rnr) req; EvClientDo req (Err e)]
  | rc_client_response (req : Request) (res : Response) (x : exit) (rest : list event) :
      ValidateRequest (rnr_validator rnr) req = None →
      after_response rnr req res x rest →
      run_case rnr x
        ([EvCaptureHTTPRequest (rnr_name rnr) req; EvClientDo req (Ok res);
          EvCaptureHTTPResponse (rnr_name rnr) res] ++ rest)
  | rc_handler_response (req : Request) (res : Response) (x : exit) (rest : list event) :
      ValidateRequest (rnr_validator rnr) req = None →
      after_response rnr req res x rest →
      run_case rnr x
        ([EvCaptureHTTPRequest (rnr_name rnr) req; EvServeHTTP req res;
          EvCaptureHTTPResponse (rnr_name rnr) res] ++ rest).

End WithEnv.
End HttpSpec.

Module HttpFixture.
Import GoStrings Http.

(** Sample collaborators: the world is the clock reading; an IP address is
    whether it is a loopback address; the operator is its cookie jar. *)
Definition types : HttpTypes := {|
  W := Z;
  MW := string;
  CertPool := list string;
  Cert := string * string;
  IP := bool;
  Op := gmap string (gmap string Cookie);
|}.

(** Name resolution: [localhost] and [127.0.0.1] are loopback, the lookup
    of [nowhere.localhost] fails, any other name is a remote address. *)
Definition lookup (domain : string) : result (list bool) :=
  if String.eqb domain "localhost" || String.eqb domain "127.0.0.1" then Ok [true]
  else if String.eqb domain "nowhere.localhost" then Err (GoError "no such host")
  else Ok [false].

Definition env : @HttpEnv types := {|
  json_Marshal _ := Ok "{}";
  json_Unmarshal s :=
    if String.eqb s "{" then Err (GoError "unexpected end of JSON input")
    else Ok (Some (AString s));
  form_Encode _ := Ok "";
  FormDataContentType (b : @MW types) := "multipart/form-data; boundary=" +:+ b;
  CanonicalMIMEHeaderKey k := k;
  cookie_pair c := Name c +:+ "=" +:+ Value c;
  url_Parse s := Ok (mkURL "" "" s "");
  url_String u := Scheme u +:+ "://" +:+ Host u +:+ Path u;
  url_Hostname u := Host u;
  url_Query _ := ∅;
  values_Encode _ := "";
  path_Join a b := a +:+ b;
  http_NewRequestWithContext m u b := Ok (mkRequest m (mkURL "https" "api.example.com" u "") ∅ "" b);
  httptest_NewRequest m p b := Some (mkRequest m (mkURL "" "example.com" p "") ∅ "example.com" b);
  DefaultTransport_Clone := None;
  x509_SystemCertPool _ := Ok [];
  x509_NewCertPool := [];
  AppendCertsFromPEM (pool : @CertPool types) pem :=
    (pool ++ [pem], negb (String.eqb pem "not a certificate"));
  tls_X509KeyPair c k := Ok (c, k);
  client_Do _ _ w := (Err (GoError "connection refused"), w);
  net_LookupIP domain _ := lookup domain;
  IsLoopback (ip : @IP types) := ip;
  time_Now (w : @W types) := w;
  res_Cookies _ := [];
  encodeMultipart_parts _ _ := Err (GoError "invalid body");
  fmt_v _ := "";
|}.

Definition operator_ops : @OperatorOps types := {|
  op_root _ := "/";
  op_store_cookies (o : @Op types) := o;
  captureHTTPRequest _ _ o := o;
  captureHTTPResponse _ _ o := o;
  Debugf _ o := o;
  recordToCookie _ o := o;
  record _ o := o;
|}.

(** a session cookie for every path, and one that expired at instant 5 *)
Definition sid : Cookie := mkCookie "sid" "42" "" "" 0.
Definition old : Cookie := mkCookie "old" "1" "" "" 5.

(** a jar with cookies stored under [localhost:8080] *)
Definition jar_localhost : gmap string (gmap string Cookie) :=
  {[ "localhost:8080" := {[ "sid" := sid ]} ]}.

(** a jar with cookies stored under [example.com] *)
Definition jar_example : gmap string (gmap string Cookie) :=
  {[ "example.com" := {[ "sid" := sid; "old" := old ]} ]}.

(** a request that opts in to cookies, and a request to [host] *)
Definition with_cookies : @httpRequest types :=
  mkHTTPRequest "/users" "GET" ∅ "" None (Some true) None "" "".

Definition request_to (host : string) : Request :=
  mkRequest "GET" (mkURL "https" host "/users" "") ∅ host None.

(** a validator that accepts everything ([newNopValidator]) *)
Definition nop_validator : httpValidator :=
  mkValidator (λ _, None) (λ _ _, None).

(** a handler that answers every request with status 500 and a JSON body *)
Definition failing_handler (req : Request) (w : Z) : Response * Z :=
  (mkResponse 500 {[ "Content-Type" := ["application/json"] ]} (Ok "[1]"), w).

(** the same with a body that is not JSON *)
Definition garbled_handler (req : Request) (w : Z) : Response * Z :=
  (mkResponse 200 {[ "Content-Type" := ["application/json"] ]} (Ok "{"), w).

Definition handler_runner (h : Request → Z → Response * Z) : @httpRunner types :=
  mkRunner (T := types) "req" None None (Some h) nop_validator "" "" "" "" false None.

(** a runner whose client cannot connect *)
Definition client_runner : @httpRunner types :=
  mkRunner (T := types) "req" (Some (mkURL "https" "api.example.com" "" ""))
    (Some (mkClient None)) None
    nop_validator "" "" "" "" false None.

Definition get_users : @httpRequest types :=
  mkHTTPRequest "/users" "GET" ∅ "" None None None "" "".

(** the request the handler runner builds for [get_users] *)
Definition sent : Request :=
  mkRequest "GET" (mkURL "" "example.com" "/users" "") ∅ "example.com" None.

(** capturers that scribble on the operator they are given *)
Definition scribbling_ops : @OperatorOps types := {|
  op_root _ := "/";
  op_store_cookies (o : @Op types) := o;
  captureHTTPRequest _ _ _ := jar_example;
  captureHTTPResponse _ _ _ := jar_localhost;
  Debugf _ o := o;
  recordToCookie _ o := o;
  record _ o := o;
|}.

End HttpFixture.

Module LoopFixture.
Import Loop.

(** A counting stub: the k-th call returns k-1; delays are never
    cancelled. *)
Definition counting : Wrapped nat nat :=
  mkWrapped (λ _ n, (Ok n, S n)) (λ _ n, (None, n)).

(** [loop: count: 3] of the book [loop.yml] *)
Definition simple_loop : LoopSpec nat := mkLoopSpec 3 0 None.

End LoopFixture.

(** ** More of path.go *)
Module PathMore.
Import GoStrings Path.

(** whether the byte [c] occurs in [s] *)
Fixpoint has_byte (c : Ascii.ascii) (s : string) : bool :=
  match s with
  | EmptyString => false
  | String d s' => Ascii.eqb d c || has_byte c s'
  end.

Section WithEnv.
Context {W FS URL : Type} {E : PathEnv W FS URL}.

(** [os.IsNotExist], on an error that is not nil; [os.IsNotExist(nil)] is
    false. *)
Variable IsNotExist : goerror -> bool.

(** [fileExists] *)
Definition fileExists (path : string) (w : W) : bool :=
  let err := os_Stat path w in
  if match err with Some e => IsNotExist e | None => false end then false
  else match err with None => true | Some _ => false end.

(** What [readFileViaGitHub] asks of a [*ghfs.FS]: [gfs.Open(p)] and
    [io.ReadAll] of the file. *)
Variable gfs_ReadAll : FS -> string -> W -> result string * W.

(** [readFileViaGitHub], written from lines 301-319. *)
Definition readFileViaGitHub_body (urlstr : string) (w : W) : result string * W :=
  match Split (TrimPrefix urlstr prefixGitHub) "/"%char with
  | owner :: repo :: rest =>
      match ghfs_New owner repo w with
      | Err e => (Err e, w)
      | Ok gfs => gfs_ReadAll gfs (String.concat "/" rest) w
      end
  | _ => (Err (GoError ("invalid url: " +:+ urlstr)), w)
  end.

(** an entry of the path list that names one local file: no scheme, no
    wildcard *)
Definition local_file (pp : string) : Prop :=
  HasPrefix (doublestar_SplitPattern pp).1 prefixHttps = false
  ∧ HasPrefix (doublestar_SplitPattern pp).1 prefixGitHub = false
  ∧ Contains (doublestar_SplitPattern pp).2 "*" = false.

End WithEnv.

(** An entry of a path list: a scheme prefix ([""], ["https://"] or
    ["github://"]) and the rest of the entry. *)
Inductive scheme : Type := NoScheme | Https | GitHub.

Definition scheme_prefix (s : scheme) : string :=
  match s with NoScheme => "" | Https => prefixHttps | GitHub => prefixGitHub end.

Definition scheme_key (s : scheme) : string :=
  match s with NoScheme => "" | Https => repKey_https | GitHub => repKey_github end.

Definition entry_string (e : scheme * string) : string := scheme_prefix e.1 +:+ e.2.

(** an entry that [splitList] can bring back: its rest has no [':'] and
    neither of the two replacement keys, and without a scheme it does not
    start with ["//"] *)
Definition plain_entry (e : scheme * string) : Prop :=
  has_byte ":"%char e.2 = false
  ∧ Contains e.2 repKey_https = false
  ∧ Contains e.2 repKey_github = false
  ∧ (e.1 = NoScheme → HasPrefix e.2 "//" = false).

(** [strings.Join(elems, ":")] *)
Definition join_list (elems : list string) : string := String.concat ":" elems.

(** the two replacers of [splitList] *)
Abbreviation rep := (Replace2_go prefixHttps repKey_https prefixGitHub repKey_github 0).
Abbreviation per := (Replace2_go repKey_https prefixHttps repKey_github prefixGitHub 0).

(** an entry with its scheme replaced by the key [splitList] uses for it *)
Definition keyed_string (e : scheme * string) : string := scheme_key e.1 +:+ e.2.

(** what may follow the rest of an entry in a path list: nothing, or a
    [':'] and something that does not start with ["//"] *)
Definition follows (t : string) : Prop :=
  t = "" ∨ ∃ t', t = String ":" t' ∧ HasPrefix t' "//" = false.

End PathMore.

(** ** More of http.go *)
Module HttpMore.
Import GoStrings Http.

Section WithEnv.
Context {T : HttpTypes} {E : HttpEnv}.

(** [newHTTPRunnerWithHandler]; it has no error to return.  The validator
    is what [newNopValidator], whose code is elsewhere, gives. *)
Definition newHTTPRunnerWithHandler (newNopValidator : httpValidator)
    (name : string) (h : Request → W → Response * W) : httpRunner :=
  mkRunner name None None (Some h) newNopValidator "" "" "" "" false None.

(** The cookie [Run] stores for a cookie of the response, lines 783-786. *)
Definition stored_cookie (endpoint : option URL) (c : Cookie) : Cookie :=
  match endpoint with
  | Some ep => if String.eqb (Domain c) "" then set_Domain c (Host ep) else c
  | None => c
  end.

(** The TLS configuration the set-up of [Run] starts from: that of the
    client's [*http.Transport], or of the clone of the default transport
    when the client has no transport; an empty one if that is nil. *)
Definition tls_before (cl : httpClient) : tlsConfig :=
  default (mkTLS false None [])
    match Transport cl with
    | None => DefaultTransport_Clone
    | Some (HTTPTransport c) => c
    | Some (OtherRoundTripper _) => None
    end.

(** The value of the Cookie header once the pairs [pairs] have been added
    to a header that held [old]: [AddCookie] joins with ["; "]. *)
Definition cookie_header (old : string) (pairs : list string) : string :=
  String.concat "; " ((if String.eqb old "" then [] else [old]) ++ pairs).

(** the calls on the backend: [client.Do] and [handler.ServeHTTP] *)
Definition backend_event (ev : event) : bool :=
  match ev with
  | EvClientDo _ _ | EvServeHTTP _ _ => true
  | _ => false
  end.

End WithEnv.
End HttpMore.

Module HttpMoreFixture.
Import GoStrings Http HttpFixture.

(** The sample collaborators of [HttpFixture], with a response that sets
    two cookies named [sid] when its status is 200: the first without a
    Domain, the second with one. *)
Definition env_cookies : @HttpEnv types := {|
  json_Marshal := @json_Marshal types env;
  json_Unmarshal := @json_Unmarshal types env;
  form_Encode := @form_Encode types env;
  FormDataContentType := @FormDataContentType types env;
  CanonicalMIMEHeaderKey := @CanonicalMIMEHeaderKey types env;
  cookie_pair := @cookie_pair types env;
  url_Parse := @url_Parse types env;
  url_String := @url_String types env;
  url_Hostname := @url_Hostname types env;
  url_Query := @url_Query types env;
  values_Encode := @values_Encode types env;
  path_Join := @path_Join types env;
  http_NewRequestWithContext := @http_NewRequestWithContext types env;
  httptest_NewRequest := @httptest_NewRequest types env;
  DefaultTransport_Clone := @DefaultTransport_Clone types env;
  x509_SystemCertPool := @x509_SystemCertPool types env;
  x509_NewCertPool := @x509_NewCertPool types env;
  AppendCertsFromPEM := @AppendCertsFromPEM types env;
  tls_X509KeyPair := @tls_X509KeyPair types env;
  client_Do := @client_Do types env;
  net_LookupIP := @net_LookupIP types env;
  IsLoopback := @IsLoopback types env;
  time_Now := @time_Now types env;
  res_Cookies res :=
    if (StatusCode res =? 200)%Z
    then [mkCookie "sid" "1" "" "" 0; mkCookie "sid" "2" "" "example.org" 0]
    else [];
  encodeMultipart_parts := @encodeMultipart_parts types env;
  fmt_v := @fmt_v types env;
|}.

(** a handler that answers every request with status 200 and no body *)
Definition ok_handler (req : Request) (w : Z) : Response * Z :=
  (mkResponse 200 ∅ (Ok ""), w).

(** a runner with a handler and an endpoint *)
Definition endpoint_runner : @httpRunner types :=
  mkRunner (T := types) "req" (Some (mkURL "https" "api.example.com" "" ""))
    None (Some ok_handler) nop_validator "" "" "" "" false None.

(** what [endpoint_runner] records for [get_users] *)
Definition recorded_sample : Recorded :=
  match last (s_trace (Run (T := types) (E := env_cookies) (O := operator_ops)
                         endpoint_runner ∅ get_users 0%Z).2) with
  | Some (EvRecord v) => v
  | _ => ∅
  end.

(** a runner whose [cacert] is no certificate *)
Definition cacert_runner : @httpRunner types :=
  mkRunner (T := types) "req" (Some (mkURL "https" "api.example.com" "" ""))
    (Some (mkClient None)) None nop_validator "" "not a certificate" "" "" false None.

(** a GET request with a body and no mediaType *)
Definition get_with_body : @httpRequest types :=
  mkHTTPRequest "/users" "GET" ∅ "" (Some (AString "hello")) None None "" "".

(** a GET request announced as multipart, without a body *)
Definition get_multipart : @httpRequest types :=
  mkHTTPRequest "/users" "GET" ∅ "multipart/form-data" None None None "" "".

(** a request with headers of its own *)
Definition get_with_headers : @httpRequest types :=
  mkHTTPRequest "/users" "GET" {[ "Host" := "internal.example.com"; "Cookie" := "a=b" ]}
    "" None None None "" "".

End HttpMoreFixture.


(** * Properties *)

(** ** path.go *)
Module PathProps.
Import GoStrings Path PathSpec.

Lemma unique_loop_spec (inp u : list string) (m : gset string) :
  (∀ x, x ∈ m ↔ x ∈ u) →
  unique_loop inp u m = u ++ filter (λ y, y ∉ u) (first_occurrences inp).
Proof.
  revert u m. induction inp as [|s rest IH]; intros u m Hm; simpl.
  - by rewrite app_nil_r.
  - destruct (decide (s ∈ m)) as [Hs|Hs].
    + rewrite (IH u m Hm). f_equal.
      rewrite filter_cons_False by (intros Hn; apply Hn, Hm, Hs).
      rewrite list_filter_filter. apply list_filter_iff.
      intros y; split; [|tauto]. intros Hy; split; [done|].
      intros ->. apply Hy, Hm, Hs.
    + rewrite (IH (u ++ [s]) ({[s]} ∪ m)).
      * rewrite filter_cons_True by (intros Hn; apply Hs, Hm, Hn).
        rewrite <- app_assoc. simpl. do 2 f_equal.
        rewrite list_filter_filter. apply list_filter_iff.
        intros y. rewrite elem_of_app, list_elem_of_singleton. tauto.
      * intros x. rewrite elem_of_union, elem_of_singleton, elem_of_app,
          list_elem_of_singleton, Hm. tauto.
Qed.

(** [unique] keeps exactly the first occurrences. *)
Lemma unique_first_occurrences (inp : list string) :
  unique inp = first_occurrences inp.
Proof.
  unfold unique. rewrite (unique_loop_spec inp [] ∅).
  - simpl. induction (first_occurrences inp) as [|x l IH]; [done|].
    rewrite filter_cons_True by apply not_elem_of_nil. by rewrite IH.
  - intros x. rewrite elem_of_empty, elem_of_nil. tauto.
Qed.

Lemma first_occurrences_elem (l : list string) (x : string) :
  x ∈ first_occurrences l ↔ x ∈ l.
Proof.
  induction l as [|y l IH]; simpl; [done|].
  rewrite !elem_of_cons, list_elem_of_filter, IH.
  destruct (decide (x = y)); tauto.
Qed.

Lemma first_occurrences_NoDup (l : list string) : NoDup (first_occurrences l).
Proof.
  induction l as [|y l IH]; simpl; [constructor|].
  constructor.
  - rewrite list_elem_of_filter. tauto.
  - by apply NoDup_filter.
Qed.

(** Positions in a filtered list come from positions of the list, in the
    same order. *)
Lemma filter_lookup_order (P : string → Prop) `{!∀ x, Decision (P x)}
    (l : list string) (i j : nat) (x y : string) :
  filter P l !! i = Some x → filter P l !! j = Some y → i < j →
  ∃ i' j', l !! i' = Some x ∧ l !! j' = Some y ∧ i' < j'.
Proof.
  revert i j. induction l as [|z l IH]; intros i j Hi Hj Hlt; [done|].
  rewrite filter_cons in Hi, Hj. destruct (decide (P z)).
  - destruct i as [|i]; destruct j as [|j]; try lia; simpl in *.
    + assert (y ∈ l) as Hy.
      { eapply list_elem_of_filter. eapply list_elem_of_lookup_2. exact Hj. }
      apply list_elem_of_lookup_1 in Hy as [j' Hj'].
      exists 0, (S j'). simpl. split_and!; [done|done|lia].
    + destruct (IH i j Hi Hj ltac:(lia)) as (i' & j' & ? & ? & ?).
      exists (S i'), (S j'). simpl. split_and!; [done|done|lia].
  - destruct (IH i j Hi Hj Hlt) as (i' & j' & ? & ? & ?).
    exists (S i'), (S j'). simpl. split_and!; [done|done|lia].
Qed.

Lemma first_index_elem (x : string) (l : list string) :
  x ∈ l → ∃ a, first_index x l = Some a ∧ l !! a = Some x.
Proof.
  induction l as [|y l IH]; intros Hx; [by apply elem_of_nil in Hx|].
  simpl. destruct (decide (y = x)) as [->|Hne]; [by exists 0|].
  apply elem_of_cons in Hx as [->|Hx]; [done|].
  destruct (IH Hx) as (a & -> & Ha). by exists (S a).
Qed.

(** In [first_occurrences l] the strings stand in the order of their first
    occurrences in [l]. *)
Lemma first_occurrences_order (l : list string) (i j : nat) (x y : string) :
  first_occurrences l !! i = Some x → first_occurrences l !! j = Some y → i < j →
  ∃ a b, first_index x l = Some a ∧ first_index y l = Some b ∧ a < b.
Proof.
  revert i j. induction l as [|z l IH]; intros i j Hi Hj Hlt; [done|].
  simpl in Hi, Hj. destruct j as [|j]; [lia|]. simpl in Hj.
  assert (y ≠ z ∧ y ∈ first_occurrences l) as [Hyz Hy].
  { apply list_elem_of_lookup_2 in Hj. apply list_elem_of_filter in Hj. done. }
  destruct i as [|i]; simpl in Hi.
  - injection Hi as ->. simpl. rewrite decide_True by done.
    rewrite decide_False by done.
    apply first_occurrences_elem, first_index_elem in Hy as (b & -> & _).
    exists 0, (S b). simpl. split_and!; [done|done|lia].
  - assert (x ≠ z) as Hxz.
    { apply list_elem_of_lookup_2 in Hi. apply list_elem_of_filter in Hi. tauto. }
    destruct (filter_lookup_order _ _ _ _ _ _ Hi Hj ltac:(lia)) as (i' & j' & Hi' & Hj' & Hlt').
    destruct (IH i' j' Hi' Hj' Hlt') as (a & b & Ha & Hb & Hab).
    exists (S a), (S b). simpl. rewrite !decide_False by done.
    rewrite Ha, Hb. simpl. split_and!; [done|done|lia].
Qed.

Section WithEnv.
Context {W FS URL : Type} {E : PathEnv W FS URL}.

(** C8.  Whenever [fetchPaths] returns a list, that list is [unique] of
    the paths collected over the entries of the path list: it has no
    duplicate, holds exactly the collected paths, and lists them in the
    order of their first occurrences. *)
Theorem fetchPaths_no_duplicates (pathp : string) (st st' : pstate W) (paths : list string) :
  fetchPaths pathp st = (Ok paths, st') →
  ∃ collected,
    fetchPaths_loop (splitList pathp) [] st = (Ok collected, st') ∧
    paths = first_occurrences collected ∧
    NoDup paths ∧
    (∀ x, x ∈ paths ↔ x ∈ collected) ∧
    (∀ i j x y, paths !! i = Some x → paths !! j = Some y → i < j →
       ∃ a b, first_index x collected = Some a ∧
              first_index y collected = Some b ∧ a < b).
Proof.
  unfold fetchPaths. intros Hf.
  destruct (fetchPaths_loop (splitList pathp) [] st) as [[collected|e] st1] eqn:Eloop;
    [|discriminate].
  injection Hf as <- <-. exists collected.
  rewrite unique_first_occurrences. split_and!; [done|done|..].
  - apply first_occurrences_NoDup.
  - apply first_occurrences_elem.
  - apply first_occurrences_order.
Qed.

(** C9.  [fetchPath] fails exactly when [fetchPaths] fails, finds no
    path or finds more than one; otherwise it returns the one path
    found. *)
Theorem fetchPath_one_path (path : string) (st : pstate W) :
  (fetchPath path st).1 =
    match (fetchPaths path st).1 with
    | Err e => Err e
    | Ok [] => Err (GoError "path not found")
    | Ok [p] => Ok p
    | Ok (_ :: _ :: _) => Err (GoError "multiple paths found")
    end
  ∧ (fetchPath path st).2 = (fetchPaths path st).2
  ∧ (is_Err (fetchPath path st).1 = true ↔
       is_Err (fetchPaths path st).1 = true
       ∨ (fetchPaths path st).1 = Ok []
       ∨ ∃ paths, (fetchPaths path st).1 = Ok paths ∧ 1 < length paths).
Proof.
  unfold fetchPath.
  destruct (fetchPaths path st) as [[paths|e] st1]; simpl.
  - destruct paths as [|p [|q paths]]; simpl; split_and!; try done.
    + split; [naive_solver|done].
    + split; [done|]. intros [?|[?|(ps & [= <-] & Hl)]]; try done. simpl in Hl. lia.
    + split; [|done]. intros _. right; right. eexists; split; [done|simpl; lia].
  - split_and!; try done. split; [naive_solver|done].
Qed.


End WithEnv.

Lemma fetchPaths_no_duplicates_witness :
  fetchPaths (E := PathFixture.env) "b.yml:a.yml:c.yml:b.yml" (mkPState "" PathFixture.disk)
    = (Ok ["b.yml"; "a.yml"], mkPState "" PathFixture.disk)
  ∧ ∃ collected,
      fetchPaths_loop (E := PathFixture.env)
        (splitList "b.yml:a.yml:c.yml:b.yml") [] (mkPState "" PathFixture.disk)
        = (Ok collected, mkPState "" PathFixture.disk) ∧
      ["b.yml"; "a.yml"] = first_occurrences collected ∧
      NoDup ["b.yml"; "a.yml"] ∧
      (∀ x, x ∈ ["b.yml"; "a.yml"] ↔ x ∈ collected) ∧
      (∀ i j x y, ["b.yml"; "a.yml"] !! i = Some x → ["b.yml"; "a.yml"] !! j = Some y → i < j →
         ∃ a b, first_index x collected = Some a ∧
                first_index y collected = Some b ∧ a < b).
Proof.
  split; [vm_compute; reflexivity|].
  apply (fetchPaths_no_duplicates (E := PathFixture.env)).
  vm_compute; reflexivity.
Defined.



End PathProps.

(** ** Strings *)
Module StringProps.
Import GoStrings.

Lemma HasPrefix_spec (s pre : string) :
  HasPrefix s pre = true ↔ ∃ t, s = pre +:+ t.
Proof.
  unfold HasPrefix. revert s. induction pre as [|c pre IH]; intros s.
  - split; [intros _; by exists s|]. intros _. by destruct s.
  - destruct s as [|d s]; simpl.
    + split; [done|]. intros [t Ht]. discriminate.
    + destruct (Ascii.ascii_dec c d) as [->|Hne].
      * rewrite IH. split; intros [t Ht]; exists t; [by rewrite Ht|by injection Ht].
      * split; [done|]. intros [t Ht]. injection Ht as -> _. done.
Qed.

Lemma substring_all (s : string) : String.substring 0 (String.length s) s = s.
Proof. induction s as [|c s IH]; simpl; [done|]. by rewrite IH. Qed.

Lemma substring_app_r (pre suf : string) :
  String.substring (String.length pre) (String.length suf) (pre +:+ suf) = suf.
Proof. induction pre as [|c pre IH]; simpl; [apply substring_all|done]. Qed.

Lemma substring_split (s : string) (n : nat) :
  n ≤ String.length s →
  s = String.substring 0 n s +:+ String.substring n (String.length s - n) s.
Proof.
  revert n. induction s as [|c s IH]; intros n Hn; simpl in *.
  - by destruct n.
  - destruct n as [|n]; simpl.
    + by rewrite substring_all.
    + rewrite (IH n) at 1 by lia. reflexivity.
Qed.

Lemma length_app (s t : string) :
  String.length (s +:+ t) = String.length s + String.length t.
Proof. induction s as [|c s IH]; simpl; [done|]. by rewrite IH. Qed.

(** [HasSuffix s suf] holds exactly when [s] ends with [suf]. *)
Lemma HasSuffix_spec (s suf : string) :
  HasSuffix s suf = true ↔ ∃ pre, s = pre +:+ suf.
Proof.
  unfold HasSuffix. rewrite andb_true_iff, Nat.leb_le, String.eqb_eq. split.
  - intros [Hlen Hsub].
    exists (String.substring 0 (String.length s - String.length suf) s).
    pose proof (substring_split s (String.length s - String.length suf)) as Hs.
    replace (String.length s - (String.length s - String.length suf))
      with (String.length suf) in Hs by lia.
    rewrite Hsub in Hs. apply Hs. lia.
  - intros [pre ->]. rewrite length_app. split; [lia|].
    replace (String.length pre + String.length suf - String.length suf)
      with (String.length pre) by lia.
    apply substring_app_r.
Qed.

Lemma eqb_true (s t : string) : String.eqb s t = true ↔ s = t.
Proof. apply String.eqb_eq. Qed.

Lemma eqb_false (s t : string) : String.eqb s t = false ↔ s ≠ t.
Proof. apply String.eqb_neq. Qed.

End StringProps.

(** ** http.go: validate and the cookie header *)
Module HttpProps.
Import GoStrings Http HttpSpec StringProps.

(** case analysis on the innermost scrutinee in the goal *)
Ltac run_step :=
  match goal with
  | |- context [match ?x with _ => _ end] =>
      lazymatch x with
      | context [match _ with _ => _ end] => fail
      | _ => destruct x eqn:?
      end
  end.

(** the response passed validation *)
Ltac val_ok :=
  first [ left; split; [eassumption | reflexivity]
        | right; eexists; split; [eassumption | reflexivity] ].

Lemma foldl_snoc_bind {A B : Type} (f : list B → A → list B) (g : A → list B) :
  (∀ acc x, f acc x = acc ++ g x) →
  ∀ l acc, foldl f acc l = acc ++ (l ≫= g).
Proof.
  intros Hf. induction l as [|x l IH]; intros acc; simpl.
  - by rewrite app_nil_r.
  - by rewrite IH, Hf, app_assoc.
Qed.

Lemma foldl_fusion {A X B : Type} (f : A → X → A) (g : X → list B) (add : A → B → A) :
  (∀ a x, f a x = foldl add a (g x)) →
  ∀ l a, foldl f a l = foldl add a (l ≫= g).
Proof.
  intros Hf. induction l as [|x l IH]; intros a; simpl; [done|].
  by rewrite foldl_app, IH, Hf.
Qed.

Section WithEnv.
Context {T : HttpTypes} {E : HttpEnv}.

(** C10.  [validate] returns an error exactly when the method is POST or
    PATCH and the mediaType is empty or the body is nil, or else when the
    mediaType is neither multipart/form-data (bare, or followed by
    ["; boundary=..."]) nor one of application/json, text/plain,
    application/x-www-form-urlencoded and the empty string. *)
Theorem validate_error_iff (r : httpRequest) :
  validate r ≠ None ↔
    ((r_method r = "POST" ∨ r_method r = "PATCH")
     ∧ (r_mediaType r = "" ∨ r_body r = None))
    ∨ (¬ (r_mediaType r = "multipart/form-data"
          ∨ ∃ b, r_mediaType r = "multipart/form-data; boundary=" +:+ b)
       ∧ ¬ (r_mediaType r = "application/json" ∨ r_mediaType r = "text/plain"
            ∨ r_mediaType r = "application/x-www-form-urlencoded"
            ∨ r_mediaType r = "")).
Proof.
  set (Pm := r_method r = "POST" ∨ r_method r = "PATCH").
  set (Pmulti := r_mediaType r = "multipart/form-data"
                 ∨ ∃ b, r_mediaType r = "multipart/form-data; boundary=" +:+ b).
  set (Psupp := r_mediaType r = "application/json" ∨ r_mediaType r = "text/plain"
                ∨ r_mediaType r = "application/x-www-form-urlencoded"
                ∨ r_mediaType r = "").
  assert (String.eqb (r_method r) MethodPost || String.eqb (r_method r) MethodPatch = true
          ↔ Pm) as Hm.
  { rewrite orb_true_iff, !eqb_true. done. }
  assert (isMultipartFormDataMediaType r = true ↔ Pmulti) as Hmulti.
  { unfold isMultipartFormDataMediaType, Pmulti.
    destruct (String.eqb (r_mediaType r) MediaTypeMultipartFormData) eqn:Eq.
    - apply eqb_true in Eq. split; [by left|done].
    - apply eqb_false in Eq. rewrite HasPrefix_spec. split; [by right|].
      intros [?|?]; done. }
  assert (String.eqb (r_mediaType r) MediaTypeApplicationJSON
          || String.eqb (r_mediaType r) MediaTypeTextPlain
          || String.eqb (r_mediaType r) MediaTypeApplicationFormUrlencoded
          || String.eqb (r_mediaType r) "" = true ↔ Psupp) as Hsupp.
  { rewrite !orb_true_iff, !eqb_true. unfold Psupp. tauto. }
  unfold validate.
  remember (String.eqb (r_method r) MethodPost || String.eqb (r_method r) MethodPatch)
    as bm eqn:Hbm in *.
  remember (String.eqb (r_mediaType r) MediaTypeApplicationJSON
            || String.eqb (r_mediaType r) MediaTypeTextPlain
            || String.eqb (r_mediaType r) MediaTypeApplicationFormUrlencoded
            || String.eqb (r_mediaType r) "") as bs eqn:Hbs in *.
  remember (isMultipartFormDataMediaType r) as bmu eqn:Hbmu in *.
  clear Hbm Hbs Hbmu.
  destruct (String.eqb (r_mediaType r) "") eqn:Ee;
    rewrite ?eqb_true, ?eqb_false in Ee;
    destruct bm, bs, bmu; try case_bool_decide; simpl;
    (split; [intros ?|intros ?; try done]); try done;
    intuition congruence.
Qed.

(** *** The cookie header *)

Lemma cookies_loop_fusion {A : Type} (add : A → string → string → Cookie → A)
    (domain path : string) (w : W) (cookies : Jar) (acc : A) :
  cookies_loop add domain path w cookies acc
  = foldl (λ a (t : string * string * Cookie), add a t.1.1 t.1.2 t.2) acc
      (map_to_list cookies ≫= entry_cookies domain path w).
Proof.
  unfold cookies_loop. apply foldl_fusion. intros a [host dc]. simpl.
  unfold entry_cookies, host_passes. simpl.
  destruct (String.eqb (strip_port host) "localhost").
  - destruct (isLocalhost domain w) as [l err].
    destruct l; simpl; [|done].
    destruct err; simpl; [done|].
    apply foldl_fusion. intros a' [k c]. unfold cookie_passes. simpl.
    destruct (String.eqb (cookie_Path c) "" || HasPrefix path (cookie_Path c)); [|done].
    by destruct ((Expires c =? 0)%Z || (time_Now w <? Expires c)%Z).
  - destruct (HasSuffix domain (strip_port host)); simpl; [|done].
    apply foldl_fusion. intros a' [k c]. unfold cookie_passes. simpl.
    destruct (String.eqb (cookie_Path c) "" || HasPrefix path (cookie_Path c)); [|done].
    by destruct ((Expires c =? 0)%Z || (time_Now w <? Expires c)%Z).
Qed.

Lemma attached_entries (r : httpRequest) (req : Request) (cookies : Jar) (w : W) :
  r_useCookie r = Some true →
  attached r req cookies w
  = map_to_list cookies ≫= entry_cookies (url_Hostname (req_URL req)) (Path (req_URL req)) w.
Proof.
  intros Hr. unfold attached. rewrite Hr, cookies_loop_fusion.
  rewrite (foldl_snoc_bind _ (λ t : string * string * Cookie, [(t.1.1, t.1.2, t.2)]))
    by done.
  simpl. generalize (map_to_list cookies ≫=
                entry_cookies (url_Hostname (req_URL req)) (Path (req_URL req)) w).
  intros l. induction l as [|[[h k] c] l IH]; [done|]. rewrite bind_cons, IH. done.
Qed.

(** [setCookieHeader] calls [AddCookie] on the cookies of [attached], in
    that order, and does nothing else; it has no error to return. *)
Lemma setCookieHeader_attached (r : httpRequest) (req : Request) (cookies : Jar) (w : W) :
  setCookieHeader r req cookies w
  = foldl (λ req (t : string * string * Cookie), AddCookie req t.2) req
      (attached r req cookies w).
Proof.
  unfold setCookieHeader. destruct (r_useCookie r) as [[|]|] eqn:Hr;
    [|by unfold attached; rewrite Hr..].
  by rewrite (attached_entries r req cookies w Hr), cookies_loop_fusion.
Qed.

(** Which cookies are attached: those of the jar whose entry passes the
    host test and which pass the path and expiry tests. *)
Lemma attached_iff (r : httpRequest) (req : Request) (cookies : Jar) (w : W)
    (host key : string) (c : Cookie) :
  r_useCookie r = Some true →
  (host, key, c) ∈ attached r req cookies w ↔
    (∃ dc, cookies !! host = Some dc ∧ dc !! key = Some c)
    ∧ host_passes (url_Hostname (req_URL req)) w host = true
    ∧ cookie_passes (Path (req_URL req)) w c = true.
Proof.
  intros Hr. rewrite (attached_entries r req cookies w Hr).
  rewrite list_elem_of_bind. split.
  - intros ([h dc] & Hin & Hjar). apply elem_of_map_to_list in Hjar.
    unfold entry_cookies in Hin. simpl in Hin.
    destruct (host_passes _ w h) eqn:Hh; [|by apply elem_of_nil in Hin].
    apply list_elem_of_bind in Hin as ([k c'] & Hin & Hdc).
    apply elem_of_map_to_list in Hdc. simpl in Hin.
    destruct (cookie_passes _ w c') eqn:Hc; [|by apply elem_of_nil in Hin].
    apply list_elem_of_singleton in Hin. injection Hin as -> -> ->.
    split_and!; [by exists dc|done|done].
  - intros ((dc & Hjar & Hdc) & Hh & Hc).
    exists (host, dc). split; [|by apply elem_of_map_to_list].
    unfold entry_cookies. simpl. rewrite Hh.
    apply list_elem_of_bind. exists (key, c). split; [|by apply elem_of_map_to_list].
    simpl. rewrite Hc. by apply list_elem_of_singleton.
Qed.

Lemma isLocalhost_true (domain : string) (w : W) :
  isLocalhost domain w = (true, None) ↔
    ∃ ips, net_LookupIP domain w = Ok ips ∧ ∃ ip, ip ∈ ips ∧ IsLoopback ip = true.
Proof.
  unfold isLocalhost. destruct (net_LookupIP domain w) as [ips|e].
  - destruct (existsb IsLoopback ips) eqn:Ex.
    + split; [intros _|done]. exists ips. split; [done|].
      apply existsb_exists in Ex as (ip & Hin & Hip).
      exists ip. by rewrite list_elem_of_In.
    + split; [done|]. intros (ips' & [= <-] & ip & Hin & Hip).
      assert (existsb IsLoopback ips = true); [|congruence].
      apply existsb_exists. exists ip. by rewrite <- list_elem_of_In.
  - split; [done|]. by intros (ips & ? & _).
Qed.

Lemma cookie_passes_iff (path : string) (w : W) (c : Cookie) :
  cookie_passes path w c = true ↔
    (cookie_Path c = "" ∨ HasPrefix path (cookie_Path c) = true)
    ∧ (Expires c = 0 ∨ time_Now w < Expires c)%Z.
Proof.
  unfold cookie_passes.
  rewrite andb_true_iff, !orb_true_iff, eqb_true, Z.eqb_eq, Z.ltb_lt. done.
Qed.

(** C2 (amended).  For a request that opts in to cookies and a cookie
    stored under a jar key whose host is not [localhost]:
    [setCookieHeader] passes the cookie to [AddCookie] exactly when the
    host, port stripped, is a suffix of the request's hostname, the
    cookie's path is empty or a prefix of the request's path, and the
    cookie has no expiry or expires after the current time.  What
    [setCookieHeader] returns is the request with those cookies added;
    there is no error it could return. *)
Theorem cookie_attached_iff (r : httpRequest) (req : Request) (cookies : Jar) (w : W)
    (host key : string) (c : Cookie) :
  r_useCookie r = Some true →
  strip_port host ≠ "localhost" →
  ((host, key, c) ∈ attached r req cookies w ↔
     (∃ dc, cookies !! host = Some dc ∧ dc !! key = Some c)
     ∧ HasSuffix (url_Hostname (req_URL req)) (strip_port host) = true
     ∧ (cookie_Path c = "" ∨ HasPrefix (Path (req_URL req)) (cookie_Path c) = true)
     ∧ (Expires c = 0 ∨ time_Now w < Expires c)%Z)
  ∧ setCookieHeader r req cookies w
    = foldl (λ req (t : string * string * Cookie), AddCookie req t.2) req
        (attached r req cookies w).
Proof.
  intros Hr Hh. split; [|apply setCookieHeader_attached].
  rewrite (attached_iff r req cookies w host key c Hr), cookie_passes_iff.
  unfold host_passes. apply eqb_false in Hh. rewrite Hh. tauto.
Qed.

(** C3.  For a request that opts in to cookies and a cookie stored under
    a jar key whose host is [localhost]: the cookie is passed to
    [AddCookie] only when the lookup of the request's hostname succeeds
    and gives a loopback address (and then exactly when the path and
    expiry tests pass); when the lookup fails or gives no loopback
    address the cookie is left out, whatever the suffix test would say. *)
Theorem localhost_cookie_iff (r : httpRequest) (req : Request) (cookies : Jar) (w : W)
    (host key : string) (c : Cookie) :
  r_useCookie r = Some true →
  strip_port host = "localhost" →
  ((host, key, c) ∈ attached r req cookies w ↔
     (∃ dc, cookies !! host = Some dc ∧ dc !! key = Some c)
     ∧ (∃ ips, net_LookupIP (url_Hostname (req_URL req)) w = Ok ips
               ∧ ∃ ip, ip ∈ ips ∧ IsLoopback ip = true)
     ∧ (cookie_Path c = "" ∨ HasPrefix (Path (req_URL req)) (cookie_Path c) = true)
     ∧ (Expires c = 0 ∨ time_Now w < Expires c)%Z)
  ∧ (is_Err (net_LookupIP (url_Hostname (req_URL req)) w) = true
     ∨ (∃ ips, net_LookupIP (url_Hostname (req_URL req)) w = Ok ips
               ∧ ∀ ip, ip ∈ ips → IsLoopback ip = false) →
     (host, key, c) ∉ attached r req cookies w).
Proof.
  intros Hr Hh.
  assert ((host, key, c) ∈ attached r req cookies w ↔
     (∃ dc, cookies !! host = Some dc ∧ dc !! key = Some c)
     ∧ (∃ ips, net_LookupIP (url_Hostname (req_URL req)) w = Ok ips
               ∧ ∃ ip, ip ∈ ips ∧ IsLoopback ip = true)
     ∧ (cookie_Path c = "" ∨ HasPrefix (Path (req_URL req)) (cookie_Path c) = true)
     ∧ (Expires c = 0 ∨ time_Now w < Expires c)%Z) as Hiff.
  { rewrite (attached_iff r req cookies w host key c Hr), cookie_passes_iff.
    rewrite <- isLocalhost_true.
    unfold host_passes. apply eqb_true in Hh. rewrite Hh.
    destruct (isLocalhost (url_Hostname (req_URL req)) w) as [[|] [e|]]; simpl;
      intuition congruence. }
  split; [exact Hiff|].
  intros Hno Hin. apply Hiff in Hin as (_ & (ips & Hips & ip & Hip & Hloop) & _).
  destruct Hno as [Herr|(ips' & Hips' & Hall)].
  - by rewrite Hips in Herr.
  - rewrite Hips in Hips'. injection Hips' as <-.
    specialize (Hall ip Hip). congruence.
Qed.

(** *** [Run], one part at a time *)

(** The TLS set-up changes nothing but [rnr.client], and leaves a client
    behind when it goes through. *)
Lemma Run_tls_client (w : W) (rnr rnr' : httpRunner) (out : unit + exit) :
  Run_tls w rnr = (out, rnr') →
  rnr' = set_rnr_client rnr (rnr_client rnr')
  ∧ (∀ u, out = inl u → rnr_client rnr' ≠ None)
  ∧ (out = inr (Return None) → rnr_client rnr ≠ None ∧ rnr_cacert rnr ≠ "").
Proof.
  unfold Run_tls, get_client, set_client, bind, get, put, deref, ret, panic, check, return_.
  destruct rnr as [nm ep cl h v mb ca ce ke sk uc]. simpl.
  repeat (run_step; simpl);
    intros Hrun; simplify_eq; simpl; split_and!; try done;
    try (intros; discriminate).
  all: intros _; split; [done|]; intros ->; done.
Qed.

End WithEnv.

Section WithOperator.
Context {T : HttpTypes} {E : HttpEnv} {O : OperatorOps}.

(** From the response on: the capturers are told first, and the rest is
    one of the cases of [after_response]. *)
Lemma Run_tail_case (req : Request) (res : Response) (s : rstate) :
  ∃ x rest,
    after_response (s_rnr s) req res x rest
    ∧ ((Run_tail req res s).1 = inr x ∨ ((Run_tail req res s).1 = inl tt ∧ x = Return None))
    ∧ s_trace (Run_tail req res s).2
      = s_trace s ++ [EvCaptureHTTPResponse (rnr_name (s_rnr s)) res] ++ rest
    ∧ s_rnr (Run_tail req res s).2 = s_rnr s
    ∧ s_world (Run_tail req res s).2 = s_world s.
Proof.
  unfold Run_tail, decode_body, bind, get_rnr, on_operator, check, ret, return_.
  destruct s as [rnr o w tr]. simpl.
  repeat (run_step; simpl); simplify_eq;
    (eexists _, _; split;
     [ first [ eapply ar_rejected; [eassumption | intros ? ?; discriminate]
             | eapply ar_unreadable; [val_ok | eassumption]
             | eapply ar_malformed; [val_ok | eassumption | eassumption | eassumption]
             | eapply ar_recorded;
               [ val_ok | eassumption
               | unfold decoded, is_json;
                 match goal with Hj : (_ && _) = _ |- _ => rewrite Hj end;
                 first [eassumption | reflexivity] ] ]
     | split; [first [left; reflexivity | right; split; reflexivity]|];
       split; [|split; reflexivity];
       unfold cookie_events, outcome_map, stored_cookies;
       try match goal with Hc : (0 <? length (res_Cookies _))%nat = _ |- _ => rewrite Hc end;
       simpl; rewrite <- ?app_assoc; reflexivity ]).
Qed.

(** [after_response] looks at the validator and the endpoint of the
    runner only, which the TLS set-up leaves alone. *)
Lemma after_response_client (rnr : httpRunner) (cl : option httpClient)
    (req : Request) (res : Response) (x : exit) (rest : list event) :
  after_response (set_rnr_client rnr cl) req res x rest →
  after_response rnr req res x rest.
Proof.
  intros Ha. inversion Ha; subst.
  - by apply ar_rejected.
  - by apply ar_unreadable.
  - by eapply ar_malformed.
  - by apply (ar_recorded rnr req res dbg resBody b).
Qed.

(** The client case: it leaves before the request is captured, at the
    request validation or at [client.Do], or hands over the response. *)
Lemma Run_client_case (r : httpRequest) (reqBody : option string) (s s' : rstate)
    (out : Request * Response + exit) :
  Run_client r reqBody s = (out, s') →
  s_trace s = [] →
  (∀ x, out = inr x → run_case (s_rnr s) x (s_trace s'))
  ∧ (∀ req res, out = inl (req, res) →
       ValidateRequest (rnr_validator (s_rnr s)) req = None
       ∧ s_trace s' = [EvCaptureHTTPRequest (rnr_name (s_rnr s)) req; EvClientDo req (Ok res)]
       ∧ s_rnr s' = set_rnr_client (s_rnr s) (rnr_client (s_rnr s'))).
Proof.
  unfold Run_client, get_client, bind, get_world, get_rnr, get_operator, on_rnr, lift,
    check, deref, ret, return_, panic, on_operator, check_err, backend, get.
  destruct s as [rnr o w tr]; simpl.
  destruct (Run_tls w rnr) as [tls rnr'] eqn:Htls.
  apply Run_tls_client in Htls as (Hr & Hok & Hnil).
  assert (rnr_name rnr' = rnr_name rnr) as Hname by (by rewrite Hr).
  assert (rnr_validator rnr' = rnr_validator rnr) as Hval by (by rewrite Hr).
  destruct tls as [[]|x0]; simpl.
  2: { intros [= <- <-] ->. simpl. split; [|done]. intros x [= <-].
       apply rc_unsent. destruct x0 as [[e|]|]; [by left| |by left].
       right. by apply Hnil. }
  specialize (Hok tt eq_refl).
  rewrite Hname, Hval. clear Hname Hval.
  repeat (run_step; simpl); intros Hrun Htr; simplify_eq; simpl;
    (split; [intros x [= <-] | intros req res [= <- <-]]);
    first [ by apply rc_request_rejected
          | by apply rc_transport
          | by split_and!
          | apply rc_unsent; left ].
  - done.
  - done.
  - intros ->.
    match goal with Hm : mergeURL _ _ = _ |- _ => revert Hm end.
    unfold mergeURL. repeat (run_step; simpl); intros; simplify_eq.
Qed.

(** The handler case: it leaves before the request is captured or at the
    request validation, or hands over the handler's response. *)
Lemma Run_handler_case (r : httpRequest) (reqBody : option string)
    (handler : Request → W → Response * W) (s s' : rstate)
    (out : Request * Response + exit) :
  Run_handler r reqBody handler s = (out, s') →
  s_trace s = [] →
  (∀ x, out = inr x → run_case (s_rnr s) x (s_trace s'))
  ∧ (∀ req res, out = inl (req, res) →
       ValidateRequest (rnr_validator (s_rnr s)) req = None
       ∧ s_trace s' = [EvCaptureHTTPRequest (rnr_name (s_rnr s)) req; EvServeHTTP req res]
       ∧ s_rnr s' = s_rnr s).
Proof.
  unfold Run_handler, bind, get_world, get_rnr, deref, ret, return_, panic,
    on_operator, check_err, backend.
  destruct s as [rnr o w tr]; simpl.
  repeat (run_step; simpl); intros Hrun Htr; simplify_eq; simpl;
    (split; [intros x [= <-] | intros req res [= <- <-]]);
    first [ by apply rc_request_rejected
          | by split_and!
          | by apply rc_unsent; left ].
Qed.

(** Every run of [Run] is one of the cases of [run_case]. *)
Lemma Run_cases (rnr : httpRunner) (o : Op) (r : httpRequest) (w : W) :
  run_case rnr (Run rnr o r w).1 (s_trace (Run rnr o r w).2).
Proof.
  unfold Run, Run_body, bind, get_rnr, get_operator, get_world, check, ret, return_.
  simpl.
  destruct (encodeBody _ w) as [[reqBody|e] r'] eqn:Henc; simpl;
    [|by apply rc_unsent; left].
  destruct (rnr_client rnr) as [cl|] eqn:Hcl; [|destruct (rnr_handler rnr) as [h|] eqn:Hh].
  - destruct (Run_client r' reqBody (mkRState rnr o w [])) as [out s1] eqn:Hc.
    apply Run_client_case in Hc as [Hexit Hgo]; [|done]. simpl in *.
    destruct out as [[req res]|x]; [|by apply Hexit].
    destruct (Hgo req res eq_refl) as (Hv & Htr & Hrnr).
    simpl. destruct (Run_tail_case req res s1) as (x & rest & Ha & Hout & Htr' & _).
    rewrite Hrnr in Ha. apply after_response_client in Ha.
    rewrite Htr, Hrnr in Htr'. simpl in Htr'.
    destruct (Run_tail req res s1) as [out2 s2]. simpl in *.
    destruct Hout as [-> | [-> ->]]; simpl; rewrite Htr';
      by apply (rc_client_response rnr req res).
  - destruct (Run_handler r' reqBody h (mkRState rnr o w [])) as [out s1] eqn:Hc.
    apply Run_handler_case in Hc as [Hexit Hgo]; [|done]. simpl in *.
    destruct out as [[req res]|x]; [|by apply Hexit].
    destruct (Hgo req res eq_refl) as (Hv & Htr & Hrnr).
    simpl. destruct (Run_tail_case req res s1) as (x & rest & Ha & Hout & Htr' & _).
    rewrite Hrnr in Ha. rewrite Htr, Hrnr in Htr'. simpl in Htr'.
    destruct (Run_tail req res s1) as [out2 s2]. simpl in *.
    destruct Hout as [-> | [-> ->]]; simpl; rewrite Htr';
      by apply (rc_handler_response rnr req res).
  - simpl. by apply rc_unsent; left.
Qed.
End WithOperator.

Section Independence.
Context {T : HttpTypes} {E : HttpEnv}.

(** *** [Run] does not depend on how the operator's methods are
    implemented: it never uses what they leave behind. *)

Lemma Run_tail_independent (O1 O2 : OperatorOps) (req : Request) (res : Response)
    (s1 s2 : rstate) :
  s_rnr s1 = s_rnr s2 → s_world s1 = s_world s2 → s_trace s1 = s_trace s2 →
  (Run_tail (O := O1) req res s1).1 = (Run_tail (O := O2) req res s2).1
  ∧ s_rnr (Run_tail (O := O1) req res s1).2 = s_rnr (Run_tail (O := O2) req res s2).2
  ∧ s_world (Run_tail (O := O1) req res s1).2 = s_world (Run_tail (O := O2) req res s2).2
  ∧ s_trace (Run_tail (O := O1) req res s1).2 = s_trace (Run_tail (O := O2) req res s2).2.
Proof.
  unfold Run_tail, decode_body, bind, get_rnr, on_operator, check, ret, return_.
  destruct s1 as [rnr1 o1 w1 tr1], s2 as [rnr2 o2 w2 tr2]; simpl.
  intros -> -> ->.
  repeat (run_step; simpl); done.
Qed.

Lemma Run_client_independent (O1 O2 : OperatorOps) (r : httpRequest)
    (reqBody : option string) (s1 s2 : rstate) :
  s_rnr s1 = s_rnr s2 → s_world s1 = s_world s2 → s_trace s1 = s_trace s2 →
  op_store_cookies (OperatorOps := O1) (s_operator s1)
    = op_store_cookies (OperatorOps := O2) (s_operator s2) →
  (Run_client (O := O1) r reqBody s1).1 = (Run_client (O := O2) r reqBody s2).1
  ∧ s_rnr (Run_client (O := O1) r reqBody s1).2 = s_rnr (Run_client (O := O2) r reqBody s2).2
  ∧ s_world (Run_client (O := O1) r reqBody s1).2
    = s_world (Run_client (O := O2) r reqBody s2).2
  ∧ s_trace (Run_client (O := O1) r reqBody s1).2
    = s_trace (Run_client (O := O2) r reqBody s2).2.
Proof.
  unfold Run_client, get_client, bind, get_world, get_rnr, get_operator, on_rnr, lift,
    check, deref, ret, return_, panic, on_operator, check_err, backend, get.
  destruct s1 as [rnr1 o1 w1 tr1], s2 as [rnr2 o2 w2 tr2]; simpl.
  intros -> -> -> Hjar.
  destruct (Run_tls w2 rnr2) as [[[]|x] rnr']; simpl; [|done].
  repeat (run_step; simpl; rewrite ?Hjar); done.
Qed.

Lemma Run_handler_independent (O1 O2 : OperatorOps) (r : httpRequest)
    (reqBody : option string) (h : Request → W → Response * W) (s1 s2 : rstate) :
  s_rnr s1 = s_rnr s2 → s_world s1 = s_world s2 → s_trace s1 = s_trace s2 →
  (Run_handler (O := O1) r reqBody h s1).1 = (Run_handler (O := O2) r reqBody h s2).1
  ∧ s_rnr (Run_handler (O := O1) r reqBody h s1).2
    = s_rnr (Run_handler (O := O2) r reqBody h s2).2
  ∧ s_world (Run_handler (O := O1) r reqBody h s1).2
    = s_world (Run_handler (O := O2) r reqBody h s2).2
  ∧ s_trace (Run_handler (O := O1) r reqBody h s1).2
    = s_trace (Run_handler (O := O2) r reqBody h s2).2.
Proof.
  unfold Run_handler, bind, get_world, get_rnr, deref, ret, return_, panic,
    on_operator, check_err, backend.
  destruct s1 as [rnr1 o1 w1 tr1], s2 as [rnr2 o2 w2 tr2]; simpl.
  intros -> -> ->.
  repeat (run_step; simpl); done.
Qed.

Lemma Run_independent (O1 O2 : OperatorOps) (rnr : httpRunner) (o1 o2 : Op)
    (r : httpRequest) (w : W) :
  op_root (OperatorOps := O1) o1 = op_root (OperatorOps := O2) o2 →
  op_store_cookies (OperatorOps := O1) o1 = op_store_cookies (OperatorOps := O2) o2 →
  (Run (O := O1) rnr o1 r w).1 = (Run (O := O2) rnr o2 r w).1
  ∧ s_rnr (Run (O := O1) rnr o1 r w).2 = s_rnr (Run (O := O2) rnr o2 r w).2
  ∧ s_world (Run (O := O1) rnr o1 r w).2 = s_world (Run (O := O2) rnr o2 r w).2
  ∧ s_trace (Run (O := O1) rnr o1 r w).2 = s_trace (Run (O := O2) rnr o2 r w).2.
Proof.
  intros Hroot Hjar.
  unfold Run, Run_body, bind, get_rnr, get_operator, get_world, check, ret, return_.
  simpl. rewrite Hroot.
  destruct (encodeBody _ w) as [[reqBody|e] r'] eqn:Henc; simpl; [|done].
  destruct (rnr_client rnr) as [cl|] eqn:Hcl; [|destruct (rnr_handler rnr) as [h|] eqn:Hh].
  - destruct (Run_client_independent O1 O2 r' reqBody
                (mkRState rnr o1 w []) (mkRState rnr o2 w []))
      as (H1 & H2 & H3 & H4); [done..|].
    destruct (Run_client (O := O1) r' reqBody (mkRState rnr o1 w [])) as [out1 s1].
    destruct (Run_client (O := O2) r' reqBody (mkRState rnr o2 w [])) as [out2 s2].
    simpl in *. subst out2. destruct out1 as [[req res]|x]; simpl; [|done].
    destruct (Run_tail_independent O1 O2 req res s1 s2) as (K1 & K2 & K3 & K4); [done..|].
    destruct (Run_tail (O := O1) req res s1) as [t1 u1].
    destruct (Run_tail (O := O2) req res s2) as [t2 u2].
    simpl in *. subst t2. by destruct t1.
  - destruct (Run_handler_independent O1 O2 r' reqBody h
                (mkRState rnr o1 w []) (mkRState rnr o2 w []))
      as (H1 & H2 & H3 & H4); [done..|].
    destruct (Run_handler (O := O1) r' reqBody h (mkRState rnr o1 w [])) as [out1 s1].
    destruct (Run_handler (O := O2) r' reqBody h (mkRState rnr o2 w [])) as [out2 s2].
    simpl in *. subst out2. destruct out1 as [[req res]|x]; simpl; [|done].
    destruct (Run_tail_independent O1 O2 req res s1 s2) as (K1 & K2 & K3 & K4); [done..|].
    destruct (Run_tail (O := O1) req res s1) as [t1 u1].
    destruct (Run_tail (O := O2) req res s2) as [t2 u2].
    simpl in *. subst t2. by destruct t1.
  - done.
Qed.

End Independence.

Section AboutRun.
Context {T : HttpTypes} {E : HttpEnv} {O : OperatorOps}.

Lemma validated_store_events (rnr : httpRunner) (req : Request) (res : Response)
    (dbg : list event) :
  validated rnr req res dbg → Forall (λ ev, store_event ev = true) dbg.
Proof.
  intros [[_ ->]|(msg & _ & ->)]; [constructor|]. by repeat constructor.
Qed.

Lemma validated_no_record (rnr : httpRunner) (req : Request) (res : Response)
    (dbg : list event) (v : Recorded) :
  validated rnr req res dbg → EvRecord v ∉ dbg.
Proof.
  intros [[_ ->]|(msg & _ & ->)]; [apply not_elem_of_nil|].
  intros Hin. apply list_elem_of_singleton in Hin. discriminate.
Qed.

Lemma cookie_events_no_record (rnr : httpRunner) (res : Response) (v : Recorded) :
  EvRecord v ∉ cookie_events rnr res.
Proof.
  unfold cookie_events. destruct (0 <? length (res_Cookies res))%nat;
    [|apply not_elem_of_nil].
  intros Hin. apply list_elem_of_singleton in Hin. discriminate.
Qed.

Lemma after_response_store_events (rnr : httpRunner) (req : Request) (res : Response)
    (x : exit) (rest : list event) :
  after_response rnr req res x rest → Forall (λ ev, store_event ev = true) rest.
Proof.
  intros Ha. inversion Ha; subst; [constructor|by eapply validated_store_events..|].
  rewrite !Forall_app. split_and!; [by eapply validated_store_events| |by repeat constructor].
  unfold cookie_events. destruct (0 <? length (res_Cookies res))%nat; by repeat constructor.
Qed.

(** The keys of the recorded map. *)
Lemma outcome_map_lookup (rnr : httpRunner) (res : Response) (resBody : string)
    (b : option goany) :
  outcome_map rnr res resBody b !! "status" = Some (SVInt (StatusCode res))
  ∧ outcome_map rnr res resBody b !! "headers" = Some (SVHeader (res_Header res))
  ∧ outcome_map rnr res resBody b !! "rawBody" = Some (SVString resBody)
  ∧ outcome_map rnr res resBody b !! "body" = Some (SVAny b).
Proof.
  unfold outcome_map, response_map, httpStoreCookieKey, httpStoreHeaderKey,
    httpStoreRawBodyKey, httpStoreBodyKey, httpStoreStatusKey.
  split_and!; by simplify_map_eq.
Qed.

(** A record among the calls made after the response: [Run] returned nil,
    and the record is the last call. *)
Lemma after_response_record (rnr : httpRunner) (req : Request) (res : Response)
    (x : exit) (rest : list event) (v : Recorded) :
  after_response rnr req res x rest →
  EvRecord v ∈ rest →
  x = Return None
  ∧ last rest = Some (EvRecord v)
  ∧ ∃ resBody b,
      res_Body res = Ok resBody ∧ decoded res resBody b
      ∧ v = {[ httpStoreResponseKey := outcome_map rnr res resBody b ]}.
Proof.
  intros Ha Hin. inversion Ha; subst.
  - by apply elem_of_nil in Hin.
  - by eapply validated_no_record in Hin.
  - by eapply validated_no_record in Hin.
  - rewrite !elem_of_app in Hin. destruct Hin as [Hin|[Hin|Hin]].
    + by eapply validated_no_record in Hin.
    + by eapply cookie_events_no_record in Hin.
    + apply list_elem_of_singleton in Hin. injection Hin as ->.
      split_and!; [done|by rewrite !app_assoc, last_snoc|by exists resBody, b].
Qed.

(** An error after the response: nothing is recorded, and the error is
    the response validator's, the body reader's or the JSON decoder's. *)
Lemma after_response_error (rnr : httpRunner) (req : Request) (res : Response)
    (e : goerror) (rest : list event) :
  after_response rnr req res (Return (Some e)) rest →
  (∀ v, EvRecord v ∉ rest)
  ∧ (ValidateResponse (rnr_validator rnr) req res = Some e
     ∨ res_Body res = Err e
     ∨ ∃ resBody, res_Body res = Ok resBody ∧ is_json res resBody = true
                  ∧ json_Unmarshal resBody = Err e).
Proof.
  intros Ha. inversion Ha; subst.
  - split; [intros v; apply not_elem_of_nil|by left].
  - split; [intros v; by eapply validated_no_record|by right; left].
  - split; [intros v; by eapply validated_no_record|]. right; right. by exists resBody.
Qed.

(** A response that passes validation, can be read and, where it is
    JSON, decodes: [Run] returns nil and records it. *)
Lemma after_response_recorded (rnr : httpRunner) (req : Request) (res : Response)
    (x : exit) (rest : list event) (resBody : string) :
  after_response rnr req res x rest →
  (ValidateResponse (rnr_validator rnr) req res = None
   ∨ ∃ msg, ValidateResponse (rnr_validator rnr) req res = Some (UnsupportedError msg)) →
  res_Body res = Ok resBody →
  (is_json res resBody = true → is_Err (json_Unmarshal resBody) = false) →
  x = Return None
  ∧ ∃ b, decoded res resBody b
         ∧ last rest = Some (EvRecord {[ httpStoreResponseKey := outcome_map rnr res resBody b ]}).
Proof.
  intros Ha Hval Hbody Hjson.
  inversion Ha as [e Hrej Hne | dbg e Hvd Hb | dbg body e Hvd Hb Hj Hu
                  | dbg body b Hvd Hb Hd]; subst.
  - destruct Hval as [Hv|[msg Hv]]; rewrite Hv in Hrej; [discriminate|].
    injection Hrej as <-. by destruct (Hne msg).
  - congruence.
  - rewrite Hbody in Hb. injection Hb as <-.
    specialize (Hjson Hj). by rewrite Hu in Hjson.
  - rewrite Hbody in Hb. injection Hb as <-. split; [done|]. exists b. split; [done|].
    by rewrite !app_assoc, last_snoc.
Qed.

Lemma store_events_no_backend (rest : list event) (ev : event) :
  Forall (λ ev, store_event ev = true) rest → store_event ev = false → ev ∉ rest.
Proof.
  intros Hall Hev Hin. rewrite Forall_forall in Hall.
  specialize (Hall ev Hin). congruence.
Qed.

(** The response of the backend, when a call on it is among the calls
    made: the calls are the two notifications around that call, then
    those of [after_response]. *)
Lemma Run_response (rnr : httpRunner) (o : Op) (r : httpRequest) (w : W)
    (req : Request) (res : Response) :
  EvClientDo req (Ok res) ∈ s_trace (Run rnr o r w).2
  ∨ EvServeHTTP req res ∈ s_trace (Run rnr o r w).2 →
  ∃ bev rest,
    (bev = EvClientDo req (Ok res) ∨ bev = EvServeHTTP req res)
    ∧ s_trace (Run rnr o r w).2
      = EvCaptureHTTPRequest (rnr_name rnr) req :: bev
        :: EvCaptureHTTPResponse (rnr_name rnr) res :: rest
    ∧ ValidateRequest (rnr_validator rnr) req = None
    ∧ after_response rnr req res (Run rnr o r w).1 rest.
Proof.
  pose proof (Run_cases rnr o r w) as Hc.
  destruct (Run rnr o r w) as [x s]. simpl in *.
  inversion Hc as [x' Hx | req' e Hv | req' e Hv | req' res' x' rest Hv Ha
                  | req' res' x' rest Hv Ha]; subst; simpl.
  - intros [Hin|Hin]; by apply elem_of_nil in Hin.
  - intros [Hin|Hin]; apply list_elem_of_singleton in Hin; discriminate.
  - rewrite !elem_of_cons, !elem_of_nil. intuition discriminate.
  - pose proof (after_response_store_events _ _ _ _ _ Ha) as Hrest.
    rewrite !elem_of_cons. intros [[|[Heq|[|Hin]]]|[|[|[|Hin]]]]; try discriminate.
    + injection Heq as <- <-. exists (EvClientDo req (Ok res)), rest. by split_and!; [left|..].
    + by eapply store_events_no_backend in Hin.
    + by eapply store_events_no_backend in Hin.
  - pose proof (after_response_store_events _ _ _ _ _ Ha) as Hrest.
    rewrite !elem_of_cons. intros [[|[|[|Hin]]]|[|[Heq|[|Hin]]]]; try discriminate.
    + by eapply store_events_no_backend in Hin.
    + injection Heq as <- <-. exists (EvServeHTTP req res), rest. by split_and!; [right|..].
    + by eapply store_events_no_backend in Hin.
Qed.

(** A record among the calls made comes after a response of the
    backend. *)
Lemma Run_record (rnr : httpRunner) (o : Op) (r : httpRequest) (w : W) (v : Recorded) :
  EvRecord v ∈ s_trace (Run rnr o r w).2 →
  ∃ req res bev rest,
    (bev = EvClientDo req (Ok res) ∨ bev = EvServeHTTP req res)
    ∧ s_trace (Run rnr o r w).2
      = EvCaptureHTTPRequest (rnr_name rnr) req :: bev
        :: EvCaptureHTTPResponse (rnr_name rnr) res :: rest
    ∧ EvRecord v ∈ rest
    ∧ after_response rnr req res (Run rnr o r w).1 rest.
Proof.
  pose proof (Run_cases rnr o r w) as Hc.
  destruct (Run rnr o r w) as [x s]. simpl in *.
  inversion Hc as [x' Hx | req' e Hv | req' e Hv | req' res' x' rest Hv Ha
                  | req' res' x' rest Hv Ha]; subst; simpl.
  - intros Hin; by apply elem_of_nil in Hin.
  - intros Hin; apply list_elem_of_singleton in Hin; discriminate.
  - rewrite !elem_of_cons, !elem_of_nil. intuition discriminate.
  - rewrite !elem_of_cons. intros [|[|[|Hin]]]; try discriminate.
    exists req', res', (EvClientDo req' (Ok res')), rest. by split_and!; [left|..].
  - rewrite !elem_of_cons. intros [|[|[|Hin]]]; try discriminate.
    exists req', res', (EvServeHTTP req' res'), rest. by split_and!; [right|..].
Qed.


Lemma last_after (a b c : event) (rest : list event) (ev : event) :
  last rest = Some ev → last (a :: b :: c :: rest) = Some ev.
Proof. destruct rest as [|d rest]; [done|]. by rewrite !last_cons_cons. Qed.

(** C5.  A record is made only when [Run] returns nil, and is its last
    call; it is [{"res": d}] where, for the response [res] of the backend
    and the body [resBody] read from it, [d] holds the status code under
    ["status"], the headers under ["headers"], the body as a string
    under ["rawBody"], and under ["body"] the value decoded from the body
    when the Content-Type contains ["json"] and the body is not empty,
    nil otherwise.  Whenever [Run] returns nil after a response of the
    backend, such a record is made.  When the Content-Type contains
    ["json"], the body is not empty and does not decode, [Run] returns an
    error (the decoder's, if the validator accepted the response) and
    records nothing. *)
Theorem recorded_outcome (rnr : httpRunner) (o : Op) (r : httpRequest) (w : W) :
  (∀ v, EvRecord v ∈ s_trace (Run rnr o r w).2 →
     (Run rnr o r w).1 = Return None
     ∧ last (s_trace (Run rnr o r w).2) = Some (EvRecord v)
     ∧ ∃ req res resBody b d,
         (EvClientDo req (Ok res) ∈ s_trace (Run rnr o r w).2
          ∨ EvServeHTTP req res ∈ s_trace (Run rnr o r w).2)
         ∧ res_Body res = Ok resBody
         ∧ (if Contains (Header_Get (res_Header res) "Content-Type") "json"
               && (0 <? String.length resBody)%nat
            then json_Unmarshal resBody = Ok b else b = None)
         ∧ v = {[ "res" := d ]}
         ∧ d !! "status" = Some (SVInt (StatusCode res))
         ∧ d !! "headers" = Some (SVHeader (res_Header res))
         ∧ d !! "rawBody" = Some (SVString resBody)
         ∧ d !! "body" = Some (SVAny b))
  ∧ (∀ req res,
       EvClientDo req (Ok res) ∈ s_trace (Run rnr o r w).2
       ∨ EvServeHTTP req res ∈ s_trace (Run rnr o r w).2 →
       (Run rnr o r w).1 = Return None →
       ∃ v, last (s_trace (Run rnr o r w).2) = Some (EvRecord v))
  ∧ (∀ req res resBody e,
       EvClientDo req (Ok res) ∈ s_trace (Run rnr o r w).2
       ∨ EvServeHTTP req res ∈ s_trace (Run rnr o r w).2 →
       res_Body res = Ok resBody →
       Contains (Header_Get (res_Header res) "Content-Type") "json" = true →
       (0 <? String.length resBody)%nat = true →
       json_Unmarshal resBody = Err e →
       (∃ e', (Run rnr o r w).1 = Return (Some e'))
       ∧ (∀ v, EvRecord v ∉ s_trace (Run rnr o r w).2)
       ∧ (ValidateResponse (rnr_validator rnr) req res = None
          ∨ (∃ msg, ValidateResponse (rnr_validator rnr) req res
                    = Some (UnsupportedError msg)) →
          (Run rnr o r w).1 = Return (Some e))).
Proof.
  split_and!.
  - intros v Hin.
    destruct (Run_record rnr o r w v Hin) as (req & res & bev & rest & Hbev & Htr & Hrest & Ha).
    destruct (after_response_record _ _ _ _ _ _ Ha Hrest)
      as (Hx & Hlast & resBody & b & Hbody & Hdec & ->).
    split; [done|]. rewrite Htr. split; [by apply last_after|].
    exists req, res, resBody, b, (outcome_map rnr res resBody b).
    destruct (outcome_map_lookup rnr res resBody b) as (? & ? & ? & ?).
    split_and!; try done.
    destruct Hbev as [-> | ->]; [left|right]; rewrite !elem_of_cons; tauto.
  - intros req res Hin Hx.
    destruct (Run_response rnr o r w req res Hin) as (bev & rest & _ & Htr & _ & Ha).
    rewrite Hx in Ha. rewrite Htr.
    inversion Ha as [ | | | dbg resBody b Hvd Hb Hd]; subst.
    eexists. apply last_after. by rewrite !app_assoc, last_snoc.
  - intros req res resBody e Hin Hbody Hct Hlen Hjson.
    destruct (Run_response rnr o r w req res Hin) as (bev & rest & Hbev & Htr & _ & Ha).
    assert (is_json res resBody = true) as Hj by (unfold is_json; by rewrite Hct, Hlen).
    assert (∀ v, EvRecord v ≠ bev) as Hnb by (by intros v; destruct Hbev as [-> | ->]).
    rewrite Htr.
    inversion Ha as [e' Hrej Hne | dbg e' Hvd Hb | dbg body e' Hvd Hb Hj' Hu
                    | dbg body b Hvd Hb Hd]; subst.
    + split_and!; [by exists e'| |].
      * intros v. rewrite !elem_of_cons, elem_of_nil.
        intros [|[Hb|[|[]]]]; try discriminate. by apply Hnb in Hb.
      * intros [Hv|[msg Hv]]; rewrite Hv in Hrej; [discriminate Hrej|].
        injection Hrej as <-. by destruct (Hne msg).
    + congruence.
    + assert (e' = e) as -> by congruence.
      split_and!; [by exists e| |done].
      intros v. rewrite !elem_of_cons.
      intros [|[Hbe|[|Hv]]]; try discriminate; [by apply Hnb in Hbe|].
      by eapply validated_no_record in Hv.
    + rewrite Hbody in Hb. injection Hb as <-.
      unfold decoded in Hd. rewrite Hj in Hd. congruence.
Qed.

(** C1.  When [Run] returns an error, nothing is recorded, and the error
    arose in one of these ways: before the request was complete (the
    body, the TLS set-up, the URL or the request could not be built, or
    the runner has neither client nor handler); from the request
    validator; from [client.Do] (transport); or, with the response in
    hand, from the response validator, from reading the body
    (transport), or from decoding a body announced as JSON (malformed
    response).  The status code is not among them: whatever it is, a
    response that passes validation, can be read and, where announced as
    JSON, decodes, makes [Run] return nil with the response recorded
    under its status. *)
Theorem Run_error_only_on_failure (rnr : httpRunner) (o : Op) (r : httpRequest) (w : W) :
  (∀ e, (Run rnr o r w).1 = Return (Some e) →
     (∀ v, EvRecord v ∉ s_trace (Run rnr o r w).2)
     ∧ (s_trace (Run rnr o r w).2 = []
        ∨ (∃ req, s_trace (Run rnr o r w).2 = [EvCaptureHTTPRequest (rnr_name rnr) req]
                  ∧ ValidateRequest (rnr_validator rnr) req = Some e)
        ∨ (∃ req, s_trace (Run rnr o r w).2
                  = [EvCaptureHTTPRequest (rnr_name rnr) req; EvClientDo req (Err e)])
        ∨ (∃ req res bev dbg,
             s_trace (Run rnr o r w).2
             = EvCaptureHTTPRequest (rnr_name rnr) req :: bev
               :: EvCaptureHTTPResponse (rnr_name rnr) res :: dbg
             ∧ (bev = EvClientDo req (Ok res) ∨ bev = EvServeHTTP req res)
             ∧ (ValidateResponse (rnr_validator rnr) req res = Some e
                ∨ res_Body res = Err e
                ∨ ∃ resBody, res_Body res = Ok resBody
                             ∧ is_json res resBody = true
                             ∧ json_Unmarshal resBody = Err e))))
  ∧ (∀ req res resBody,
       EvClientDo req (Ok res) ∈ s_trace (Run rnr o r w).2
       ∨ EvServeHTTP req res ∈ s_trace (Run rnr o r w).2 →
       ValidateResponse (rnr_validator rnr) req res = None
       ∨ (∃ msg, ValidateResponse (rnr_validator rnr) req res = Some (UnsupportedError msg)) →
       res_Body res = Ok resBody →
       (is_json res resBody = true → is_Err (json_Unmarshal resBody) = false) →
       (Run rnr o r w).1 = Return None
       ∧ ∃ d, last (s_trace (Run rnr o r w).2) = Some (EvRecord {[ "res" := d ]})
              ∧ d !! "status" = Some (SVInt (StatusCode res))).
Proof.
  split.
  - intros e Hx. pose proof (Run_cases rnr o r w) as Hc. rewrite Hx in Hc.
    inversion Hc as [x' Hne | req e' Hv | req e' Hv | req res x' rest Hv Ha
                    | req res x' rest Hv Ha]; subst.
    + split; [intros v; apply not_elem_of_nil|by left].
    + split; [|right; left; by exists req].
      intros v Hin. apply list_elem_of_singleton in Hin. discriminate.
    + split; [|right; right; left; by exists req].
      intros v. rewrite !elem_of_cons, elem_of_nil. intuition discriminate.
    + destruct (after_response_error _ _ _ _ _ Ha) as [Hno Hcause]. split.
      * intros v. simpl. rewrite !elem_of_cons.
        intros [|[|[|Hin]]]; try discriminate. by apply Hno in Hin.
      * right; right; right. exists req, res, (EvClientDo req (Ok res)), rest.
        split_and!; [done|by left|done].
    + destruct (after_response_error _ _ _ _ _ Ha) as [Hno Hcause]. split.
      * intros v. simpl. rewrite !elem_of_cons.
        intros [|[|[|Hin]]]; try discriminate. by apply Hno in Hin.
      * right; right; right. exists req, res, (EvServeHTTP req res), rest.
        split_and!; [done|by right|done].
  - intros req res resBody Hin Hval Hbody Hjson.
    destruct (Run_response rnr o r w req res Hin) as (bev & rest & _ & Htr & _ & Ha).
    destruct (after_response_recorded _ _ _ _ _ _ Ha Hval Hbody Hjson)
      as (Hx & b & Hdec & Hlast).
    split; [done|]. exists (outcome_map rnr res resBody b).
    rewrite Htr. split; [by apply last_after|].
    by destruct (outcome_map_lookup rnr res resBody b) as (? & _).
Qed.
End AboutRun.

(** *** Sample runs *)
Import HttpFixture.

(** C2, as stated, fails for a cookie stored under [localhost]: it is
    attached to a request for [127.0.0.1], of which [localhost] is no
    suffix, and left out of a request for [nowhere.localhost], of which
    [localhost] is a suffix, although it has no path and no expiry. *)
Lemma localhost_cookie_ignores_suffix :
  ((("localhost:8080", "sid", sid)
      ∈ attached (T := types) (E := env) with_cookies (request_to "127.0.0.1")
          jar_localhost 10%Z)
   ∧ HasSuffix "127.0.0.1" (strip_port "localhost:8080") = false)
  ∧ ((("localhost:8080", "sid", sid)
        ∉ attached (T := types) (E := env) with_cookies (request_to "nowhere.localhost")
            jar_localhost 10%Z)
     ∧ HasSuffix "nowhere.localhost" (strip_port "localhost:8080") = true
     ∧ cookie_Path sid = "" ∧ Expires sid = 0%Z).
Proof.
  split.
  - split; [|reflexivity].
    assert (attached (T := types) (E := env) with_cookies (request_to "127.0.0.1")
              jar_localhost 10%Z = [("localhost:8080", "sid", sid)]) as ->
      by (vm_compute; reflexivity).
    by apply list_elem_of_singleton.
  - split_and!; [|reflexivity..].
    assert (attached (T := types) (E := env) with_cookies (request_to "nowhere.localhost")
              jar_localhost 10%Z = []) as -> by (vm_compute; reflexivity).
    apply not_elem_of_nil.
Qed.

Lemma cookie_attached_iff_witness :
  ("example.com", "sid", sid)
    ∈ attached (T := types) (E := env) with_cookies (request_to "api.example.com")
        jar_example 10%Z.
Proof.
  apply (cookie_attached_iff (T := types) (E := env) with_cookies
           (request_to "api.example.com") jar_example 10%Z "example.com" "sid" sid).
  - reflexivity.
  - vm_compute. intros Heq. discriminate Heq.
  - split_and!.
    + exists {[ "sid" := sid; "old" := old ]}. split; vm_compute; reflexivity.
    + vm_compute; reflexivity.
    + left; reflexivity.
    + left; reflexivity.
Defined.

Lemma localhost_cookie_iff_witness :
  ("localhost:8080", "sid", sid)
    ∉ attached (T := types) (E := env) with_cookies (request_to "nowhere.localhost")
        jar_localhost 10%Z.
Proof.
  apply (localhost_cookie_iff (T := types) (E := env) with_cookies
           (request_to "nowhere.localhost") jar_localhost 10%Z "localhost:8080" "sid" sid).
  - reflexivity.
  - vm_compute; reflexivity.
  - left. vm_compute; reflexivity.
Defined.

Lemma Run_error_only_on_failure_witness :
  (Run (T := types) (E := env) (O := operator_ops)
     (handler_runner failing_handler) ∅ get_users 0%Z).1 = Return None
  ∧ ∃ d, last (s_trace (Run (T := types) (E := env) (O := operator_ops)
                          (handler_runner failing_handler) ∅ get_users 0%Z).2)
         = Some (EvRecord {[ "res" := d ]})
         ∧ d !! "status" = Some (SVInt 500).
Proof.
  apply (proj2 (Run_error_only_on_failure (T := types) (E := env) (O := operator_ops)
                  (handler_runner failing_handler) ∅ get_users 0%Z)
           sent (failing_handler sent 0%Z).1 "[1]").
  - right. vm_compute. apply list_elem_of_further, list_elem_of_here.
  - left. reflexivity.
  - reflexivity.
  - intros _. reflexivity.
Defined.

Lemma recorded_outcome_witness :
  (∃ e', (Run (T := types) (E := env) (O := operator_ops)
            (handler_runner garbled_handler) ∅ get_users 0%Z).1 = Return (Some e'))
  ∧ (∀ v, EvRecord v ∉ s_trace (Run (T := types) (E := env) (O := operator_ops)
                                  (handler_runner garbled_handler) ∅ get_users 0%Z).2)
  ∧ (ValidateResponse nop_validator sent (garbled_handler sent 0%Z).1 = None
     ∨ (∃ msg, ValidateResponse nop_validator sent (garbled_handler sent 0%Z).1
               = Some (UnsupportedError msg)) →
     (Run (T := types) (E := env) (O := operator_ops)
        (handler_runner garbled_handler) ∅ get_users 0%Z).1
     = Return (Some (GoError "unexpected end of JSON input"))).
Proof.
  apply (proj2 (proj2 (recorded_outcome (T := types) (E := env) (O := operator_ops)
                         (handler_runner garbled_handler) ∅ get_users 0%Z))
           sent (garbled_handler sent 0%Z).1 "{" (GoError "unexpected end of JSON input")).
  - right. vm_compute. apply list_elem_of_further, list_elem_of_here.
  - reflexivity.
  - vm_compute; reflexivity.
  - reflexivity.
  - reflexivity.
Defined.


End HttpProps.

(** ** The loop controller *)
Module LoopProps.
Import Loop.

Section Controller.
Context {Outcome B : Type} (spec : LoopSpec Outcome) (wr : Wrapped Outcome B).

Lemma run_add (a b : nat) (c : config Outcome B) :
  run spec wr (a + b) c = run spec wr b (run spec wr a c).
Proof. revert c. induction a as [|a IH]; intros c; simpl; [done|apply IH]. Qed.

Lemma run_terminal (fuel : nat) (c : config Outcome B) :
  st c = Satisfied ∨ st c = Exhausted ∨ st c = Failed →
  run spec wr fuel c = c.
Proof.
  intros Hc. induction fuel as [|fuel IH]; simpl; [done|].
  assert (step spec wr c = c) as ->; [|done].
  unfold step. by destruct Hc as [-> | [-> | ->]].
Qed.

(** A repeat (no [until]) whose invocations and delays go through runs
    up to [count] and is then [Satisfied]. *)
Lemma run_repeat (k : nat) (c : config Outcome B) :
  until spec = None →
  (∀ i b, is_Err (invoke wr i b).1 = false) →
  (∀ d b, (delay wr d b).1 = None) →
  st c = Iterating →
  invocations c + S k = count spec →
  st (run spec wr (S k) c) = Satisfied
  ∧ invocations (run spec wr (S k) c) = count spec.
Proof.
  intros Hu Hinv Hdel. revert c. induction k as [|k IH]; intros c Hst Hn.
  - simpl. unfold step. rewrite Hst, Hu.
    destruct (if (invocations c =? 0)%nat then (None, backend c)
              else delay wr (interval spec) (backend c)) as [cancelled b1] eqn:Hd.
    assert (cancelled = None) as ->.
    { destruct (invocations c =? 0)%nat; [by injection Hd as <- _|].
      specialize (Hdel (interval spec) (backend c)). by rewrite Hd in Hdel. }
    specialize (Hinv (invocations c) b1).
    destruct (invoke wr (invocations c) b1) as [[o|e] b2]; [|done]. simpl.
    assert ((count spec <=? S (invocations c))%nat = true) as ->
      by (apply Nat.leb_le; lia).
    split; [done|simpl; lia].
  - change (run spec wr (S (S k)) c) with (run spec wr (S k) (step spec wr c)).
    assert (st (step spec wr c) = Iterating
            ∧ invocations (step spec wr c) = S (invocations c)) as [Hst' Hn'].
    { unfold step. rewrite Hst, Hu.
      destruct (if (invocations c =? 0)%nat then (None, backend c)
                else delay wr (interval spec) (backend c)) as [cancelled b1] eqn:Hd.
      assert (cancelled = None) as ->.
      { destruct (invocations c =? 0)%nat; [by injection Hd as <- _|].
        specialize (Hdel (interval spec) (backend c)). by rewrite Hd in Hdel. }
      specialize (Hinv (invocations c) b1).
      destruct (invoke wr (invocations c) b1) as [[o|e] b2]; [|done]. simpl.
      assert ((count spec <=? S (invocations c))%nat = false) as ->
        by (apply Nat.leb_gt; lia).
      done. }
    apply IH; [done|lia].
Qed.

End Controller.



End LoopProps.


(** * Further properties *)

(** ** Strings *)
Module StringMore.
Import GoStrings PathMore StringProps.

Lemma TrimPrefix_app (pre s : string) : TrimPrefix (pre +:+ s) pre = s.
Proof.
  unfold TrimPrefix.
  assert (HasPrefix (pre +:+ s) pre = true) as -> by (apply HasPrefix_spec; by exists s).
  rewrite length_app.
  replace (String.length pre + String.length s - String.length pre) with (String.length s) by lia.
  apply substring_app_r.
Qed.

Lemma app_assoc_string (a b c : string) : (a +:+ b) +:+ c = a +:+ (b +:+ c).
Proof. induction a as [|x a IH]; [done|]. change (String x ((a +:+ b) +:+ c) = String x (a +:+ b +:+ c)). by rewrite IH. Qed.

Lemma app_cons (x : Ascii.ascii) (a b : string) : String x a +:+ b = String x (a +:+ b).
Proof. done. Qed.

Lemma app_nil_l_string (a : string) : "" +:+ a = a.
Proof. done. Qed.

Lemma app_nil_r_string (a : string) : a +:+ "" = a.
Proof. induction a as [|x a IH]; [done|]. by rewrite app_cons, IH. Qed.

Lemma has_byte_app (c : Ascii.ascii) (a b : string) :
  has_byte c (a +:+ b) = has_byte c a || has_byte c b.
Proof.
  induction a as [|x a IH]; [done|]. rewrite app_cons. simpl. by rewrite IH, orb_assoc.
Qed.

(** A string without the separator is one field. *)
Lemma Split_no_sep (s : string) (c : Ascii.ascii) :
  has_byte c s = false → Split s c = [s].
Proof.
  induction s as [|d s IH]; [done|]. simpl. intros Hs.
  apply orb_false_iff in Hs as [Hd Hs]. rewrite Hd, (IH Hs). done.
Qed.

(** The first field ends at the first separator. *)
Lemma Split_app (a b : string) (c : Ascii.ascii) :
  has_byte c a = false → Split (a +:+ String c b) c = a :: Split b c.
Proof.
  induction a as [|d a IH]; intros Ha.
  - simpl. by rewrite Ascii.eqb_refl.
  - simpl in Ha. apply orb_false_iff in Ha as [Hd Ha].
    rewrite app_cons. simpl. rewrite Hd, (IH Ha). done.
Qed.

Lemma Split_nonempty (s : string) (c : Ascii.ascii) : Split s c ≠ [].
Proof.
  induction s as [|d s IH]; [done|]. simpl.
  destruct (Ascii.eqb d c); [done|]. by destruct (Split s c).
Qed.

(** [strings.Join(strings.Split(s, sep), sep)] is [s]. *)
Lemma concat_Split (s : string) (c : Ascii.ascii) :
  String.concat (String c "") (Split s c) = s.
Proof.
  induction s as [|d s IH]; [done|]. simpl.
  pose proof (Split_nonempty s c) as Hne.
  destruct (Ascii.eqb d c) eqn:Hd.
  - apply Ascii.eqb_eq in Hd as ->.
    destruct (Split s c) as [|f fs] eqn:Hs; [done|].
    change (String.concat (String c "") ("" :: f :: fs))
      with ("" +:+ String c "" +:+ String.concat (String c "") (f :: fs)).
    by rewrite IH.
  - destruct (Split s c) as [|f fs] eqn:Hs; [done|].
    destruct fs as [|g fs].
    + simpl in *. by rewrite IH.
    + change (String.concat (String c "") (String d f :: g :: fs))
        with (String d (f +:+ String c "" +:+ String.concat (String c "") (g :: fs))).
      change (String.concat (String c "") (f :: g :: fs))
        with (f +:+ String c "" +:+ String.concat (String c "") (g :: fs)) in IH.
      by rewrite IH.
Qed.

End StringMore.

(** ** path.go *)
Module PathMoreProps.
Import GoStrings Path PathSpec PathMore StringProps StringMore.

Lemma filter_ne_id (x : string) (l : list string) :
  x ∉ l → filter (λ y, y ≠ x) l = l.
Proof.
  induction l as [|y l IH]; [done|]. intros Hx.
  apply not_elem_of_cons in Hx as [Hxy Hx].
  rewrite filter_cons_True by done. by rewrite IH.
Qed.

Lemma first_occurrences_NoDup_id (l : list string) :
  NoDup l → first_occurrences l = l.
Proof.
  induction l as [|x l IH]; [done|]. intros Hnd. apply NoDup_cons in Hnd as [Hx Hnd].
  simpl. by rewrite (IH Hnd), filter_ne_id.
Qed.

(** X1.  [unique] changes nothing in a list without duplicates, so applying it
    twice is applying it once; and over a concatenation it keeps the first
    list's result and adds what is new in the second. *)
Theorem unique_idempotent (l1 l2 : list string) :
  (NoDup l1 → unique l1 = l1)
  ∧ unique (unique l1) = unique l1
  ∧ unique (l1 ++ l2) = unique l1 ++ filter (λ y, y ∉ l1) (unique l2).
Proof.
  split_and!.
  - intros Hnd. by rewrite PathProps.unique_first_occurrences, first_occurrences_NoDup_id.
  - rewrite !PathProps.unique_first_occurrences.
    apply first_occurrences_NoDup_id, PathProps.first_occurrences_NoDup.
  - rewrite !PathProps.unique_first_occurrences.
    induction l1 as [|x l1 IH]; simpl.
    + induction (first_occurrences l2) as [|y l IHl]; [done|].
      rewrite filter_cons_True by apply not_elem_of_nil. by rewrite <- IHl.
    + rewrite IH, filter_app, list_filter_filter. do 2 f_equal.
      apply list_filter_iff. intros y. rewrite not_elem_of_cons. tauto.
Qed.

Section WithEnv.
Context {W FS URL : Type} {E : PathEnv W FS URL}.

(** X2.  [fetchPaths] goes through the entries in order and stops at the first
    entry that fails: the loop over [l1 ++ l2] is the loop over [l1] followed,
    if that went through, by the loop over [l2] from the paths and the state
    it left. *)
Theorem fetchPaths_loop_app (l1 l2 paths : list string) (st : pstate W) :
  fetchPaths_loop (l1 ++ l2) paths st
  = match fetchPaths_loop l1 paths st with
    | (Ok paths1, st1) => fetchPaths_loop l2 paths1 st1
    | (Err e, st1) => (Err e, st1)
    end.
Proof.
  revert paths st. induction l1 as [|pp l1 IH]; intros paths st; simpl; [done|].
  destruct (fetchPaths_step pp st) as [[ps|e] st1]; [apply IH|done].
Qed.

(** A list entry that names one local file never makes [fetchPaths] fail:
    the entry is kept when [readFile] can read it and dropped without a word
    when it cannot. *)
Lemma fetchPaths_step_local (pp : string) (st : pstate W) :
  local_file pp →
  fetchPaths_step pp st
  = (Ok (if is_Err (readFile pp st).1 then [] else [pp]), (readFile pp st).2).
Proof.
  intros (H1 & H2 & H3). unfold fetchPaths_step.
  destruct (doublestar_SplitPattern pp) as [base pattern]. simpl in *.
  rewrite H1, H2, H3. simpl. by destruct (readFile pp st) as [[b|e] st1].
Qed.

(** X3.  [readFile] never changes [globalCacheDir]; it leaves the whole state as
    it is when the path exists or does not lie under a non-empty
    [globalCacheDir], and for a path that exists it is [os.ReadFile]. *)
Theorem readFile_frame (p : string) (st : pstate W) :
  globalCacheDir (readFile p st).2 = globalCacheDir st
  ∧ (os_Stat p (world st) = None
     ∨ globalCacheDir st = "" ∨ HasPrefix p (globalCacheDir st) = false →
     (readFile p st).2 = st)
  ∧ (os_Stat p (world st) = None → (readFile p st).1 = os_ReadFile p (world st)).
Proof.
  unfold readFile. split_and!.
  - repeat (HttpProps.run_step; simpl); done.
  - intros [Hs|[Hg|Hp]].
    + by rewrite Hs.
    + rewrite Hg. simpl. by destruct (os_Stat p (world st)).
    + rewrite Hp. rewrite orb_true_r. by destruct (os_Stat p (world st)).
  - intros Hs. by rewrite Hs.
Qed.

(** X4.  On a file system where a file written can be found and read back, a
    successful [readFile] can be repeated: the second call returns the same
    bytes and changes nothing, whether the first one read the file or
    fetched it again and wrote the cache. *)
Theorem readFile_again (p b : string) (st st' : pstate W) :
  (∀ q c w w', os_WriteFile q c w = (None, w') →
     os_Stat q w' = None ∧ os_ReadFile q w' = Ok c) →
  readFile p st = (Ok b, st') →
  readFile p st' = (Ok b, st').
Proof.
  intros Hfs. unfold readFile at 1.
  destruct (os_Stat p (world st)) as [err|] eqn:Hstat.
  - repeat (HttpProps.run_step; simpl); intros Hr; simplify_eq.
    + match goal with Hw : os_WriteFile _ _ _ = _ |- _ =>
        destruct (Hfs _ _ _ _ Hw) as [Hs' Hr'] end.
      unfold readFile. simpl. by rewrite Hs', Hr'.
    + match goal with Hw : os_WriteFile _ _ _ = _ |- _ =>
        destruct (Hfs _ _ _ _ Hw) as [Hs' Hr'] end.
      unfold readFile. simpl. by rewrite Hs', Hr'.
  - intros [= Hr <-]. unfold readFile. by rewrite Hstat, Hr.
Qed.


(** X6.  When every entry is a local file name that exists and can be read,
    [fetchPaths] returns the entries, each once, in the order of their first
    occurrence, and leaves the state as it was. *)
Theorem fetchPaths_local_readable (pathp : string) (st : pstate W) :
  Forall local_file (splitList pathp) →
  (∀ p, p ∈ splitList pathp →
     os_Stat p (world st) = None ∧ is_Err (os_ReadFile p (world st)) = false) →
  fetchPaths pathp st = (Ok (unique (splitList pathp)), st).
Proof.
  intros Hall Hread. unfold fetchPaths.
  assert (∀ l acc, Forall local_file l →
            (∀ p, p ∈ l → os_Stat p (world st) = None
                          ∧ is_Err (os_ReadFile p (world st)) = false) →
            fetchPaths_loop l acc st = (Ok (acc ++ l), st)) as Hloop.
  { induction l as [|pp l IH]; intros acc Hl Hr; simpl; [by rewrite app_nil_r|].
    apply Forall_cons in Hl as [Hpp Hl].
    rewrite (fetchPaths_step_local pp st Hpp).
    destruct (Hr pp) as [Hs He]; [by left|].
    unfold readFile. rewrite Hs. simpl. rewrite He.
    rewrite IH; [by rewrite <- app_assoc|done|].
    intros p Hp. apply Hr. by right. }
  by rewrite (Hloop _ [] Hall Hread).
Qed.


Section MoreCalls.
Context (IsNotExist : goerror → bool) (gfs_ReadAll : FS → string → W → result string * W).

(** X8.  [fileExists] is true exactly when [os.Stat] reports no error at all
    (an error other than "does not exist" also gives false), and then
    [readFile] reads the file itself: nothing is fetched, nothing is
    written. *)
Theorem fileExists_readFile (path : string) (st : pstate W) :
  (fileExists IsNotExist path (world st) = true ↔ os_Stat path (world st) = None)
  ∧ (fileExists IsNotExist path (world st) = true →
       readFile path st = (os_ReadFile path (world st), st)).
Proof.
  unfold fileExists, readFile.
  destruct (os_Stat path (world st)) as [err|]; simpl.
  - destruct (IsNotExist err); split; try done; by split.
  - by split.
Qed.

(** X9.  [readFileViaGitHub] takes the URL apart like [fetchPaths] does: owner and
    repository go to [ghfs.New] and the rest, slashes included, is the path
    opened in the repository (the empty path when nothing follows); a URL
    with less than an owner and a repository is invalid and nothing is
    asked of GitHub. *)
Theorem readFileViaGitHub_dissects (owner repo p : string) (w : W) :
  has_byte "/"%char owner = false →
  has_byte "/"%char repo = false →
  readFileViaGitHub_body gfs_ReadAll (prefixGitHub +:+ owner) w
    = (Err (GoError ("invalid url: " +:+ prefixGitHub +:+ owner)), w)
  ∧ readFileViaGitHub_body gfs_ReadAll (prefixGitHub +:+ owner +:+ "/" +:+ repo) w
    = match ghfs_New owner repo w with
      | Err e => (Err e, w)
      | Ok gfs => gfs_ReadAll gfs "" w
      end
  ∧ readFileViaGitHub_body gfs_ReadAll (prefixGitHub +:+ owner +:+ "/" +:+ repo +:+ "/" +:+ p) w
    = match ghfs_New owner repo w with
      | Err e => (Err e, w)
      | Ok gfs => gfs_ReadAll gfs p w
      end.
Proof.
  intros Ho Hr. unfold readFileViaGitHub_body. rewrite !TrimPrefix_app. split_and!.
  - by rewrite (Split_no_sep owner "/" Ho).
  - change (owner +:+ "/" +:+ repo) with (owner +:+ String "/" repo).
    by rewrite (Split_app owner repo "/" Ho), (Split_no_sep repo "/" Hr).
  - change (owner +:+ "/" +:+ repo +:+ "/" +:+ p)
      with (owner +:+ String "/" (repo +:+ String "/" p)).
    rewrite (Split_app owner _ "/" Ho), (Split_app repo p "/" Hr).
    pose proof (concat_Split p "/") as Hj.
    change (String.concat "/" (Split p "/")) with (String.concat (String "/" "") (Split p "/")).
    by rewrite Hj.
Qed.

End MoreCalls.
End WithEnv.

Lemma unique_idempotent_witness : unique ["b.yml"; "a.yml"] = ["b.yml"; "a.yml"].
Proof.
  apply (proj1 (unique_idempotent ["b.yml"; "a.yml"] [])).
  apply (bool_decide_unpack _). vm_compute. reflexivity.
Defined.

Lemma readFile_frame_witness :
  (readFile (E := PathFixture.env) "a.yml" (mkPState "/cache" PathFixture.disk)).2
  = mkPState "/cache" PathFixture.disk.
Proof.
  apply (proj1 (proj2 (readFile_frame (E := PathFixture.env) "a.yml"
                         (mkPState "/cache" PathFixture.disk)))).
  left. vm_compute. reflexivity.
Defined.

Lemma readFile_again_witness :
  readFile (E := PathFixture.env) PathFixture.cached
    (mkPState "/cache"
       (<[PathFixture.cached := "body of https://example.com/a.yml"]> PathFixture.disk))
  = (Ok "body of https://example.com/a.yml",
     mkPState "/cache"
       (<[PathFixture.cached := "body of https://example.com/a.yml"]> PathFixture.disk)).
Proof.
  apply (readFile_again (E := PathFixture.env) PathFixture.cached _
           (mkPState "/cache" PathFixture.disk)).
  - intros q c w w' Hw. injection Hw as <-. simpl. by rewrite lookup_insert_eq.
  - vm_compute. reflexivity.
Defined.


Lemma fetchPaths_local_readable_witness :
  fetchPaths (E := PathFixture.env) "a.yml:b.yml:a.yml" (mkPState "" PathFixture.disk)
  = (Ok (unique (splitList "a.yml:b.yml:a.yml")), mkPState "" PathFixture.disk).
Proof.
  apply (fetchPaths_local_readable (E := PathFixture.env)).
  - assert (splitList "a.yml:b.yml:a.yml" = ["a.yml"; "b.yml"; "a.yml"]) as ->
      by (vm_compute; reflexivity).
    repeat constructor.
  - assert (splitList "a.yml:b.yml:a.yml" = ["a.yml"; "b.yml"; "a.yml"]) as ->
      by (vm_compute; reflexivity).
    intros p Hp. apply list_elem_of_In in Hp.
    destruct Hp as [<-|[<-|[<-|[]]]]; split; vm_compute; reflexivity.
Defined.


Lemma fileExists_readFile_witness :
  readFile (E := PathFixture.env) "a.yml" (mkPState "/cache" PathFixture.disk)
  = (Ok "desc: a", mkPState "/cache" PathFixture.disk).
Proof.
  apply (proj2 (fileExists_readFile (E := PathFixture.env) (λ _, true) "a.yml"
                  (mkPState "/cache" PathFixture.disk))).
  vm_compute. reflexivity.
Defined.

Lemma readFileViaGitHub_dissects_witness :
  readFileViaGitHub_body (E := PathFixture.env) (λ _ p w, (Ok p, w))
    "github://k1LoW/runn/testdata/book/loop.yml" PathFixture.disk
  = (Err (GoError "offline"), PathFixture.disk).
Proof.
  apply (proj2 (proj2 (readFileViaGitHub_dissects (E := PathFixture.env) (λ _ p w, (Ok p, w))
                         "k1LoW" "runn" "testdata/book/loop.yml" PathFixture.disk
                         eq_refl eq_refl))).
Defined.

End PathMoreProps.

(** ** splitList *)
Module SplitListProps.
Import GoStrings Path PathMore StringProps StringMore.

Lemma HasPrefix_app (pre s : string) : HasPrefix (pre +:+ s) pre = true.
Proof. apply HasPrefix_spec. by exists s. Qed.

(** A matched key is dropped byte by byte. *)
Lemma Replace2_skip (old1 new1 old2 new2 u v : string) :
  Replace2_go old1 new1 old2 new2 (String.length u) (u +:+ v)
  = Replace2_go old1 new1 old2 new2 0 v.
Proof.
  induction u as [|c u IH]; [by destruct v|]. rewrite app_cons. simpl. apply IH.
Qed.

(** At a key the replacement is written and the scan goes on behind it. *)
Lemma Replace2_at_key1 (old1 new1 old2 new2 : string) (c : Ascii.ascii) (k s : string) :
  old1 = String c k →
  Replace2_go old1 new1 old2 new2 0 (old1 +:+ s)
  = new1 +:+ Replace2_go old1 new1 old2 new2 0 s.
Proof.
  intros ->. rewrite app_cons.
  change (Replace2_go (String c k) new1 old2 new2 0 (String c (k +:+ s)))
    with (if HasPrefix (String c (k +:+ s)) (String c k)
          then new1 +:+ Replace2_go (String c k) new1 old2 new2
                          (String.length (String c k) - 1) (k +:+ s)
          else if HasPrefix (String c (k +:+ s)) old2
          then new2 +:+ Replace2_go (String c k) new1 old2 new2
                          (String.length old2 - 1) (k +:+ s)
          else String c (Replace2_go (String c k) new1 old2 new2 0 (k +:+ s))).
  rewrite <- app_cons, HasPrefix_app. simpl. rewrite Nat.sub_0_r. by rewrite Replace2_skip.
Qed.

Lemma Replace2_at_key2 (old1 new1 old2 new2 : string) (c : Ascii.ascii) (k s : string) :
  old2 = String c k →
  HasPrefix (old2 +:+ s) old1 = false →
  Replace2_go old1 new1 old2 new2 0 (old2 +:+ s)
  = new2 +:+ Replace2_go old1 new1 old2 new2 0 s.
Proof.
  intros -> Hno. rewrite app_cons in *.
  change (Replace2_go old1 new1 (String c k) new2 0 (String c (k +:+ s)))
    with (if HasPrefix (String c (k +:+ s)) old1
          then new1 +:+ Replace2_go old1 new1 (String c k) new2
                          (String.length old1 - 1) (k +:+ s)
          else if HasPrefix (String c (k +:+ s)) (String c k)
          then new2 +:+ Replace2_go old1 new1 (String c k) new2
                          (String.length (String c k) - 1) (k +:+ s)
          else String c (Replace2_go old1 new1 (String c k) new2 0 (k +:+ s))).
  rewrite Hno. rewrite <- app_cons, HasPrefix_app. simpl. rewrite Nat.sub_0_r.
  by rewrite Replace2_skip.
Qed.

Lemma rep_https (s : string) : rep (prefixHttps +:+ s) = repKey_https +:+ rep s.
Proof. by apply (Replace2_at_key1 _ _ _ _ "h" "ttps://"). Qed.

Lemma rep_github (s : string) : rep (prefixGitHub +:+ s) = repKey_github +:+ rep s.
Proof. by apply (Replace2_at_key2 _ _ _ _ "g" "ithub://"). Qed.

Lemma rep_colon (s : string) : rep (String ":" s) = String ":" (rep s).
Proof. reflexivity. Qed.

Lemma per_https (s : string) : per (repKey_https +:+ s) = prefixHttps +:+ per s.
Proof. by apply (Replace2_at_key1 _ _ _ _ "R" "UNN_HTTPS_SCHEME"). Qed.

Lemma per_github (s : string) : per (repKey_github +:+ s) = prefixGitHub +:+ per s.
Proof. by apply (Replace2_at_key2 _ _ _ _ "R" "UNN_GITHUB_SCHEME"). Qed.

(** Where neither key occurs, nothing is replaced. *)
Lemma Replace2_no_key (old1 new1 old2 new2 s : string) :
  Contains s old1 = false → Contains s old2 = false →
  Replace2_go old1 new1 old2 new2 0 s = s.
Proof.
  induction s as [|c s IH]; [done|]. intros H1 H2.
  simpl in H1, H2. apply orb_false_iff in H1 as [H1 H1'], H2 as [H2 H2'].
  simpl. rewrite H1, H2. by rewrite IH.
Qed.

(** Two strings cut at their first [c] agree part by part. *)
Lemma first_sep (c : Ascii.ascii) (x a u v : string) :
  has_byte c x = false → has_byte c a = false →
  x +:+ String c u = a +:+ String c v → x = a ∧ u = v.
Proof.
  revert a. induction x as [|d x IH]; intros a Hx Ha Heq.
  - destruct a as [|d' a]; [by injection Heq|].
    rewrite app_cons in Heq. injection Heq as <- _. simpl in Ha.
    by rewrite Ascii.eqb_refl in Ha.
  - destruct a as [|d' a].
    + rewrite app_cons in Heq. injection Heq as -> _. simpl in Hx.
      by rewrite Ascii.eqb_refl in Hx.
    + rewrite !app_cons in Heq. injection Heq as -> Heq.
      simpl in Hx, Ha. apply orb_false_iff in Hx as [_ Hx], Ha as [_ Ha].
      destruct (IH a Hx Ha Heq) as [-> ->]. done.
Qed.

(** No scheme prefix starts inside a stretch without [':']. *)
Lemma no_scheme_inside (a x t : string) :
  has_byte ":" a = false → has_byte ":" x = false → follows t →
  HasPrefix (x +:+ t) (a +:+ "://") = false.
Proof.
  intros Ha Hx Ht. destruct (HasPrefix (x +:+ t) (a +:+ "://")) eqn:Hp; [|done].
  apply HasPrefix_spec in Hp as [rest Heq]. exfalso.
  destruct Ht as [->|(t' & -> & Ht')].
  - rewrite app_nil_r_string in Heq. rewrite Heq, !has_byte_app in Hx. simpl in Hx.
    by rewrite orb_true_r in Hx.
  - rewrite app_assoc_string in Heq.
    change ("://" +:+ rest) with (String ":" ("//" +:+ rest)) in Heq.
    destruct (first_sep ":" x a t' ("//" +:+ rest) Hx Ha Heq) as [_ ->].
    assert (HasPrefix ("//" +:+ rest) "//" = true); [|congruence].
    apply HasPrefix_spec. by exists rest.
Qed.

(** The first replacement passes over a stretch without [':']. *)
Lemma rep_body (b t : string) :
  has_byte ":" b = false → follows t → rep (b +:+ t) = b +:+ rep t.
Proof.
  induction b as [|c b IH]; intros Hb Ht; [done|].
  pose proof (no_scheme_inside "https" (String c b) t eq_refl Hb Ht) as H1.
  pose proof (no_scheme_inside "github" (String c b) t eq_refl Hb Ht) as H2.
  change (HasPrefix (String c (b +:+ t)) prefixHttps = false) in H1.
  change (HasPrefix (String c (b +:+ t)) prefixGitHub = false) in H2.
  simpl in Hb. apply orb_false_iff in Hb as [_ Hb].
  rewrite app_cons.
  change (rep (String c (b +:+ t)))
    with (if HasPrefix (String c (b +:+ t)) prefixHttps
          then repKey_https +:+ Replace2_go prefixHttps repKey_https prefixGitHub repKey_github
                                  (String.length prefixHttps - 1) (b +:+ t)
          else if HasPrefix (String c (b +:+ t)) prefixGitHub
          then repKey_github +:+ Replace2_go prefixHttps repKey_https prefixGitHub repKey_github
                                   (String.length prefixGitHub - 1) (b +:+ t)
          else String c (rep (b +:+ t))).
  rewrite H1, H2. by rewrite IH.
Qed.

Lemma join_cons (x : string) (l : list string) :
  join_list (x :: l) = x +:+ match l with [] => "" | _ :: _ => String ":" (join_list l) end.
Proof. destruct l; [by rewrite app_nil_r_string|done]. Qed.

Lemma entry_not_slashes (e : scheme * string) (t : string) :
  plain_entry e → (t = "" ∨ ∃ t', t = String ":" t') →
  HasPrefix (entry_string e +:+ t) "//" = false.
Proof.
  intros (_ & _ & _ & Hs) Ht. destruct e as [[| |] b]; [|done..].
  specialize (Hs eq_refl). unfold entry_string. simpl in *.
  destruct (HasPrefix (b +:+ t) "//") eqn:Hp; [|done]. exfalso.
  apply HasPrefix_spec in Hp as [rest Heq].
  destruct b as [|c1 [|c2 b]].
  - destruct Ht as [->|[t' ->]]; discriminate Heq.
  - destruct Ht as [->|[t' ->]]; discriminate Heq.
  - injection Heq as -> -> _.
    assert (HasPrefix (String "/" (String "/" b)) "//" = true); [|congruence].
    apply HasPrefix_spec. by exists b.
Qed.

(** The first replacement turns every scheme into its key and nothing
    else. *)
Lemma rep_join (entries : list (scheme * string)) :
  Forall plain_entry entries →
  rep (join_list (map entry_string entries)) = join_list (map keyed_string entries).
Proof.
  induction entries as [|e es IH]; [done|]. intros Hall.
  apply Forall_cons in Hall as [He Hes]. specialize (IH Hes).
  rewrite !map_cons, !join_cons.
  assert (follows match map entry_string es with
                  | [] => ""
                  | _ :: _ => String ":" (join_list (map entry_string es))
                  end) as Hf.
  { destruct es as [|e2 es2]; [by left|]. right. eexists. split; [done|].
    apply Forall_cons in Hes as [He2 _].
    rewrite map_cons, join_cons. apply entry_not_slashes; [done|].
    destruct es2; [by left|right; by eexists]. }
  assert (rep match map entry_string es with
              | [] => ""
              | _ :: _ => String ":" (join_list (map entry_string es))
              end
          = match map keyed_string es with
            | [] => ""
            | _ :: _ => String ":" (join_list (map keyed_string es))
            end) as Hrest.
  { destruct es as [|e2 es2]; [done|]. rewrite !map_cons in *. by rewrite rep_colon, IH. }
  destruct He as (Hb & _). destruct e as [[| |] b]; cbn [snd] in Hb.
  - change (entry_string (NoScheme, b)) with ("" +:+ b).
    change (keyed_string (NoScheme, b)) with ("" +:+ b).
    rewrite !app_nil_l_string. rewrite (rep_body b _ Hb Hf). by rewrite Hrest.
  - change (entry_string (Https, b)) with (prefixHttps +:+ b).
    change (keyed_string (Https, b)) with (repKey_https +:+ b).
    rewrite app_assoc_string, rep_https, (rep_body b _ Hb Hf), Hrest.
    by rewrite app_assoc_string.
  - change (entry_string (GitHub, b)) with (prefixGitHub +:+ b).
    change (keyed_string (GitHub, b)) with (repKey_github +:+ b).
    rewrite app_assoc_string, rep_github, (rep_body b _ Hb Hf), Hrest.
    by rewrite app_assoc_string.
Qed.

Lemma keyed_no_colon (e : scheme * string) :
  plain_entry e → has_byte ":" (keyed_string e) = false.
Proof.
  intros (Hb & _). unfold keyed_string. rewrite has_byte_app, Hb.
  by destruct e as [[| |] b].
Qed.

Lemma Split_join (l : list string) :
  l ≠ [] → Forall (λ s, has_byte ":" s = false) l → Split (join_list l) ":" = l.
Proof.
  induction l as [|x l IH]; [done|]. intros _ Hall.
  apply Forall_cons in Hall as [Hx Hl]. rewrite join_cons.
  destruct l as [|y l].
  - rewrite app_nil_r_string. by apply Split_no_sep.
  - rewrite Split_app by done. by rewrite IH.
Qed.

(** The second replacement turns a key back into its scheme. *)
Lemma per_keyed (e : scheme * string) :
  plain_entry e → per (keyed_string e) = entry_string e.
Proof.
  intros (_ & H1 & H2 & _). destruct e as [[| |] b]; cbn [snd] in H1, H2.
  - change (per b = b). by apply Replace2_no_key.
  - change (per (repKey_https +:+ b) = prefixHttps +:+ b).
    rewrite per_https. f_equal. by apply Replace2_no_key.
  - change (per (repKey_github +:+ b) = prefixGitHub +:+ b).
    rewrite per_github. f_equal. by apply Replace2_no_key.
Qed.

Lemma length_zero (s : string) : String.length s = 0 → s = "".
Proof. by destruct s. Qed.

(** X10.  [splitList] gives back the entries of a path list joined with [':']
    (the list separator of [filepath.SplitList] on Unix), schemes included:
    the [':'] of ["https://"] and ["github://"] is no separator.  (The entries must be such that they can be told apart: see
    [plain_entry]; the empty string is the empty list, not one empty
    entry.) *)
Theorem splitList_keeps_schemes (entries : list (scheme * string)) :
  Forall plain_entry entries →
  entries ≠ [] → entries ≠ [(NoScheme, "")] →
  splitList (join_list (map entry_string entries)) = map entry_string entries.
Proof.
  intros Hall Hne Hne1. unfold splitList, Replace2, filepath_SplitList.
  rewrite (rep_join entries Hall).
  assert (join_list (map keyed_string entries) ≠ "") as Hnz.
  { destruct entries as [|e [|e2 es]]; [done| |].
    - intros Hz. change (keyed_string e = "") in Hz.
      destruct e as [[| |] b]; [|discriminate Hz..].
      change (b = "") in Hz. by subst.
    - rewrite !map_cons, join_cons. intros Hz.
      assert (String.length (keyed_string e +:+ String ":" (join_list (keyed_string e2 :: map keyed_string es))) = 0)
        as Hl by (by rewrite Hz).
      rewrite length_app in Hl. simpl in Hl. lia. }
  apply String.eqb_neq in Hnz. rewrite Hnz.
  rewrite Split_join.
  - rewrite map_map. apply map_ext_Forall.
    eapply Forall_impl; [exact Hall|]. intros e He. by apply per_keyed.
  - by destruct entries.
  - apply Forall_map. eapply Forall_impl; [exact Hall|]. intros e He. by apply keyed_no_colon.
Qed.

Lemma no_colon_no_scheme (a s : string) :
  has_byte ":" a = false → has_byte ":" s = false → Contains s (a +:+ "://") = false.
Proof.
  intros Ha. induction s as [|c s IH]; intros Hs.
  - simpl. apply orb_false_iff. split; [|done].
    pose proof (no_scheme_inside a "" "" Ha eq_refl (or_introl eq_refl)) as Hp. exact Hp.
  - pose proof (no_scheme_inside a (String c s) "" Ha Hs (or_introl eq_refl)) as Hp.
    rewrite app_nil_r_string in Hp.
    simpl in Hs. apply orb_false_iff in Hs as [_ Hs].
    change (Contains (String c s) (a +:+ "://"))
      with (HasPrefix (String c s) (a +:+ "://") || Contains s (a +:+ "://")).
    rewrite Hp. simpl. by apply IH.
Qed.

(** X11.  The keys [splitList] hides the schemes behind are not protected: a
    key written in an entry comes back as the scheme it stands for. *)
Theorem splitList_key_becomes_scheme (b : string) :
  has_byte ":" b = false →
  Contains b repKey_https = false → Contains b repKey_github = false →
  splitList (repKey_https +:+ b) = [prefixHttps +:+ b]
  ∧ splitList (repKey_github +:+ b) = [prefixGitHub +:+ b].
Proof.
  intros Hb H1 H2. unfold splitList, Replace2, filepath_SplitList.
  assert (∀ k, has_byte ":" k = false → k ≠ "" →
            rep (k +:+ b) = k +:+ b
            ∧ String.eqb (k +:+ b) "" = false
            ∧ Split (k +:+ b) ":" = [k +:+ b]) as Hk.
  { intros k Hk Hne.
    assert (has_byte ":" (k +:+ b) = false) as Hkb by (by rewrite has_byte_app, Hk, Hb).
    split_and!.
    - apply Replace2_no_key.
      + by apply (no_colon_no_scheme "https").
      + by apply (no_colon_no_scheme "github").
    - apply String.eqb_neq. intros Hz.
      assert (String.length (k +:+ b) = 0) as Hl by (by rewrite Hz).
      rewrite length_app in Hl. destruct k; [done|simpl in Hl; lia].
    - by apply Split_no_sep. }
  split.
  - destruct (Hk repKey_https eq_refl ltac:(done)) as (-> & -> & ->). cbn [map].
    rewrite per_https. do 2 f_equal. by apply Replace2_no_key.
  - destruct (Hk repKey_github eq_refl ltac:(done)) as (-> & -> & ->). cbn [map].
    rewrite per_github. do 2 f_equal. by apply Replace2_no_key.
Qed.

Lemma splitList_keeps_schemes_witness :
  splitList "a.yml:https://example.com/b.yml:github://k1LoW/runn/**/*.yml"
  = ["a.yml"; "https://example.com/b.yml"; "github://k1LoW/runn/**/*.yml"].
Proof.
  apply (splitList_keeps_schemes
           [(NoScheme, "a.yml"); (Https, "example.com/b.yml"); (GitHub, "k1LoW/runn/**/*.yml")]).
  - repeat constructor; try reflexivity; intros Hs; try discriminate Hs; reflexivity.
  - intros Heq. discriminate Heq.
  - intros Heq. discriminate Heq.
Defined.

Lemma splitList_key_becomes_scheme_witness :
  splitList "RUNN_HTTPS_SCHEMEexample.com" = ["https://example.com"]
  ∧ splitList "RUNN_GITHUB_SCHEMEexample.com" = ["github://example.com"].
Proof.
  apply (splitList_key_becomes_scheme "example.com"); reflexivity.
Defined.

End SplitListProps.
(** ** More of http.go *)
Module HttpMoreProps.
Import GoStrings Http HttpSpec StringProps HttpMore StringMore.

Section WithEnv.
Context {T : HttpTypes} {E : HttpEnv}.

Lemma Header_Get_Set (h : Header) (k v : string) : Header_Get (Header_Set h k v) k = v.
Proof. unfold Header_Get, Header_Set. by rewrite lookup_insert_eq. Qed.

(** *** The loop over [r.headers] *)

Lemma headers_loops_agree (l : list (string * string)) (req1 req2 : Request) :
  req_Header req1 = req_Header req2 →
  req_Header
    (foldl (λ req (kv : string * string),
              let req := set_req_Header req (Header_Set (req_Header req) kv.1 kv.2) in
              if String.eqb kv.1 "Host" then set_req_Host req kv.2 else req) req1 l)
  = req_Header
      (foldl (λ req (kv : string * string),
                set_req_Header req (Header_Set (req_Header req) kv.1 kv.2)) req2 l).
Proof.
  revert req1 req2. induction l as [|[k v] l IH]; intros req1 req2 Hh; [done|].
  simpl. apply IH. destruct (String.eqb k "Host"); simpl; by rewrite Hh.
Qed.

Lemma headers_loop_get (l : list (string * string)) (req : Request) (k v : string) :
  (k, v) ∈ l →
  (∀ k' v', (k', v') ∈ l →
     CanonicalMIMEHeaderKey k' = CanonicalMIMEHeaderKey k → k' = k ∧ v' = v) →
  Header_Get
    (req_Header
       (foldl (λ req (kv : string * string),
                 set_req_Header req (Header_Set (req_Header req) kv.1 kv.2)) req l)) k = v.
Proof.
  induction l as [|[k' v'] l IH] using rev_ind; intros Hin Hone.
  - by apply elem_of_nil in Hin.
  - rewrite foldl_app. simpl. unfold Header_Get, Header_Set.
    destruct (decide (CanonicalMIMEHeaderKey k' = CanonicalMIMEHeaderKey k)) as [Hc|Hc].
    + destruct (Hone k' v') as [-> ->]; [apply elem_of_app; right; by left|done|].
      by rewrite lookup_insert_eq.
    + rewrite lookup_insert_ne by done.
      apply IH.
      * apply elem_of_app in Hin as [Hin|Hin]; [done|].
        apply list_elem_of_singleton in Hin. by simplify_eq.
      * intros k2 v2 Hin2. apply Hone. apply elem_of_app. by left.
Qed.

Lemma headers_loop_other (l : list (string * string)) (req : Request) (ck : string) :
  (∀ k' v', (k', v') ∈ l → CanonicalMIMEHeaderKey k' ≠ ck) →
  req_Header
    (foldl (λ req (kv : string * string),
              set_req_Header req (Header_Set (req_Header req) kv.1 kv.2)) req l) !! ck
  = req_Header req !! ck.
Proof.
  revert req. induction l as [|[k' v'] l IH]; intros req Hne; [done|].
  simpl. rewrite IH by (intros k2 v2 Hin; apply (Hne k2 v2); by right).
  simpl. unfold Header_Set. rewrite lookup_insert_ne; [done|].
  apply (Hne k' v'). by left.
Qed.

Lemma headers_loop_Host (l : list (string * string)) (req : Request) :
  NoDup l.*1 →
  req_Host
    (foldl (λ req (kv : string * string),
              let req := set_req_Header req (Header_Set (req_Header req) kv.1 kv.2) in
              if String.eqb kv.1 "Host" then set_req_Host req kv.2 else req) req l)
  = default (req_Host req) ((list_to_map l : gmap string string) !! "Host").
Proof.
  revert req. induction l as [|[k v] l IH]; intros req Hnd; [done|].
  apply NoDup_cons in Hnd as [Hk Hnd]. simpl. rewrite (IH _ Hnd).
  destruct (String.eqb k "Host") eqn:Hh.
  - apply eqb_true in Hh as ->. rewrite lookup_insert_eq.
    by rewrite (not_elem_of_list_to_map_1 _ _ Hk).
  - apply eqb_false in Hh. by rewrite lookup_insert_ne.
Qed.

Lemma headers_loop_rest (l : list (string * string)) (req : Request) :
  let req' :=
    foldl (λ req (kv : string * string),
             let req := set_req_Header req (Header_Set (req_Header req) kv.1 kv.2) in
             if String.eqb kv.1 "Host" then set_req_Host req kv.2 else req) req l in
  req_Method req' = req_Method req ∧ req_URL req' = req_URL req ∧ req_Body req' = req_Body req.
Proof.
  induction l as [|[k v] l IH] using rev_ind; [done|].
  rewrite foldl_app. simpl in *. by destruct (String.eqb k "Host").
Qed.

Lemma headers_loop_handler_rest (l : list (string * string)) (req : Request) :
  let req' :=
    foldl (λ req (kv : string * string),
             set_req_Header req (Header_Set (req_Header req) kv.1 kv.2)) req l in
  req_Method req' = req_Method req ∧ req_URL req' = req_URL req
  ∧ req_Body req' = req_Body req ∧ req_Host req' = req_Host req.
Proof.
  induction l as [|[k v] l IH] using rev_ind; [done|].
  rewrite foldl_app. by simpl in *.
Qed.

(** X12.  The headers of the request win over what [Run] has set before
    (Content-Type, Cookie): after the loop over [r.headers], a header named
    there has the value given there, provided no other key of [r.headers]
    has the same canonical form; a header not named there is as before.  The
    client case and the handler case leave the same headers; only the client
    case sets [req.Host], and only from the key spelled ["Host"]. *)
Theorem request_headers_override (r : httpRequest) (req : Request) :
  (∀ k v, r_headers r !! k = Some v →
     (∀ k', is_Some (r_headers r !! k') →
        CanonicalMIMEHeaderKey k' = CanonicalMIMEHeaderKey k → k' = k) →
     Header_Get (req_Header (set_headers_client r req)) k = v)
  ∧ (∀ k, (∀ k', is_Some (r_headers r !! k') →
             CanonicalMIMEHeaderKey k' ≠ CanonicalMIMEHeaderKey k) →
       Header_Get (req_Header (set_headers_client r req)) k = Header_Get (req_Header req) k)
  ∧ req_Header (set_headers_handler r req) = req_Header (set_headers_client r req)
  ∧ req_Host (set_headers_client r req) = default (req_Host req) (r_headers r !! "Host")
  ∧ req_Host (set_headers_handler r req) = req_Host req
  ∧ (req_Method (set_headers_client r req), req_URL (set_headers_client r req),
     req_Body (set_headers_client r req))
    = (req_Method req, req_URL req, req_Body req)
  ∧ (req_Method (set_headers_handler r req), req_URL (set_headers_handler r req),
     req_Body (set_headers_handler r req))
    = (req_Method req, req_URL req, req_Body req).
Proof.
  assert (req_Header (set_headers_client r req) = req_Header (set_headers_handler r req))
    as Hagree by (by apply headers_loops_agree).
  split_and!.
  - intros k v Hk Hone. unfold Header_Get. rewrite Hagree.
    apply (headers_loop_get (map_to_list (r_headers r)) req k v).
    + by apply elem_of_map_to_list.
    + intros k' v' Hin Hc. apply elem_of_map_to_list in Hin.
      assert (k' = k) as -> by (apply Hone; [by eexists|done]).
      split; [done|congruence].
  - intros k Hne. unfold Header_Get. rewrite Hagree. unfold set_headers_handler.
    rewrite (headers_loop_other (map_to_list (r_headers r)) req); [done|].
    intros k' v' Hin. apply elem_of_map_to_list in Hin. apply Hne. by eexists.
  - by rewrite Hagree.
  - unfold set_headers_client.
    rewrite headers_loop_Host by apply NoDup_fst_map_to_list.
    by rewrite list_to_map_to_list.
  - apply (headers_loop_handler_rest (map_to_list (r_headers r)) req).
  - destruct (headers_loop_rest (map_to_list (r_headers r)) req) as (H1 & H2 & H3).
    unfold set_headers_client. cbv zeta in H1, H2, H3. by rewrite H1, H2, H3.
  - destruct (headers_loop_handler_rest (map_to_list (r_headers r)) req)
      as (H1 & H2 & H3 & _).
    unfold set_headers_handler. by rewrite H1, H2, H3.
Qed.

(** *** [mergeURL] *)

Lemma Values_Add_loop (k k' : string) (vs : list string) (q : gmap string (list string)) :
  default [] (foldl (λ q v, Values_Add q k' v) q vs !! k)
  = default [] (q !! k) ++ (if decide (k = k') then vs else []).
Proof.
  revert q. induction vs as [|v vs IH]; intros q; simpl.
  - destruct (decide (k = k')); by rewrite app_nil_r.
  - rewrite IH. unfold Values_Add. destruct (decide (k = k')) as [->|Hne].
    + rewrite lookup_insert_eq. simpl. by rewrite <- app_assoc.
    + by rewrite lookup_insert_ne.
Qed.

Lemma query_loop (l : list (string * list string)) (q : gmap string (list string))
    (k : string) :
  NoDup l.*1 →
  default [] (foldl (λ q (kvs : string * list string),
                       foldl (λ q v, Values_Add q kvs.1 v) q kvs.2) q l !! k)
  = default [] (q !! k)
    ++ default [] ((list_to_map l : gmap string (list string)) !! k).
Proof.
  revert q. induction l as [|[k' vs] l IH]; intros q Hnd; simpl.
  - by rewrite app_nil_r.
  - apply NoDup_cons in Hnd as [Hk Hnd]. rewrite (IH _ Hnd), Values_Add_loop.
    destruct (decide (k = k')) as [->|Hne].
    + rewrite lookup_insert_eq, (not_elem_of_list_to_map_1 _ _ Hk). simpl.
      by rewrite app_nil_r.
    + rewrite lookup_insert_ne by done. by rewrite app_nil_r.
Qed.

(** X13.  [mergeURL] rejects a path that does not start with ["/"] before it looks
    at the endpoint.  When it gives a URL, scheme and host are the
    endpoint's (as parsed back from its string form), the paths are joined,
    and under every key the query has the endpoint's values followed by the
    path's values. *)
Theorem mergeURL_result (u : option URL) (p : string) :
  (HasPrefix p "/" = false →
   mergeURL u p = inr (Return (Some (GoError ("invalid path: " +:+ p)))))
  ∧ (∀ m, mergeURL u p = inl m →
       ∃ u0 m0 a q,
         u = Some u0 ∧ HasPrefix p "/" = true
         ∧ url_Parse (url_String u0) = Ok m0 ∧ url_Parse p = Ok a
         ∧ m = mkURL (Scheme m0) (Host m0) (path_Join (Path m0) (Path a)) (values_Encode q)
         ∧ ∀ k, default [] (q !! k)
                = default [] (url_Query u0 !! k) ++ default [] (url_Query a !! k)).
Proof.
  unfold mergeURL. split.
  - by intros ->.
  - intros m. destruct (HasPrefix p "/"); simpl; [|done].
    destruct u as [u0|]; [|done].
    destruct (url_Parse (url_String u0)) as [m0|e] eqn:Hm; [|done].
    destruct (url_Parse p) as [a|e] eqn:Ha; [|done].
    intros [= <-]. eexists u0, m0, a, _. split_and!; try done.
    intros k. rewrite query_loop by apply NoDup_fst_map_to_list.
    by rewrite list_to_map_to_list.
Qed.

(** *** The Cookie header *)

Lemma AddCookie_loop (l : list Cookie) (req : Request) :
  Forall (λ c, cookie_pair c ≠ "") l →
  Header_Get (req_Header (foldl AddCookie req l)) "Cookie"
  = cookie_header (Header_Get (req_Header req) "Cookie") (map cookie_pair l).
Proof.
  unfold cookie_header.
  revert req. induction l as [|c l IH]; intros req Hall.
  - simpl. rewrite app_nil_r.
    by destruct (String.eqb (Header_Get (req_Header req) "Cookie") "") eqn:Ho;
      [apply eqb_true in Ho|].
  - apply Forall_cons in Hall as [Hc Hall]. simpl foldl. rewrite (IH _ Hall).
    unfold AddCookie.
    destruct (String.eqb (Header_Get (req_Header req) "Cookie") "") eqn:Ho; simpl negb; cbv iota.
    + cbn [req_Header set_req_Header]. rewrite Header_Get_Set.
      apply eqb_false in Hc. by rewrite Hc.
    + cbn [req_Header set_req_Header]. rewrite Header_Get_Set.
      set (old := Header_Get (req_Header req) "Cookie") in *.
      assert (String.eqb (old +:+ "; " +:+ cookie_pair c) "" = false) as ->.
      { apply eqb_false. apply eqb_false in Ho. by destruct old. }
      simpl app. change (map cookie_pair (c :: l)) with (cookie_pair c :: map cookie_pair l).
      destruct (map cookie_pair l) as [|s ss]; simpl.
      * done.
      * by rewrite !app_assoc_string.
Qed.

Lemma AddCookie_loop_frame (l : list Cookie) (req : Request) :
  (∀ ck, ck ≠ CanonicalMIMEHeaderKey "Cookie" →
     req_Header (foldl AddCookie req l) !! ck = req_Header req !! ck)
  ∧ req_Method (foldl AddCookie req l) = req_Method req
  ∧ req_URL (foldl AddCookie req l) = req_URL req
  ∧ req_Host (foldl AddCookie req l) = req_Host req
  ∧ req_Body (foldl AddCookie req l) = req_Body req.
Proof.
  induction l as [|c l IH] using rev_ind; [done|].
  rewrite foldl_app. simpl. destruct IH as (Hh & Hm & Hu & Ho & Hb).
  unfold AddCookie.
  destruct (negb _); simpl; split_and!; try done;
    intros ck Hck; unfold Header_Set; rewrite lookup_insert_ne by done; by apply Hh.
Qed.

Lemma foldl_map {A B C : Type} (f : A → B → A) (g : C → B) (l : list C) (a : A) :
  foldl (λ a c, f a (g c)) a l = foldl f a (map g l).
Proof. revert a. induction l as [|c l IH]; intros a; [done|]. simpl. apply IH. Qed.

(** X14.  What [setCookieHeader] leaves in the request: the Cookie header holds
    what it held, then the pairs of the attached cookies in the order of
    [attached], joined with ["; "]; nothing else of the request changes,
    and nothing at all when no cookie is attached. *)
Theorem setCookieHeader_header (r : httpRequest) (req : Request) (cookies : Jar) (w : W) :
  (Forall (λ t : string * string * Cookie, cookie_pair t.2 ≠ "") (attached r req cookies w) →
   Header_Get (req_Header (setCookieHeader r req cookies w)) "Cookie"
   = cookie_header (Header_Get (req_Header req) "Cookie")
       (map (λ t : string * string * Cookie, cookie_pair t.2) (attached r req cookies w)))
  ∧ (∀ ck, ck ≠ CanonicalMIMEHeaderKey "Cookie" →
       req_Header (setCookieHeader r req cookies w) !! ck = req_Header req !! ck)
  ∧ req_Method (setCookieHeader r req cookies w) = req_Method req
  ∧ req_URL (setCookieHeader r req cookies w) = req_URL req
  ∧ req_Host (setCookieHeader r req cookies w) = req_Host req
  ∧ req_Body (setCookieHeader r req cookies w) = req_Body req
  ∧ (attached r req cookies w = [] → setCookieHeader r req cookies w = req).
Proof.
  rewrite HttpProps.setCookieHeader_attached.
  rewrite (foldl_map AddCookie (λ t : string * string * Cookie, t.2)).
  split; [|split].
  - intros Hall. rewrite AddCookie_loop.
    + by rewrite map_map.
    + by apply Forall_map.
  - apply AddCookie_loop_frame.
  - destruct (AddCookie_loop_frame (map (λ t : string * string * Cookie, t.2)
                                      (attached r req cookies w)) req)
      as (_ & -> & -> & -> & ->).
    split_and!; try done. by intros ->.
Qed.

(** *** The cookies that are stored *)

Lemma keyMap_loop (endpoint : option URL) (cs : list Cookie) (m : gmap string Cookie)
    (n : string) :
  foldl (λ (m : gmap string Cookie) c, <[Name c := c]> m) m (map (stored_cookie endpoint) cs)
    !! n
  = match last (filter (λ c, Name c = n) cs) with
    | Some c => Some (stored_cookie endpoint c)
    | None => m !! n
    end.
Proof.
  assert (∀ c, Name (stored_cookie endpoint c) = Name c) as Hname.
  { intros c. unfold stored_cookie. destruct endpoint; [|done].
    by destruct (String.eqb (Domain c) ""). }
  revert m. induction cs as [|c cs IH]; intros m; [done|].
  simpl. rewrite IH, Hname.
  destruct (decide (Name c = n)) as [Hn|Hn].
  - rewrite filter_cons_True by done.
    destruct (filter (λ c0, Name c0 = n) cs) as [|c' l'] eqn:Hf; simpl.
    + by rewrite Hn, lookup_insert_eq.
    + destruct (last (c' :: l')) eqn:Hl; [done|]. by apply last_None in Hl.
  - rewrite filter_cons_False by done.
    destruct (last (filter (λ c0, Name c0 = n) cs)); [done|].
    by rewrite lookup_insert_ne.
Qed.

(** X15.  Under a name, the map stored under ["cookies"] holds the last cookie of
    the response with that name; a cookie without a Domain gets the host of
    the runner's endpoint, if the runner has an endpoint, and a cookie with
    a Domain is stored as it came. *)
Theorem keyMap_of_last_cookie (endpoint : option URL) (cs : list Cookie) (n : string) :
  keyMap_of (fill_domains endpoint cs) !! n
  = stored_cookie endpoint <$> last (filter (λ c, Name c = n) cs)
  ∧ ∀ c, Name (stored_cookie endpoint c) = Name c
         ∧ Value (stored_cookie endpoint c) = Value c
         ∧ cookie_Path (stored_cookie endpoint c) = cookie_Path c
         ∧ Expires (stored_cookie endpoint c) = Expires c
         ∧ Domain (stored_cookie endpoint c)
           = if String.eqb (Domain c) "" then default "" (Host <$> endpoint) else Domain c.
Proof.
  split.
  - unfold keyMap_of.
    assert (fill_domains endpoint cs = map (stored_cookie endpoint) cs) as -> by done.
    rewrite keyMap_loop. by destruct (last _).
  - intros c. unfold stored_cookie. destruct endpoint as [ep|]; simpl.
    + by destruct (String.eqb (Domain c) "") eqn:Hd.
    + destruct (String.eqb (Domain c) "") eqn:Hd; [|done].
      apply eqb_true in Hd. by rewrite Hd.
Qed.

(** *** The TLS set-up *)

(** X16.  When the TLS set-up of [Run] goes through with a [*http.Transport] (the
    client's own, or the clone of the default one it is given when it has
    none), the transport has a TLS configuration whose [InsecureSkipVerify]
    is the runner's [skipVerify], whatever it was; [RootCAs] is the system
    pool (a new pool if that cannot be loaded) with [cacert] appended when
    there is a [cacert], and [Certificates] is the one pair of [cert] and
    [key] when both are there; otherwise they are as before.  With any other
    round tripper the set-up goes through only if there is no [cacert] and
    no pair of [cert] and [key], and changes nothing. *)
Theorem Run_tls_config (w : W) (rnr rnr' : httpRunner) (cl : httpClient) :
  rnr_client rnr = Some cl →
  Run_tls w rnr = (inl tt, rnr') →
  match Transport cl with
  | Some (OtherRoundTripper _) =>
      rnr' = rnr ∧ rnr_cacert rnr = "" ∧ (rnr_cert rnr = "" ∨ rnr_key rnr = "")
  | _ =>
      ∃ c, rnr' = set_rnr_client rnr (Some (mkClient (Some (HTTPTransport (Some c)))))
        ∧ InsecureSkipVerify c = rnr_skipVerify rnr
        ∧ (if negb (String.eqb (rnr_cacert rnr) "")
           then ∃ pool,
               AppendCertsFromPEM
                 (match x509_SystemCertPool w with Ok p => p | Err _ => x509_NewCertPool end)
                 (rnr_cacert rnr) = (pool, true)
               ∧ RootCAs c = Some pool
           else RootCAs c = RootCAs (tls_before cl))
        ∧ (if negb (String.eqb (rnr_cert rnr) "") && negb (String.eqb (rnr_key rnr) "")
           then ∃ pair, tls_X509KeyPair (rnr_cert rnr) (rnr_key rnr) = Ok pair
                        ∧ Certificates c = [pair]
           else Certificates c = Certificates (tls_before cl))
  end.
Proof.
  intros Hcl.
  unfold Run_tls, get_client, set_client, bind, get, put, deref, ret, panic, check, return_,
    tls_before.
  destruct rnr as [nm ep cl0 h v mb ca ce ke sk uc]. simpl in *. subst cl0.
  destruct cl as [[[[c0|]|x]|]]; simpl.
  all: repeat (HttpProps.run_step; simpl); intros Hrun; simplify_eq; simpl.
  all: try match goal with Hb : negb ?b = false |- _ => is_var b; destruct b; [|discriminate Hb] end.
  all: try (eexists; split_and!; [reflexivity|try done..]; try (eexists; by split)).
  all: repeat match goal with
       | Hb : negb (String.eqb _ "") = false |- _ =>
           apply negb_false_iff, eqb_true in Hb
       | Hb : _ && _ = false |- _ => apply andb_false_iff in Hb
       end.
  split_and!; [done..|].
  destruct Heqb0 as [Hb|Hb]; apply negb_false_iff, eqb_true in Hb; auto.
Qed.

End WithEnv.

Section WithOperator.
Context {T : HttpTypes} {E : HttpEnv} {O : OperatorOps}.

(** *** [Run] before the request is sent *)

(** X17.  A body without a mediaType passes [validate] unless the method is POST
    or PATCH, and [Run] then fails on it in [encodeBody] before anything is
    built, notified or sent. *)
Theorem Run_body_without_mediaType (rnr : httpRunner) (o : Op) (r : httpRequest) (w : W) :
  r_body r ≠ None → r_mediaType r = "" →
  (validate r = None ↔ r_method r ≠ MethodPost ∧ r_method r ≠ MethodPatch)
  ∧ Run rnr o r w
    = (Return (Some (GoError "unsupported mediaType: ")), mkRState rnr o w []).
Proof.
  intros Hb Hm. split.
  - unfold validate, isMultipartFormDataMediaType. rewrite Hm. simpl.
    destruct (String.eqb_spec (r_method r) MethodPost) as [Hp|Hp]; simpl.
    + split; [done|]. by intros [? _].
    + destruct (String.eqb_spec (r_method r) MethodPatch) as [Hq|Hq]; simpl.
      * split; [done|]. by intros [_ ?].
      * done.
  - unfold Run, Run_body, bind, get_rnr, get_operator, get_world, check, ret, return_.
    simpl. unfold encodeBody, isMultipartFormDataMediaType. simpl. rewrite Hm.
    by destruct (r_body r).
Qed.

(** X18.  When [cacert] cannot be appended to the certificate pool, [Run] returns
    the error of [x509.SystemCertPool]: nil when the system pool was loaded.
    It has then built, notified and sent nothing. *)
Theorem Run_cacert_not_appended (rnr : httpRunner) (o : Op) (r : httpRequest) (w : W)
    (cl : httpClient) :
  rnr_client rnr = Some cl → r_body r = None → rnr_cacert rnr ≠ "" →
  (AppendCertsFromPEM
     (match x509_SystemCertPool w with Ok p => p | Err _ => x509_NewCertPool end)
     (rnr_cacert rnr)).2 = false →
  (Run rnr o r w).1
  = Return (match x509_SystemCertPool w with Ok _ => None | Err e => Some e end)
  ∧ s_trace (Run rnr o r w).2 = []
  ∧ s_world (Run rnr o r w).2 = w.
Proof.
  intros Hcl Hb Hca Happ. apply eqb_false in Hca.
  destruct rnr as [nm ep cl0 h v mb ca ce ke sk uc]. simpl in *. subst cl0.
  unfold Run, Run_body, bind, get_rnr, get_operator, get_world, check, ret, return_.
  simpl. unfold encodeBody. simpl. rewrite Hb. simpl.
  unfold Run_client, bind, get_world, on_rnr. simpl.
  unfold Run_tls, get_client, set_client, bind, get, put, deref, ret, panic, check, return_.
  simpl.
  destruct cl as [[[[c0|]|x]|]]; simpl; rewrite ?Hca; simpl.
  all: destruct (x509_SystemCertPool w) as [p|e]; simpl in *.
  all: destruct (AppendCertsFromPEM _ ca) as [pool ok]; simpl in *; subst ok.
  all: done.
Qed.

(** X19.  A request with mediaType ["multipart/form-data"] and no body passes
    [validate] unless the method is POST or PATCH, and makes a runner with a
    client panic: no multipart writer was made, and
    [setContentTypeHeader] asks it for the content type.  Nothing has been
    notified or sent by then. *)
Theorem Run_multipart_without_body (rnr : httpRunner) (o : Op) (r : httpRequest) (w : W)
    (cl : httpClient) (u : URL) (req : Request) :
  rnr_client rnr = Some cl → rnr_cacert rnr = "" → rnr_cert rnr = "" →
  r_body r = None → r_mediaType r = MediaTypeMultipartFormData →
  r_multipartWriter r = None →
  mergeURL (rnr_endpoint rnr) (r_path r) = inl u →
  http_NewRequestWithContext (r_method r) (url_String u) None = Ok req →
  (validate r = None ↔ r_method r ≠ MethodPost ∧ r_method r ≠ MethodPatch)
  ∧ (Run rnr o r w).1 = Panic
  ∧ s_trace (Run rnr o r w).2 = []
  ∧ s_world (Run rnr o r w).2 = w.
Proof.
  intros Hcl Hca Hce Hb Hm Hmw Hu Hreq. split.
  - unfold validate, isMultipartFormDataMediaType. rewrite Hm, Hb. simpl.
    destruct (String.eqb_spec (r_method r) MethodPost) as [Hp|Hp]; simpl.
    + split; [done|]. by intros [? _].
    + destruct (String.eqb_spec (r_method r) MethodPatch) as [Hq|Hq]; simpl.
      * split; [done|]. by intros [_ ?].
      * done.
  - destruct rnr as [nm ep cl0 h v mb ca ce ke sk uc]. simpl in *. subst cl0 ca ce.
    unfold Run, Run_body, bind, get_rnr, get_operator, get_world, check, ret, return_.
    simpl. unfold encodeBody. simpl. rewrite Hb. simpl.
    unfold Run_client, bind, get_world, get_rnr, on_rnr, lift, check, deref. simpl.
    unfold Run_tls, get_client, set_client, bind, get, put, deref, ret, panic, check, return_.
    simpl.
    destruct cl as [[[[c0|]|x]|]]; simpl.
    all: rewrite Hu; simpl; rewrite Hreq; simpl.
    all: unfold setContentTypeHeader; simpl; rewrite Hm, Hmw; simpl.
    all: done.
Qed.

(** *** The one call on the backend *)

Lemma Run_handler_frame (r : httpRequest) (reqBody : option string)
    (h : Request → W → Response * W) (s s' : rstate) (out : Request * Response + exit) :
  Run_handler r reqBody h s = (out, s') →
  s_trace s = [] →
  s_rnr s' = s_rnr s
  ∧ ((s_trace s' = [] ∧ s_world s' = s_world s ∧ ∃ x, out = inr x)
     ∨ (∃ req, s_trace s' = [EvCaptureHTTPRequest (rnr_name (s_rnr s)) req]
               ∧ s_world s' = s_world s ∧ ∃ x, out = inr x)
     ∨ (∃ req res,
          s_trace s' = [EvCaptureHTTPRequest (rnr_name (s_rnr s)) req; EvServeHTTP req res]
          ∧ h req (s_world s) = (res, s_world s') ∧ out = inl (req, res))).
Proof.
  unfold Run_handler, bind, get_world, get_rnr, deref, ret, return_, panic,
    on_operator, check_err, backend.
  destruct s as [rnr o w tr]; simpl.
  repeat (HttpProps.run_step; simpl); intros Hrun Htr; simplify_eq; simpl;
    (split; [done|]);
    first [ by left; split_and!; eauto
          | by right; left; eexists; split_and!; eauto
          | by right; right; eexists _, _; split_and!; eauto ].
Qed.

Lemma Run_client_frame (r : httpRequest) (reqBody : option string) (s s' : rstate)
    (out : Request * Response + exit) :
  Run_client r reqBody s = (out, s') →
  s_trace s = [] →
  s_rnr s' = set_rnr_client (s_rnr s) (rnr_client (s_rnr s'))
  ∧ ((s_trace s' = [] ∧ s_world s' = s_world s ∧ ∃ x, out = inr x)
     ∨ (∃ req, s_trace s' = [EvCaptureHTTPRequest (rnr_name (s_rnr s)) req]
               ∧ s_world s' = s_world s ∧ ∃ x, out = inr x)
     ∨ (∃ req res cl,
          s_trace s' = [EvCaptureHTTPRequest (rnr_name (s_rnr s)) req; EvClientDo req res]
          ∧ rnr_client (s_rnr s') = Some cl
          ∧ client_Do cl req (s_world s) = (res, s_world s')
          ∧ out = match res with
                  | Ok resp => inl (req, resp)
                  | Err e => inr (Return (Some e))
                  end)).
Proof.
  unfold Run_client, get_client, bind, get_world, get_rnr, get_operator, on_rnr, lift,
    check, deref, ret, return_, panic, on_operator, check_err, backend, get.
  destruct s as [rnr o w tr]; simpl.
  destruct (Run_tls w rnr) as [tls rnr'] eqn:Htls.
  apply HttpProps.Run_tls_client in Htls as (Hr & Hok & Hnil).
  assert (rnr_name rnr' = rnr_name rnr) as Hname by (by rewrite Hr).
  destruct tls as [[]|x0]; simpl.
  2: { intros [= <- <-] ->. simpl. split; [done|]. left. by eauto. }
  rewrite Hname. clear Hname.
  repeat (HttpProps.run_step; simpl); intros Hrun Htr; simplify_eq; simpl;
    (split; [done|]);
    first [ by left; split_and!; eauto
          | by right; left; eexists; split_and!; eauto
          | by right; right; eexists _, _, _; split_and!; eauto ].
Qed.

Lemma store_not_backend (rest : list event) :
  Forall (λ ev, store_event ev = true) rest → Forall (λ ev, backend_event ev = false) rest.
Proof. intros Hall. eapply Forall_impl; [exact Hall|]. by intros []. Qed.

(** The calls of a whole [Run], with the world and the runner it leaves. *)
Lemma Run_frame (rnr : httpRunner) (o : Op) (r : httpRequest) (w : W) :
  s_rnr (Run rnr o r w).2 = set_rnr_client rnr (rnr_client (s_rnr (Run rnr o r w).2))
  ∧ (rnr_client rnr = None → s_rnr (Run rnr o r w).2 = rnr)
  ∧ ((s_trace (Run rnr o r w).2 = [] ∧ s_world (Run rnr o r w).2 = w)
     ∨ (∃ req, s_trace (Run rnr o r w).2 = [EvCaptureHTTPRequest (rnr_name rnr) req]
               ∧ s_world (Run rnr o r w).2 = w)
     ∨ (∃ req res cl rest,
          rnr_client rnr ≠ None
          ∧ s_trace (Run rnr o r w).2
            = EvCaptureHTTPRequest (rnr_name rnr) req :: EvClientDo req res :: rest
          ∧ rnr_client (s_rnr (Run rnr o r w).2) = Some cl
          ∧ client_Do cl req w = (res, s_world (Run rnr o r w).2)
          ∧ match res with
            | Ok resp =>
                ∃ rest', rest = EvCaptureHTTPResponse (rnr_name rnr) resp :: rest'
                         ∧ after_response rnr req resp (Run rnr o r w).1 rest'
            | Err e => rest = []
            end)
     ∨ (∃ req res h rest',
          rnr_client rnr = None ∧ rnr_handler rnr = Some h
          ∧ s_trace (Run rnr o r w).2
            = EvCaptureHTTPRequest (rnr_name rnr) req :: EvServeHTTP req res
              :: EvCaptureHTTPResponse (rnr_name rnr) res :: rest'
          ∧ h req w = (res, s_world (Run rnr o r w).2)
          ∧ after_response rnr req res (Run rnr o r w).1 rest')).
Proof.
  unfold Run, Run_body, bind, get_rnr, get_operator, get_world, check, ret, return_.
  simpl.
  destruct (encodeBody _ w) as [[reqBody|e] r'] eqn:Henc; simpl.
  2: { split_and!; [by destruct rnr|done|by left]. }
  destruct (rnr_client rnr) as [cl|] eqn:Hcl; [|destruct (rnr_handler rnr) as [h|] eqn:Hh].
  - destruct (Run_client r' reqBody (mkRState rnr o w [])) as [out s1] eqn:Hc.
    apply Run_client_frame in Hc as [Hrnr Hcase]; [|done]. simpl in *.
    destruct Hcase as [(Htr & Hw & x & ->)|[(req & Htr & Hw & x & ->)
                      |(req & res & cl' & Htr & Hcl' & Hdo & ->)]]; simpl.
    + split_and!; [done..|]. left. done.
    + split_and!; [done..|]. right; left. by exists req.
    + destruct res as [resp|e]; simpl.
      * destruct (HttpProps.Run_tail_case req resp s1)
          as (x & rest & Ha & Hout & Htr' & Hr' & Hw').
        rewrite Hrnr in Ha. apply HttpProps.after_response_client in Ha.
        rewrite Htr, Hrnr in Htr'. simpl in Htr'.
        destruct (Run_tail req resp s1) as [out2 s2]. simpl in *.
        assert ((match out2 with inl _ => (Return None, s2) | inr x0 => (x0, s2) end)
                = (x, s2)) as -> by (by destruct Hout as [-> | [-> ->]]).
        simpl. rewrite Hr', Hw'. split_and!; [done..|].
        right; right; left. exists req, (Ok resp), cl', (EvCaptureHTTPResponse (rnr_name rnr) resp :: rest).
        split_and!; try done. by exists rest.
      * split_and!; [done..|].
        right; right; left. exists req, (Err e), cl', []. by split_and!.
  - destruct (Run_handler r' reqBody h (mkRState rnr o w [])) as [out s1] eqn:Hc.
    apply Run_handler_frame in Hc as [Hrnr Hcase]; [|done]. simpl in *.
    destruct Hcase as [(Htr & Hw & x & ->)|[(req & Htr & Hw & x & ->)
                      |(req & res & Htr & Hdo & ->)]]; simpl.
    + rewrite Hrnr. split_and!; [by destruct rnr; simpl in *; subst|done|]. left. done.
    + rewrite Hrnr. split_and!; [by destruct rnr; simpl in *; subst|done|].
      right; left. by exists req.
    + destruct (HttpProps.Run_tail_case req res s1)
        as (x & rest & Ha & Hout & Htr' & Hr' & Hw').
      rewrite Hrnr in Ha. rewrite Htr, Hrnr in Htr'. simpl in Htr'.
      destruct (Run_tail req res s1) as [out2 s2]. simpl in *.
      assert ((match out2 with inl _ => (Return None, s2) | inr x0 => (x0, s2) end)
              = (x, s2)) as -> by (by destruct Hout as [-> | [-> ->]]).
      simpl. rewrite Hr', Hw', Hrnr. split_and!; [by destruct rnr; simpl in *; subst|done|].
      right; right; right. exists req, res, h, rest. by split_and!.
  - simpl. split_and!; [by destruct rnr; simpl in *; subst|done|by left].
Qed.

(** X20.  [Run] calls the backend at most once, on the request it has notified
    just before and in the world as it found it; the world it leaves is the
    one that call left, and the world as it was when no call was made.  The
    client called is the runner's client after the TLS set-up, and of the
    runner nothing but the client changes. *)
Theorem Run_calls_backend_once (rnr : httpRunner) (o : Op) (r : httpRequest) (w : W) :
  s_rnr (Run rnr o r w).2 = set_rnr_client rnr (rnr_client (s_rnr (Run rnr o r w).2))
  ∧ ((Forall (λ ev, backend_event ev = false) (s_trace (Run rnr o r w).2)
      ∧ s_world (Run rnr o r w).2 = w)
     ∨ ∃ req bev post,
         s_trace (Run rnr o r w).2 = EvCaptureHTTPRequest (rnr_name rnr) req :: bev :: post
         ∧ Forall (λ ev, backend_event ev = false) post
         ∧ ((∃ res cl, bev = EvClientDo req res
                       ∧ rnr_client (s_rnr (Run rnr o r w).2) = Some cl
                       ∧ client_Do cl req w = (res, s_world (Run rnr o r w).2))
            ∨ (∃ res h, bev = EvServeHTTP req res
                        ∧ rnr_client rnr = None ∧ rnr_handler rnr = Some h
                        ∧ h req w = (res, s_world (Run rnr o r w).2)))).
Proof.
  destruct (Run_frame rnr o r w) as (Hrnr & _ & Hcase). split; [done|].
  destruct Hcase as [[Htr Hw]|[(req & Htr & Hw)
                    |[(req & res & cl & rest & _ & Htr & Hcl & Hdo & Hrest)
                     |(req & res & h & rest & Hcl & Hh & Htr & Hdo & Ha)]]].
  - left. rewrite Htr. by split.
  - left. rewrite Htr. split; [|done]. by repeat constructor.
  - right. exists req, (EvClientDo req res), rest. split_and!; [done| |].
    + destruct res as [resp|e]; [|by subst].
      destruct Hrest as (rest' & -> & Ha). constructor; [done|].
      by eapply store_not_backend, HttpProps.after_response_store_events.
    + left. by exists res, cl.
  - right. exists req, (EvServeHTTP req res),
      (EvCaptureHTTPResponse (rnr_name rnr) res :: rest). split_and!; [done| |].
    + constructor; [done|].
      by eapply store_not_backend, HttpProps.after_response_store_events.
    + right. by exists res, h.
Qed.

Lemma validated_no_cookie (rnr : httpRunner) (req : Request) (res : Response)
    (dbg : list event) (cs : list Cookie) :
  validated rnr req res dbg → EvRecordToCookie cs ∉ dbg.
Proof.
  intros [[_ ->]|(msg & _ & ->)]; [apply not_elem_of_nil|].
  intros Hin. apply list_elem_of_singleton in Hin. discriminate.
Qed.

Lemma cookie_events_iff (rnr : httpRunner) (res : Response) (cs : list Cookie) :
  EvRecordToCookie cs ∈ cookie_events rnr res
  ↔ res_Cookies res ≠ [] ∧ cs = fill_domains (rnr_endpoint rnr) (res_Cookies res).
Proof.
  unfold cookie_events, stored_cookies. destruct (res_Cookies res) as [|c l]; simpl.
  - split; [by intros ?%elem_of_nil|by intros [? _]].
  - rewrite list_elem_of_singleton. split; [by intros [= ->]|by intros [_ ->]].
Qed.

Lemma after_response_cookies (rnr : httpRunner) (req : Request) (res : Response)
    (x : exit) (rest : list event) (cs : list Cookie) :
  after_response rnr req res x rest →
  EvRecordToCookie cs ∈ rest →
  res_Cookies res ≠ [] ∧ cs = fill_domains (rnr_endpoint rnr) (res_Cookies res).
Proof.
  intros Ha Hin. inversion Ha; subst.
  - by apply elem_of_nil in Hin.
  - by eapply validated_no_cookie in Hin.
  - by eapply validated_no_cookie in Hin.
  - rewrite !elem_of_app in Hin. destruct Hin as [Hin|[Hin|Hin]].
    + by eapply validated_no_cookie in Hin.
    + by apply cookie_events_iff in Hin.
    + apply list_elem_of_singleton in Hin. discriminate.
Qed.

(** X21.  What is recorded about cookies: the map under ["cookies"] is made of the
    cookies of the response (the empty map when there are none), and
    [recordToCookie] is called, with those cookies, exactly when the
    response has cookies. *)
Theorem Run_cookies_recorded (rnr : httpRunner) (o : Op) (r : httpRequest) (w : W)
    (v : Recorded) :
  EvRecord v ∈ s_trace (Run rnr o r w).2 →
  ∃ req res d,
    (EvClientDo req (Ok res) ∈ s_trace (Run rnr o r w).2
     ∨ EvServeHTTP req res ∈ s_trace (Run rnr o r w).2)
    ∧ v = {[ httpStoreResponseKey := d ]}
    ∧ d !! httpStoreCookieKey
      = Some (SVCookies (keyMap_of (fill_domains (rnr_endpoint rnr) (res_Cookies res))))
    ∧ ∀ cs, EvRecordToCookie cs ∈ s_trace (Run rnr o r w).2
            ↔ res_Cookies res ≠ [] ∧ cs = fill_domains (rnr_endpoint rnr) (res_Cookies res).
Proof.
  intros Hin.
  destruct (HttpProps.Run_record rnr o r w v Hin)
    as (req & res & bev & rest & Hbev & Htr & Hrest & Ha).
  destruct (HttpProps.after_response_record _ _ _ _ _ _ Ha Hrest)
    as (_ & _ & resBody & b & _ & _ & ->).
  exists req, res, (outcome_map rnr res resBody b). split_and!.
  - rewrite Htr. destruct Hbev as [-> | ->]; [left|right]; apply elem_of_cons; right;
      apply elem_of_cons; by left.
  - done.
  - unfold outcome_map. rewrite lookup_insert_eq. unfold stored_cookies.
    by destruct (res_Cookies res).
  - intros cs. rewrite Htr. split.
    + rewrite !elem_of_cons. intros [Heq|[Heq|[Heq|Hcs]]]; [discriminate| |discriminate|].
      * destruct Hbev as [-> | ->]; discriminate.
      * by eapply after_response_cookies.
    + intros Hcs. do 3 (apply elem_of_cons; right).
      inversion Ha; subst.
      * by apply elem_of_nil in Hrest.
      * by eapply HttpProps.validated_no_record in Hrest.
      * by eapply HttpProps.validated_no_record in Hrest.
      * rewrite !elem_of_app. right; left. by apply cookie_events_iff.
Qed.

(** *** A runner with a handler *)

Lemma Run_no_client_independent (O2 : OperatorOps) (rnr : httpRunner) (o o2 : Op)
    (r : httpRequest) (w : W) :
  rnr_client rnr = None →
  op_root (OperatorOps := O2) o2 = op_root (OperatorOps := O) o →
  (Run (O := O2) rnr o2 r w).1 = (Run (O := O) rnr o r w).1
  ∧ s_rnr (Run (O := O2) rnr o2 r w).2 = s_rnr (Run (O := O) rnr o r w).2
  ∧ s_world (Run (O := O2) rnr o2 r w).2 = s_world (Run (O := O) rnr o r w).2
  ∧ s_trace (Run (O := O2) rnr o2 r w).2 = s_trace (Run (O := O) rnr o r w).2.
Proof.
  intros Hcl Hroot.
  unfold Run, Run_body, bind, get_rnr, get_operator, get_world, check, ret, return_.
  simpl. rewrite Hroot, Hcl.
  destruct (encodeBody _ w) as [[reqBody|e] r'] eqn:Henc; simpl; [|done].
  destruct (rnr_handler rnr) as [h|]; [|done].
  destruct (HttpProps.Run_handler_independent O2 O r' reqBody h
              (mkRState rnr o2 w []) (mkRState rnr o w []))
    as (H1 & H2 & H3 & H4); [done..|].
  destruct (Run_handler (O := O2) r' reqBody h (mkRState rnr o2 w [])) as [out1 s1].
  destruct (Run_handler (O := O) r' reqBody h (mkRState rnr o w [])) as [out2 s2].
  simpl in *. subst out2. destruct out1 as [[req res]|x]; simpl; [|done].
  destruct (HttpProps.Run_tail_independent O2 O req res s1 s2) as (K1 & K2 & K3 & K4);
    [done..|].
  destruct (Run_tail (O := O2) req res s1) as [t1 u1].
  destruct (Run_tail (O := O) req res s2) as [t2 u2].
  simpl in *. subst t2. by destruct t1.
Qed.

(** X22.  A runner made by [newHTTPRunnerWithHandler] never calls [client.Do] and
    is left as it was; having no endpoint, it passes the cookies of the
    response to [recordToCookie] as they came; and it does not read the
    cookie jar: with another operator that has the same [root], whatever
    its jar and its methods, [Run] returns the same, makes the same calls and
    leaves the same world. *)
Theorem newHTTPRunnerWithHandler_Run (v : httpValidator) (name : string)
    (h : Request → W → Response * W) (o : Op) (r : httpRequest) (w : W) :
  (∀ req res, EvClientDo req res ∉ s_trace (Run (newHTTPRunnerWithHandler v name h) o r w).2)
  ∧ s_rnr (Run (newHTTPRunnerWithHandler v name h) o r w).2 = newHTTPRunnerWithHandler v name h
  ∧ (∀ cs, EvRecordToCookie cs ∈ s_trace (Run (newHTTPRunnerWithHandler v name h) o r w).2 →
       ∃ req res,
         EvServeHTTP req res ∈ s_trace (Run (newHTTPRunnerWithHandler v name h) o r w).2
         ∧ cs = res_Cookies res)
  ∧ (∀ (O2 : OperatorOps) (o2 : Op),
       op_root (OperatorOps := O2) o2 = op_root (OperatorOps := O) o →
       (Run (O := O2) (newHTTPRunnerWithHandler v name h) o2 r w).1
       = (Run (O := O) (newHTTPRunnerWithHandler v name h) o r w).1
       ∧ s_world (Run (O := O2) (newHTTPRunnerWithHandler v name h) o2 r w).2
         = s_world (Run (O := O) (newHTTPRunnerWithHandler v name h) o r w).2
       ∧ s_trace (Run (O := O2) (newHTTPRunnerWithHandler v name h) o2 r w).2
         = s_trace (Run (O := O) (newHTTPRunnerWithHandler v name h) o r w).2).
Proof.
  set (rnr := newHTTPRunnerWithHandler v name h).
  destruct (Run_frame rnr o r w) as (_ & Hrnr & Hcase).
  assert (∀ req res,
            (EvClientDo req res ∉ s_trace (Run rnr o r w).2)
            ∧ ∀ cs, EvRecordToCookie cs ∈ s_trace (Run rnr o r w).2 →
                ∃ req res, EvServeHTTP req res ∈ s_trace (Run rnr o r w).2
                           ∧ cs = res_Cookies res) as Htrace.
  { intros req0 res0.
    destruct Hcase as [[Htr Hw]|[(req & Htr & Hw)
                      |[(req & res & cl & rest & Hcl & _)
                       |(req & res & h' & rest & _ & _ & Htr & _ & Ha)]]].
    - rewrite Htr. split; [apply not_elem_of_nil|]. by intros cs ?%elem_of_nil.
    - rewrite Htr. split.
      + intros Hin%list_elem_of_singleton. discriminate.
      + intros cs Hin%list_elem_of_singleton. discriminate.
    - by destruct Hcl.
    - rewrite Htr. split.
      + rewrite !elem_of_cons. intros [Heq|[Heq|[Heq|Hin]]]; try discriminate.
        pose proof (HttpProps.after_response_store_events _ _ _ _ _ Ha) as Hall.
        rewrite Forall_forall in Hall. specialize (Hall _ Hin). discriminate.
      + intros cs. rewrite !elem_of_cons. intros [Heq|[Heq|[Heq|Hin]]]; try discriminate.
        exists req, res. split; [right; by left|].
        destruct (after_response_cookies _ _ _ _ _ _ Ha Hin) as [_ ->].
        unfold fill_domains. simpl. by rewrite map_id. }
  split_and!.
  - intros req res. apply Htrace.
  - by apply Hrnr.
  - apply (Htrace (mkRequest "" (mkURL "" "" "" "") ∅ "" None) (Err (GoError ""))).
  - intros O2 o2 Hroot.
    by destruct (Run_no_client_independent O2 rnr o o2 r w eq_refl Hroot) as (? & _ & ? & ?).
Qed.

End WithOperator.

Section Independence.
Context {T : HttpTypes} {E : HttpEnv}.


End Independence.

Section CookiesOff.
Context {T : HttpTypes} {E : HttpEnv}.

Lemma encodeBody_useCookie (r : httpRequest) (w : W) :
  r_useCookie (encodeBody r w).2 = r_useCookie r.
Proof. unfold encodeBody. by repeat (HttpProps.run_step; simpl). Qed.

Lemma Run_client_cookies_off (O1 O2 : OperatorOps) (r : httpRequest)
    (reqBody : option string) (s1 s2 : rstate) :
  s_rnr s1 = s_rnr s2 → s_world s1 = s_world s2 → s_trace s1 = s_trace s2 →
  r_useCookie r = Some false
  ∨ (r_useCookie r = None ∧ rnr_useCookie (s_rnr s1) ≠ Some true) →
  (Run_client (O := O1) r reqBody s1).1 = (Run_client (O := O2) r reqBody s2).1
  ∧ s_rnr (Run_client (O := O1) r reqBody s1).2 = s_rnr (Run_client (O := O2) r reqBody s2).2
  ∧ s_world (Run_client (O := O1) r reqBody s1).2
    = s_world (Run_client (O := O2) r reqBody s2).2
  ∧ s_trace (Run_client (O := O1) r reqBody s1).2
    = s_trace (Run_client (O := O2) r reqBody s2).2.
Proof.
  unfold Run_client, get_client, bind, get_world, get_rnr, get_operator, on_rnr, lift,
    check, deref, ret, return_, panic, on_operator, check_err, backend, get.
  destruct s1 as [rnr1 o1 w1 tr1], s2 as [rnr2 o2 w2 tr2]; simpl.
  intros -> -> -> Hoff.
  destruct (Run_tls w2 rnr2) as [tls rnr'] eqn:Htls.
  pose proof (HttpProps.Run_tls_client _ _ _ _ Htls) as (Hr & _ & _).
  assert (rnr_useCookie rnr' = rnr_useCookie rnr2) as Huc by (by rewrite Hr).
  destruct tls as [[]|x]; simpl; [|done].
  assert ((if bool_decide (r_useCookie r = None) && bool_decide (rnr_useCookie rnr' = Some true)
           then set_r_useCookie r (rnr_useCookie rnr') else r) = r) as ->.
  { destruct Hoff as [Hf|[Hn Hne]].
    - rewrite Hf. by rewrite bool_decide_eq_false_2.
    - rewrite Huc. rewrite (bool_decide_eq_false_2 (rnr_useCookie rnr2 = Some true)) by done.
      by rewrite andb_false_r. }
  unfold setCookieHeader.
  assert (r_useCookie r ≠ Some true) as Hnt by (by destruct Hoff as [->|[-> _]]).
  destruct (r_useCookie r) as [[|]|]; [done|..];
    repeat (HttpProps.run_step; simpl); done.
Qed.

(** X24.  [Run] reads the cookie jar only for a request that has cookies switched
    on: with a runner that has no client, or when the request says
    [useCookie: false], or says nothing and the runner does not say
    [useCookie: true], it returns the same, makes the same calls and leaves
    the same world and runner whatever the operator's jar (and whatever its
    methods do), given the same [root]. *)
Theorem Run_reads_jar_only_for_cookies (O1 O2 : OperatorOps) (rnr : httpRunner) (o1 o2 : Op)
    (r : httpRequest) (w : W) :
  op_root (OperatorOps := O1) o1 = op_root (OperatorOps := O2) o2 →
  rnr_client rnr = None
  ∨ r_useCookie r = Some false
  ∨ (r_useCookie r = None ∧ rnr_useCookie rnr ≠ Some true) →
  (Run (O := O1) rnr o1 r w).1 = (Run (O := O2) rnr o2 r w).1
  ∧ s_rnr (Run (O := O1) rnr o1 r w).2 = s_rnr (Run (O := O2) rnr o2 r w).2
  ∧ s_world (Run (O := O1) rnr o1 r w).2 = s_world (Run (O := O2) rnr o2 r w).2
  ∧ s_trace (Run (O := O1) rnr o1 r w).2 = s_trace (Run (O := O2) rnr o2 r w).2.
Proof.
  intros Hroot Hoff.
  destruct (rnr_client rnr) as [cl|] eqn:Hcl.
  2: { by apply (Run_no_client_independent (O := O2) O1 rnr o2 o1 r w). }
  destruct Hoff as [Hno|Hoff]; [done|].
  unfold Run, Run_body, bind, get_rnr, get_operator, get_world, check, ret, return_.
  simpl. rewrite Hroot, Hcl.
  pose proof (encodeBody_useCookie
                (set_r_root (set_r_multipartBoundary r (rnr_multipartBoundary rnr))
                   (op_root (OperatorOps := O2) o2)) w) as Huc.
  destruct (encodeBody _ w) as [[reqBody|e] r'] eqn:Henc; simpl in *; [|done].
  destruct (Run_client_cookies_off O1 O2 r' reqBody
              (mkRState rnr o1 w []) (mkRState rnr o2 w []))
    as (H1 & H2 & H3 & H4); [done..|by rewrite Huc|].
  destruct (Run_client (O := O1) r' reqBody (mkRState rnr o1 w [])) as [out1 s1].
  destruct (Run_client (O := O2) r' reqBody (mkRState rnr o2 w [])) as [out2 s2].
  simpl in *. subst out2. destruct out1 as [[req res]|x]; simpl; [|done].
  destruct (HttpProps.Run_tail_independent O1 O2 req res s1 s2) as (K1 & K2 & K3 & K4);
    [done..|].
  destruct (Run_tail (O := O1) req res s1) as [t1 u1].
  destruct (Run_tail (O := O2) req res s2) as [t2 u2].
  simpl in *. subst t2. by destruct t1.
Qed.

End CookiesOff.

(** *** Sample runs *)
Import HttpFixture HttpMoreFixture.

Lemma request_headers_override_witness :
  Header_Get (E := env)
    (req_Header (set_headers_client (E := env) get_with_headers
                   (AddCookie (E := env) (request_to "api.example.com") sid))) "Cookie"
  = "a=b".
Proof.
  apply (proj1 (request_headers_override (E := env) get_with_headers
                  (AddCookie (E := env) (request_to "api.example.com") sid)) "Cookie" "a=b").
  - vm_compute. reflexivity.
  - intros k' _ Hk. exact Hk.
Defined.

Lemma mergeURL_result_witness :
  mergeURL (E := env) None "users" = inr (Return (Some (GoError "invalid path: users"))).
Proof.
  apply (proj1 (mergeURL_result (E := env) None "users")). reflexivity.
Defined.

Lemma setCookieHeader_header_witness :
  Header_Get (E := env)
    (req_Header (setCookieHeader (E := env) with_cookies (request_to "api.example.com")
                   jar_example 10%Z)) "Cookie"
  = "sid=42".
Proof.
  apply (proj1 (setCookieHeader_header (E := env) with_cookies (request_to "api.example.com")
                  jar_example 10%Z)).
  assert (attached (T := types) (E := env) with_cookies (request_to "api.example.com")
            jar_example 10%Z = [("example.com", "sid", sid)]) as ->
    by (vm_compute; reflexivity).
  repeat constructor. intros Heq. discriminate Heq.
Defined.

Lemma Run_tls_config_witness :
  ∃ c, (Run_tls (E := env) 0%Z client_runner).2
       = set_rnr_client client_runner (Some (mkClient (Some (HTTPTransport (Some c)))))
       ∧ InsecureSkipVerify c = false.
Proof.
  destruct (Run_tls_config (E := env) 0%Z client_runner
              (Run_tls (E := env) 0%Z client_runner).2 (mkClient None) eq_refl eq_refl)
    as (c & Hc & Hs & _).
  exists c. split; [exact Hc|exact Hs].
Defined.

Lemma Run_body_without_mediaType_witness :
  Run (T := types) (E := env) (O := operator_ops) client_runner ∅ get_with_body 0%Z
  = (Return (Some (GoError "unsupported mediaType: ")),
     mkRState (T := types) client_runner ∅ 0%Z []).
Proof.
  apply (proj2 (Run_body_without_mediaType (E := env) (O := operator_ops)
                  client_runner ∅ get_with_body 0%Z
                  ltac:(intros Heq; discriminate Heq) eq_refl)).
Defined.

Lemma Run_cacert_not_appended_witness :
  (Run (T := types) (E := env) (O := operator_ops) cacert_runner ∅ get_users 0%Z).1
  = Return None
  ∧ s_trace (Run (T := types) (E := env) (O := operator_ops) cacert_runner ∅ get_users 0%Z).2
    = []
  ∧ s_world (Run (T := types) (E := env) (O := operator_ops) cacert_runner ∅ get_users 0%Z).2
    = 0%Z.
Proof.
  apply (Run_cacert_not_appended (E := env) (O := operator_ops) cacert_runner ∅ get_users 0%Z
           (mkClient None)).
  - reflexivity.
  - reflexivity.
  - intros Heq. discriminate Heq.
  - reflexivity.
Defined.

Lemma Run_multipart_without_body_witness :
  (Run (T := types) (E := env) (O := operator_ops) client_runner ∅ get_multipart 0%Z).1
  = Panic.
Proof.
  apply (Run_multipart_without_body (E := env) (O := operator_ops) client_runner ∅
           get_multipart 0%Z (mkClient None)
           (mkURL "" "" "https://api.example.com/users" "")
           (mkRequest "GET" (mkURL "https" "api.example.com" "://https://api.example.com/users" "")
              ∅ "" None)); reflexivity.
Defined.

Lemma Run_cookies_recorded_witness :
  ∃ req res d,
    (EvClientDo req (Ok res)
       ∈ s_trace (Run (T := types) (E := env_cookies) (O := operator_ops)
                    endpoint_runner ∅ get_users 0%Z).2
     ∨ EvServeHTTP req res
         ∈ s_trace (Run (T := types) (E := env_cookies) (O := operator_ops)
                      endpoint_runner ∅ get_users 0%Z).2)
    ∧ recorded_sample = {[ httpStoreResponseKey := d ]}
    ∧ d !! httpStoreCookieKey
      = Some (SVCookies (keyMap_of (fill_domains (rnr_endpoint endpoint_runner)
                                      (res_Cookies (HttpEnv := env_cookies) res))))
    ∧ ∀ cs, EvRecordToCookie cs
              ∈ s_trace (Run (T := types) (E := env_cookies) (O := operator_ops)
                           endpoint_runner ∅ get_users 0%Z).2
            ↔ res_Cookies (HttpEnv := env_cookies) res ≠ []
              ∧ cs = fill_domains (rnr_endpoint endpoint_runner)
                       (res_Cookies (HttpEnv := env_cookies) res).
Proof.
  apply (Run_cookies_recorded (E := env_cookies) (O := operator_ops)
           endpoint_runner ∅ get_users 0%Z recorded_sample).
  apply list_elem_of_In. vm_compute. auto 10.
Defined.


Lemma Run_reads_jar_only_for_cookies_witness :
  (Run (T := types) (E := env) (O := operator_ops) client_runner jar_example get_users 0%Z).1
  = (Run (T := types) (E := env) (O := operator_ops) client_runner jar_localhost get_users
       0%Z).1
  ∧ s_trace (Run (T := types) (E := env) (O := operator_ops) client_runner jar_example
               get_users 0%Z).2
    = s_trace (Run (T := types) (E := env) (O := operator_ops) client_runner jar_localhost
                 get_users 0%Z).2.
Proof.
  destruct (Run_reads_jar_only_for_cookies (E := env) operator_ops operator_ops
              client_runner jar_example jar_localhost get_users 0%Z eq_refl)
    as (H1 & _ & _ & H4).
  - right; right. split; [reflexivity|]. intros Heq. discriminate Heq.
  - split; [exact H1|exact H4].
Defined.

End HttpMoreProps.
